(** * Chat / media signalling layer of the ZewedJobs front end

    A shallow embedding of the two stateful classes that carry the
    signalling and reconnection logic of the portal:

    - [ChatSystem] (src/ethiopian-payments.js, second class of the file):
      the WebSocket session, the reconnect policy, the offline queue, the
      inbound frame router and the per-room message history;
    - [MediaRoom] (src/unnamed/part_001): the WebRTC peer connections, the
      screen-share track swap and the room teardown;
    - [EthiopianPayment] (src/ethiopian-payments.js, first class of the
      file): the checks of bank details and phone numbers and the masking
      of account and phone numbers.

    JavaScript objects that the code mutates through several references
    (chat messages, peer connections) live in an explicit object store and
    are referred to by their index in it.  Browser objects (WebSocket,
    RTCPeerConnection, MediaStreamTrack, timers, the notification widget,
    the console) are represented by the part of their state that the code
    reads or writes.  The DOM is not represented: every DOM access of the
    modelled methods is guarded and has no effect on the fields below.
    What localStorage holds is an input of [initialize]; [saveData] only
    writes a snapshot to it.  Of the console, the console.error lines are
    kept; console.warn prints and does nothing else.  Numbers are
    integer-valued: the product the code forms is the double-precision
    one, and a counter that moves by one is below 2^53, where adding one
    is exact. *)

From Stdlib Require Import ZArith Lia.
From stdpp Require Import base option numbers strings list gmap.

(** ** JavaScript [Map]: a dictionary that remembers insertion order *)

Module JsMap.
Section defs.
Context {K V : Type} `{!EqDecision K}.

Fixpoint get (k : K) (m : list (K * V)) : option V :=
  match m with
  | [] => None
  | (k', v) :: m' => if decide (k = k') then Some v else get k m'
  end.

Definition has (k : K) (m : list (K * V)) : bool :=
  match get k m with Some _ => true | None => false end.

(* [set] keeps the position of a key that is already present and
   appends a new key at the end *)
Fixpoint set (k : K) (v : V) (m : list (K * V)) : list (K * V) :=
  match m with
  | [] => [(k, v)]
  | (k', v') :: m' =>
      if decide (k = k') then (k, v) :: m' else (k', v') :: set k v m'
  end.

Fixpoint delete (k : K) (m : list (K * V)) : list (K * V) :=
  match m with
  | [] => []
  | (k', v') :: m' =>
      if decide (k = k') then m' else (k', v') :: delete k m'
  end.

Definition values (m : list (K * V)) : list V := m.*2.
End defs.
End JsMap.

(** ** ChatSystem *)

Module Chat.

(** *** JavaScript values *)

(* what the code compares with === and tests for truthiness: undefined
   (also an absent property), null, or a string *)
Inductive Value :=
| undefined
| null
| str (s : string).

Coercion str : string >-> Value.

#[export] Instance Value_eq_dec : EqDecision Value.
Proof. solve_decision. Defined.

(* a Number that arises from integers: an integer-valued double or an
   infinity *)
Inductive Number :=
| Finite (z : Z)
| PosInfinity
| NegInfinity.

#[export] Instance Number_eq_dec : EqDecision Number.
Proof. solve_decision. Defined.

(* the double nearest to the integer a >= 0, ties to the even significand:
   below 2^53 every integer is a double; from there on the doubles are the
   multiples of u = 2^(log2 a - 52) *)
Definition round_magnitude (a : Z) : Z :=
  if (a <? 2 ^ 53)%Z then a
  else
    let u := (2 ^ (Z.log2 a - 52))%Z in
    let q := (a / u)%Z in
    let r := (a mod u)%Z in
    if ((2 * r <? u) || ((2 * r =? u) && Z.even q))%Z
    then (q * u)%Z else ((q + 1) * u)%Z.

Definition round_double (z : Z) : Z :=
  if (z <? 0)%Z then (- round_magnitude (- z))%Z else round_magnitude z.

(* a * b on integer-valued doubles: the exact product, rounded; a result
   beyond the largest double is an infinity *)
Definition js_mul (a b : Z) : Number :=
  let p := round_double (a * b) in
  if (2 ^ 1024 <=? p)%Z then PosInfinity
  else if (p <=? - 2 ^ 1024)%Z then NegInfinity
  else Finite p.

(* a <= b on Numbers *)
Definition number_le (a b : Number) : Prop :=
  match a, b with
  | NegInfinity, _ => True
  | _, PosInfinity => True
  | Finite x, Finite y => (x ≤ y)%Z
  | _, _ => False
  end.

(** *** Data *)

Record Config := {
  websocketUrl : string;
  reconnectAttempts : Z;
  reconnectDelay : Z;
  messageLimit : Z
}.

(* the object literal handed to the constructor: any key may be absent *)
Record Options := {
  opt_websocketUrl : option string;
  opt_reconnectAttempts : option Z;
  opt_reconnectDelay : option Z;
  opt_messageLimit : option Z
}.

(* { key: config.key || dflt, ...config }: the spread writes every key
   that is present over the defaulted one *)
Definition mkConfig (o : Options) : Config :=
  {| websocketUrl := default "wss://chat.example.com" (opt_websocketUrl o);
     reconnectAttempts := default 5%Z (opt_reconnectAttempts o);
     reconnectDelay := default 3000%Z (opt_reconnectDelay o);
     messageLimit := default 1000%Z (opt_messageLimit o) |}.

(* userId and userName are copied from this.userId and this.userName,
   which are null before initialize, or come from a decoded frame *)
Record Message := {
  m_id : string;
  m_roomId : string;
  m_userId : Value;
  m_userName : Value;
  m_text : string;
  m_timestamp : Z;
  m_status : string
}.

#[export] Instance Message_inhabited : Inhabited Message :=
  populate {| m_id := ""; m_roomId := ""; m_userId := ""; m_userName := "";
              m_text := ""; m_timestamp := 0; m_status := "" |}.

(* message.status = st *)
Definition with_status (st : string) (m : Message) : Message :=
  {| m_id := m_id m; m_roomId := m_roomId m; m_userId := m_userId m;
     m_userName := m_userName m; m_text := m_text m;
     m_timestamp := m_timestamp m; m_status := st |}.

Record Room := {
  r_id : string;
  r_name : string;
  r_type : string;
  r_participants : list string
}.

(* what the code hands to this.send *)
Inductive Frame :=
| FAuth (uid uname : Value)
| FMessage (m : Message)
| FJoin (room uname : string)
| FLeave (room : string)
| FRead (messageId : string) (room : option string)
| FPong.

(* a decoded inbound frame; [d_message] and [d_error] are both the
   property data.message, read as a message object by the 'message' and
   'file' cases and as a text by the 'error' case *)
Record Inbound := {
  d_type : string;
  d_message : option Message;
  d_error : string;
  d_roomId : Value;
  d_userId : string;
  d_userName : string;
  d_isTyping : bool
}.

(* event.data: a text JSON.parse rejects, or a decoded object *)
Inductive EventData :=
| Unparseable (raw : string)
| Decoded (d : Inbound).

Inductive Notification :=
| ChatInitialized          (* success: 'Chat system initialized' *)
| InitializeFailed         (* error: 'Failed to initialize chat' *)
| ConnectedToServer        (* success *)
| DisconnectedFromServer   (* warning *)
| ReconnectingIn (delay : Number) (* info *)
| ReconnectFailed          (* error: 'Failed to reconnect. Please refresh the page.' *)
| SelectRoomFirst          (* warning *)
| MessageQueuedOffline     (* info *)
| QueuedMessagesSent       (* success *)
| BackOnline               (* success *)
| NewMessageFrom (uname : Value) (room : string) (* info *)
| ServerError (text : string).        (* error *)

Inductive Level := success | info | warning | error.

Definition level (n : Notification) : Level :=
  match n with
  | ChatInitialized | ConnectedToServer | QueuedMessagesSent
  | BackOnline => success
  | ReconnectingIn _ | MessageQueuedOffline | NewMessageFrom _ _ => info
  | DisconnectedFromServer | SelectRoomFirst => warning
  | InitializeFailed | ReconnectFailed | ServerError _ => error
  end.

Inductive ReadyState := CONNECTING | OPEN | CLOSED.

#[export] Instance ReadyState_eq_dec : EqDecision ReadyState.
Proof. solve_decision. Defined.

(* the promise returned by the latest connect() *)
Inductive Promise := NoPromise | Pending | Resolved | Rejected.

#[export] Instance Promise_eq_dec : EqDecision Promise.
Proof. solve_decision. Defined.

Record ChatSystem := {
  config : Config;
  ws : option ReadyState;          (* this.ws, with the socket's readyState *)
  connected : bool;
  reconnectCount : Z;
  userId : Value;
  userName : Value;
  currentRoom : option string;     (* null or a room id *)
  rooms : list (string * Room);    (* Map roomId -> room *)
  messages : list (string * list nat); (* Map roomId -> array of message objects *)
  typingUsers : gmap string string;
  unreadCounts : gmap string Z;
  messageQueue : list nat;         (* array of message objects *)
  heap : list Message;             (* the message objects, by allocation order *)
  wire : list Frame;               (* frames passed to ws.send, oldest first *)
  notifications : list Notification;
  console : list string;           (* console.error lines *)
  timers : list Number;            (* pending setTimeout(connect, delay) *)
  promise : Promise;
  initializing : bool;             (* initialize is suspended on the promise of the latest connect() *)
  listening : bool                 (* setupEventListeners has installed the window listeners *)
}.

Definition new_ChatSystem (o : Options) : ChatSystem :=
  {| config := mkConfig o; ws := None; connected := false;
     reconnectCount := 0; userId := null; userName := null;
     currentRoom := None; rooms := []; messages := [];
     typingUsers := ∅; unreadCounts := ∅; messageQueue := [];
     heap := []; wire := []; notifications := []; console := [];
     timers := []; promise := NoPromise; initializing := false;
     listening := false |}.

(* field assignments: this.f = v *)
Definition set_ws (v : option ReadyState) (s : ChatSystem) : ChatSystem :=
  {| config := config s; ws := v; connected := connected s; reconnectCount
     := reconnectCount s; userId := userId s; userName := userName s;
     currentRoom := currentRoom s; rooms := rooms s; messages := messages s;
     typingUsers := typingUsers s; unreadCounts := unreadCounts s;
     messageQueue := messageQueue s; heap := heap s; wire := wire s;
     notifications := notifications s; console := console s; timers := timers
     s; promise := promise s; initializing := initializing s; listening :=
     listening s |}.

Definition set_connected (v : bool) (s : ChatSystem) : ChatSystem :=
  {| config := config s; ws := ws s; connected := v; reconnectCount :=
     reconnectCount s; userId := userId s; userName := userName s;
     currentRoom := currentRoom s; rooms := rooms s; messages := messages s;
     typingUsers := typingUsers s; unreadCounts := unreadCounts s;
     messageQueue := messageQueue s; heap := heap s; wire := wire s;
     notifications := notifications s; console := console s; timers := timers
     s; promise := promise s; initializing := initializing s; listening :=
     listening s |}.

Definition set_reconnectCount (v : Z) (s : ChatSystem) : ChatSystem :=
  {| config := config s; ws := ws s; connected := connected s;
     reconnectCount := v; userId := userId s; userName := userName s;
     currentRoom := currentRoom s; rooms := rooms s; messages := messages s;
     typingUsers := typingUsers s; unreadCounts := unreadCounts s;
     messageQueue := messageQueue s; heap := heap s; wire := wire s;
     notifications := notifications s; console := console s; timers := timers
     s; promise := promise s; initializing := initializing s; listening :=
     listening s |}.

Definition set_userId (v : Value) (s : ChatSystem) : ChatSystem :=
  {| config := config s; ws := ws s; connected := connected s;
     reconnectCount := reconnectCount s; userId := v; userName := userName s;
     currentRoom := currentRoom s; rooms := rooms s; messages := messages s;
     typingUsers := typingUsers s; unreadCounts := unreadCounts s;
     messageQueue := messageQueue s; heap := heap s; wire := wire s;
     notifications := notifications s; console := console s; timers := timers
     s; promise := promise s; initializing := initializing s; listening :=
     listening s |}.

Definition set_userName (v : Value) (s : ChatSystem) : ChatSystem :=
  {| config := config s; ws := ws s; connected := connected s;
     reconnectCount := reconnectCount s; userId := userId s; userName := v;
     currentRoom := currentRoom s; rooms := rooms s; messages := messages s;
     typingUsers := typingUsers s; unreadCounts := unreadCounts s;
     messageQueue := messageQueue s; heap := heap s; wire := wire s;
     notifications := notifications s; console := console s; timers := timers
     s; promise := promise s; initializing := initializing s; listening :=
     listening s |}.

Definition set_currentRoom (v : option string) (s : ChatSystem) : ChatSystem :=
  {| config := config s; ws := ws s; connected := connected s;
     reconnectCount := reconnectCount s; userId := userId s; userName :=
     userName s; currentRoom := v; rooms := rooms s; messages := messages s;
     typingUsers := typingUsers s; unreadCounts := unreadCounts s;
     messageQueue := messageQueue s; heap := heap s; wire := wire s;
     notifications := notifications s; console := console s; timers := timers
     s; promise := promise s; initializing := initializing s; listening :=
     listening s |}.

Definition set_rooms (v : list (string * Room)) (s : ChatSystem) : ChatSystem :=
  {| config := config s; ws := ws s; connected := connected s;
     reconnectCount := reconnectCount s; userId := userId s; userName :=
     userName s; currentRoom := currentRoom s; rooms := v; messages :=
     messages s; typingUsers := typingUsers s; unreadCounts := unreadCounts
     s; messageQueue := messageQueue s; heap := heap s; wire := wire s;
     notifications := notifications s; console := console s; timers := timers
     s; promise := promise s; initializing := initializing s; listening :=
     listening s |}.

Definition set_messages (v : list (string * list nat)) (s : ChatSystem) : ChatSystem :=
  {| config := config s; ws := ws s; connected := connected s;
     reconnectCount := reconnectCount s; userId := userId s; userName :=
     userName s; currentRoom := currentRoom s; rooms := rooms s; messages :=
     v; typingUsers := typingUsers s; unreadCounts := unreadCounts s;
     messageQueue := messageQueue s; heap := heap s; wire := wire s;
     notifications := notifications s; console := console s; timers := timers
     s; promise := promise s; initializing := initializing s; listening :=
     listening s |}.

Definition set_typingUsers (v : gmap string string) (s : ChatSystem) : ChatSystem :=
  {| config := config s; ws := ws s; connected := connected s;
     reconnectCount := reconnectCount s; userId := userId s; userName :=
     userName s; currentRoom := currentRoom s; rooms := rooms s; messages :=
     messages s; typingUsers := v; unreadCounts := unreadCounts s;
     messageQueue := messageQueue s; heap := heap s; wire := wire s;
     notifications := notifications s; console := console s; timers := timers
     s; promise := promise s; initializing := initializing s; listening :=
     listening s |}.

Definition set_unreadCounts (v : gmap string Z) (s : ChatSystem) : ChatSystem :=
  {| config := config s; ws := ws s; connected := connected s;
     reconnectCount := reconnectCount s; userId := userId s; userName :=
     userName s; currentRoom := currentRoom s; rooms := rooms s; messages :=
     messages s; typingUsers := typingUsers s; unreadCounts := v;
     messageQueue := messageQueue s; heap := heap s; wire := wire s;
     notifications := notifications s; console := console s; timers := timers
     s; promise := promise s; initializing := initializing s; listening :=
     listening s |}.

Definition set_messageQueue (v : list nat) (s : ChatSystem) : ChatSystem :=
  {| config := config s; ws := ws s; connected := connected s;
     reconnectCount := reconnectCount s; userId := userId s; userName :=
     userName s; currentRoom := currentRoom s; rooms := rooms s; messages :=
     messages s; typingUsers := typingUsers s; unreadCounts := unreadCounts
     s; messageQueue := v; heap := heap s; wire := wire s; notifications :=
     notifications s; console := console s; timers := timers s; promise :=
     promise s; initializing := initializing s; listening := listening s |}.

Definition set_heap (v : list Message) (s : ChatSystem) : ChatSystem :=
  {| config := config s; ws := ws s; connected := connected s;
     reconnectCount := reconnectCount s; userId := userId s; userName :=
     userName s; currentRoom := currentRoom s; rooms := rooms s; messages :=
     messages s; typingUsers := typingUsers s; unreadCounts := unreadCounts
     s; messageQueue := messageQueue s; heap := v; wire := wire s;
     notifications := notifications s; console := console s; timers := timers
     s; promise := promise s; initializing := initializing s; listening :=
     listening s |}.

Definition set_wire (v : list Frame) (s : ChatSystem) : ChatSystem :=
  {| config := config s; ws := ws s; connected := connected s;
     reconnectCount := reconnectCount s; userId := userId s; userName :=
     userName s; currentRoom := currentRoom s; rooms := rooms s; messages :=
     messages s; typingUsers := typingUsers s; unreadCounts := unreadCounts
     s; messageQueue := messageQueue s; heap := heap s; wire := v;
     notifications := notifications s; console := console s; timers := timers
     s; promise := promise s; initializing := initializing s; listening :=
     listening s |}.

Definition set_notifications (v : list Notification) (s : ChatSystem) : ChatSystem :=
  {| config := config s; ws := ws s; connected := connected s;
     reconnectCount := reconnectCount s; userId := userId s; userName :=
     userName s; currentRoom := currentRoom s; rooms := rooms s; messages :=
     messages s; typingUsers := typingUsers s; unreadCounts := unreadCounts
     s; messageQueue := messageQueue s; heap := heap s; wire := wire s;
     notifications := v; console := console s; timers := timers s; promise :=
     promise s; initializing := initializing s; listening := listening s |}.

Definition set_console (v : list string) (s : ChatSystem) : ChatSystem :=
  {| config := config s; ws := ws s; connected := connected s;
     reconnectCount := reconnectCount s; userId := userId s; userName :=
     userName s; currentRoom := currentRoom s; rooms := rooms s; messages :=
     messages s; typingUsers := typingUsers s; unreadCounts := unreadCounts
     s; messageQueue := messageQueue s; heap := heap s; wire := wire s;
     notifications := notifications s; console := v; timers := timers s;
     promise := promise s; initializing := initializing s; listening :=
     listening s |}.

Definition set_timers (v : list Number) (s : ChatSystem) : ChatSystem :=
  {| config := config s; ws := ws s; connected := connected s;
     reconnectCount := reconnectCount s; userId := userId s; userName :=
     userName s; currentRoom := currentRoom s; rooms := rooms s; messages :=
     messages s; typingUsers := typingUsers s; unreadCounts := unreadCounts
     s; messageQueue := messageQueue s; heap := heap s; wire := wire s;
     notifications := notifications s; console := console s; timers := v;
     promise := promise s; initializing := initializing s; listening :=
     listening s |}.

Definition set_promise (v : Promise) (s : ChatSystem) : ChatSystem :=
  {| config := config s; ws := ws s; connected := connected s;
     reconnectCount := reconnectCount s; userId := userId s; userName :=
     userName s; currentRoom := currentRoom s; rooms := rooms s; messages :=
     messages s; typingUsers := typingUsers s; unreadCounts := unreadCounts
     s; messageQueue := messageQueue s; heap := heap s; wire := wire s;
     notifications := notifications s; console := console s; timers := timers
     s; promise := v; initializing := initializing s; listening := listening
     s |}.

Definition set_initializing (v : bool) (s : ChatSystem) : ChatSystem :=
  {| config := config s; ws := ws s; connected := connected s;
     reconnectCount := reconnectCount s; userId := userId s; userName :=
     userName s; currentRoom := currentRoom s; rooms := rooms s; messages :=
     messages s; typingUsers := typingUsers s; unreadCounts := unreadCounts
     s; messageQueue := messageQueue s; heap := heap s; wire := wire s;
     notifications := notifications s; console := console s; timers := timers
     s; promise := promise s; initializing := v; listening := listening s |}.

Definition set_listening (v : bool) (s : ChatSystem) : ChatSystem :=
  {| config := config s; ws := ws s; connected := connected s;
     reconnectCount := reconnectCount s; userId := userId s; userName :=
     userName s; currentRoom := currentRoom s; rooms := rooms s; messages :=
     messages s; typingUsers := typingUsers s; unreadCounts := unreadCounts
     s; messageQueue := messageQueue s; heap := heap s; wire := wire s;
     notifications := notifications s; console := console s; timers := timers
     s; promise := promise s; initializing := initializing s; listening := v
     |}.

(* how a method ends, with the state it leaves *)
Inductive Outcome :=
| Returned (s : ChatSystem)
| Thrown (s : ChatSystem).

(** *** Collaborators: notification widget, console, socket *)

Definition notify (n : Notification) (s : ChatSystem) : ChatSystem :=
  set_notifications (notifications s ++ [n]) s.

Definition console_error (line : string) (s : ChatSystem) : ChatSystem :=
  set_console (console s ++ [line]) s.

(* send(data): transmits when this.connected and this.ws are both truthy,
   and does nothing otherwise *)
Definition send (data : Frame) (s : ChatSystem) : ChatSystem :=
  match connected s, ws s with
  | true, Some _ => set_wire (wire s ++ [data]) s
  | _, _ => s
  end.

(** *** Message objects *)

Definition deref (s : ChatSystem) (r : nat) : Message := heap s !!! r.

(* a fresh object: the literal in sendMessage, or the one JSON.parse built *)
Definition alloc (m : Message) (s : ChatSystem) : nat * ChatSystem :=
  (length (heap s), set_heap (heap s ++ [m]) s).

(* a || b and !a on room ids: null, undefined and '' are falsy *)
Definition truthy (r : option string) : option string :=
  match r with
  | Some x => if decide (x = "") then None else Some x
  | None => None
  end.

Definition js_or (a b : option string) : option string :=
  match truthy a with Some x => Some x | None => b end.

(** *** Room history *)

(* Array.prototype.splice(0, n): drops the first n elements in place *)
Definition splice0 {A} (n : Z) (l : list A) : list A := drop (Z.to_nat n) l.

Definition addMessageToRoom (roomId : string) (r : nat) (s : ChatSystem)
  : ChatSystem :=
  let s := if JsMap.has roomId (messages s) then s
           else set_messages (JsMap.set roomId [] (messages s)) s in
  let roomMessages := default [] (JsMap.get roomId (messages s)) ++ [r] in
  let roomMessages :=
    if (messageLimit (config s) <? Z.of_nat (length roomMessages))%Z
    then splice0 (Z.of_nat (length roomMessages) - messageLimit (config s))
                 roomMessages
    else roomMessages in
  set_messages (JsMap.set roomId roomMessages (messages s)) s.

(* messages.find(m => m.id === messageId) *)
Definition find_in_room (h : list Message) (messageId : string)
    (room : list nat) : option nat :=
  List.find (fun r => bool_decide (m_id (h !!! r) = messageId)) room.

(* for (const [roomId, messages] of this.messages) ... *)
Fixpoint findMessage_from (h : list Message) (messageId : string)
    (ms : list (string * list nat)) : option nat :=
  match ms with
  | [] => None
  | (_, room) :: ms' =>
      match find_in_room h messageId room with
      | Some r => Some r
      | None => findMessage_from h messageId ms'
      end
  end.

Definition findMessage (messageId : string) (s : ChatSystem) : option nat :=
  findMessage_from (heap s) messageId (messages s).

Definition updateMessageStatus (messageId status : string) (s : ChatSystem)
  : ChatSystem :=
  match findMessage messageId s with
  | Some r => set_heap (alter (with_status status) r (heap s)) s
  | None => s
  end.

Definition markMessageAsRead (messageId : string) (s : ChatSystem)
  : ChatSystem :=
  send (FRead messageId (currentRoom s)) s.

Definition markRoomAsRead (roomId : string) (s : ChatSystem) : ChatSystem :=
  set_unreadCounts (<[roomId := 0%Z]> (unreadCounts s)) s.

Definition incrementUnreadCount (roomId : string) (s : ChatSystem)
  : ChatSystem :=
  let current := default 0%Z (unreadCounts s !! roomId) in
  set_unreadCounts (<[roomId := (current + 1)%Z]> (unreadCounts s)) s.

Definition getRoomName (roomId : string) (s : ChatSystem) : string :=
  match JsMap.get roomId (rooms s) with
  | Some room => r_name room
  | None => roomId
  end.

(** *** Outbound path *)

(* [id] and [now] are what generateMessageId() and Date.now() return *)
Definition sendMessage (text : string) (roomId : option string)
    (id : string) (now : Z) (s : ChatSystem) : ChatSystem :=
  match truthy (js_or roomId (currentRoom s)) with
  | None => notify SelectRoomFirst s
  | Some targetRoom =>
      let message :=
        {| m_id := id; m_roomId := targetRoom; m_userId := userId s;
           m_userName := userName s; m_text := text; m_timestamp := now;
           m_status := "sending" |} in
      let '(r, s) := alloc message s in
      let s := addMessageToRoom targetRoom r s in
      if connected s then send (FMessage (deref s r)) s
      else notify MessageQueuedOffline
             (set_messageQueue (messageQueue s ++ [r]) s)
  end.

(* the while loop of processMessageQueue: shift, then send *)
Fixpoint drain (q : list nat) (s : ChatSystem) : ChatSystem :=
  match q with
  | [] => s
  | r :: q' => drain q' (send (FMessage (deref s r)) (set_messageQueue q' s))
  end.

Definition processMessageQueue (s : ChatSystem) : ChatSystem :=
  if negb (connected s) then s
  else match messageQueue s with
       | [] => s
       | q => notify QueuedMessagesSent (drain q s)
       end.

(** *** Connection life cycle *)

(* resolve() / reject(): a settled promise stays as it is *)
Definition settle (p : Promise) (s : ChatSystem) : ChatSystem :=
  match promise s with
  | Pending => set_promise p s
  | _ => s
  end.

(* connect(): creates the socket (the configured URL is one the
   WebSocket constructor accepts) and returns a new, pending promise,
   which nobody awaits yet; the four handlers below are the ones it
   installs *)
Definition connect (s : ChatSystem) : ChatSystem :=
  set_initializing false (set_promise Pending (set_ws (Some CONNECTING) s)).

Definition ws_onopen (s : ChatSystem) : ChatSystem :=
  let s := set_connected true s in
  let s := set_reconnectCount 0 s in
  let s := send (FAuth (userId s) (userName s)) s in
  let s := processMessageQueue s in
  let s := notify ConnectedToServer s in
  settle Resolved s.

Definition ws_onerror (s : ChatSystem) : ChatSystem :=
  settle Rejected (console_error "WebSocket error:" s).

Definition handleDisconnection (s : ChatSystem) : ChatSystem :=
  let s := notify DisconnectedFromServer s in
  if (reconnectCount s <? reconnectAttempts (config s))%Z then
    let s := set_reconnectCount (reconnectCount s + 1) s in
    let delay := js_mul (reconnectDelay (config s)) (reconnectCount s) in
    let s := notify (ReconnectingIn delay) s in
    set_timers (timers s ++ [delay]) s
  else notify ReconnectFailed s.

Definition ws_onclose (s : ChatSystem) : ChatSystem :=
  handleDisconnection (set_connected false s).

(* the callback given to setTimeout: connect(), its rejection swallowed *)
Definition timer_fires (i : nat) (s : ChatSystem) : ChatSystem :=
  match timers s !! i with
  | Some _ => connect (set_timers (delete i (timers s)) s)
  | None => s
  end.

(** *** initialize *)

(* localStorage.getItem(key), and what JSON.parse makes of it *)
Inductive Stored (A : Type) :=
| NoItem              (* null or the empty text: the code skips it *)
| Garbled             (* a text the code cannot use: JSON.parse or
                         rooms.forEach throws *)
| Item (a : A).

Arguments NoItem {A}.
Arguments Garbled {A}.
Arguments Item {A} a.

(* the part of localStorage that loadSavedData reads: 'chat_rooms' and,
   by room id, 'chat_messages_<id>' *)
Record Saved := {
  saved_rooms : Stored (list Room);
  saved_messages : string → Stored (list Message)
}.

(* rooms.forEach(room => this.rooms.set(room.id, room)) *)
Definition load_rooms (rs : list Room) (s : ChatSystem) : ChatSystem :=
  foldl (λ s room, set_rooms (JsMap.set (r_id room) room (rooms s)) s) s rs.

(* the callback of this.rooms.forEach in loadSavedData: the parsed
   messages are new objects, and their array becomes the history *)
Definition load_history (saved : Saved) (s : ChatSystem) (room : Room)
  : Outcome :=
  match saved_messages saved (r_id room) with
  | NoItem => Returned s
  | Garbled => Thrown s
  | Item ms =>
      Returned
        (set_messages
           (JsMap.set (r_id room) (seq (length (heap s)) (length ms))
              (messages s))
           (set_heap (heap s ++ ms) s))
  end.

Fixpoint load_histories (saved : Saved) (entries : list (string * Room))
    (s : ChatSystem) : Outcome :=
  match entries with
  | [] => Returned s
  | entry :: rest =>
      match load_history saved s entry.2 with
      | Returned s' => load_histories saved rest s'
      | Thrown s' => Thrown s'
      end
  end.

(* the catch block of loadSavedData only calls console.warn *)
Definition warned (o : Outcome) : ChatSystem :=
  match o with
  | Returned s => s
  | Thrown s => s
  end.

Definition loadSavedData (saved : Saved) (s : ChatSystem) : ChatSystem :=
  match saved_rooms saved with
  | Garbled => warned (Thrown s)
  | NoItem => warned (load_histories saved (rooms s) s)
  | Item rs =>
      let s := load_rooms rs s in
      warned (load_histories saved (rooms s) s)
  end.

(* initialize(userId, userName) up to the point where it is suspended on
   the promise of connect(); [gen] is what generateUserId() returns and
   [saved] what localStorage holds *)
Definition initialize (uid uname : option string) (gen : string)
    (saved : Saved) (s : ChatSystem) : ChatSystem :=
  let s := set_userId (str (default gen (truthy uid))) s in
  let s := set_userName (str (default "Anonymous" (truthy uname))) s in
  let s := loadSavedData saved s in
  set_initializing true (connect s).

(* the rest of initialize, run as soon as the promise it awaits has
   settled: after resolve() the window listeners are installed, the
   widget is built from the class's own template and the user is told;
   after reject() the catch block logs and tells the user *)
Definition initialize_resumed (s : ChatSystem) : ChatSystem :=
  if initializing s then
    match promise s with
    | Resolved =>
        notify ChatInitialized
          (set_listening true (set_initializing false s))
    | Rejected =>
        notify InitializeFailed
          (console_error "Chat system initialization failed:"
             (set_initializing false s))
    | _ => s
    end
  else s.

(* window 'online' listener *)
Definition window_online (s : ChatSystem) : ChatSystem :=
  processMessageQueue (notify BackOnline s).

(** *** Inbound path *)

Definition handleIncomingMessage (message : option Message) (s : ChatSystem)
  : Outcome :=
  match message with
  | None => Thrown s   (* message.userId on undefined *)
  | Some m =>
      if decide (m_userId m = userId s) then
        Returned (updateMessageStatus (m_id m) "delivered" s)
      else
        let '(r, s) := alloc m s in
        let s := addMessageToRoom (m_roomId m) r s in
        if decide (currentRoom s = Some (m_roomId m)) then
          Returned (markMessageAsRead (m_id m) s)
        else
          let s := incrementUnreadCount (m_roomId m) s in
          Returned (notify (NewMessageFrom (m_userName m)
                              (getRoomName (m_roomId m) s)) s)
  end.

Definition handleIncomingFile (fileMessage : option Message)
    (s : ChatSystem) : Outcome :=
  handleIncomingMessage fileMessage s.

(* roomId === this.currentRoom, where this.currentRoom is null or a
   string: null equals null only, and undefined equals neither *)
Definition same_room (r : Value) (cur : option string) : bool :=
  match r, cur with
  | str a, Some b => bool_decide (a = b)
  | null, None => true
  | _, _ => false
  end.

Definition handleTypingIndicator (d : Inbound) (s : ChatSystem) : ChatSystem :=
  if same_room (d_roomId d) (currentRoom s) then
    if d_isTyping d
    then set_typingUsers (<[d_userId d := d_userName d]> (typingUsers s)) s
    else set_typingUsers (delete (d_userId d) (typingUsers s)) s
  else s.

(* the switch of handleMessage.  handleRoomUpdate, handleUserJoined,
   handleUserLeft and handleMessageRead are called but the class defines
   none of them, so those four cases raise a TypeError *)
Definition dispatch (d : Inbound) (s : ChatSystem) : Outcome :=
  if String.eqb (d_type d) "message" then handleIncomingMessage (d_message d) s
  else if String.eqb (d_type d) "file" then handleIncomingFile (d_message d) s
  else if String.eqb (d_type d) "typing" then Returned (handleTypingIndicator d s)
  else if String.eqb (d_type d) "room_update" then Thrown s
  else if String.eqb (d_type d) "user_joined" then Thrown s
  else if String.eqb (d_type d) "user_left" then Thrown s
  else if String.eqb (d_type d) "message_read" then Thrown s
  else if String.eqb (d_type d) "error" then Returned (notify (ServerError (d_error d)) s)
  else if String.eqb (d_type d) "ping" then Returned (send FPong s)
  else Returned s.

(* the catch block of handleMessage *)
Definition caught (o : Outcome) : ChatSystem :=
  match o with
  | Returned s => s
  | Thrown s => console_error "Failed to parse message:" s
  end.

(* try { JSON.parse; switch } catch { console.error } *)
Definition handleMessage (e : EventData) (s : ChatSystem) : ChatSystem :=
  match e with
  | Unparseable _ => caught (Thrown s)
  | Decoded d => caught (dispatch d s)
  end.

(* the case labels of the switch *)
Definition known_types : list string :=
  ["message"; "file"; "typing"; "room_update"; "user_joined"; "user_left";
   "message_read"; "error"; "ping"].

(** *** Leaving *)

Definition leaveRoom (roomId : option string) (s : ChatSystem) : ChatSystem :=
  match truthy roomId with
  | None => s
  | Some rid =>
      let s := send (FLeave rid) s in
      let s := if decide (currentRoom s = Some rid)
               then set_currentRoom None s else s in
      match JsMap.get rid (rooms s) with
      | Some room =>
          if String.eqb (r_type room) "temporary"
          then set_messages (JsMap.delete rid (messages s))
                 (set_rooms (JsMap.delete rid (rooms s)) s)
          else s
      | None => s
      end
  end.

(* the callback of this.rooms.forEach in leaveAllRooms *)
Definition leave_if_member (s : ChatSystem) (entry : string * Room)
  : ChatSystem :=
  if bool_decide (userId s ∈ str <$> r_participants entry.2)
  then send (FLeave entry.1) s else s.

Definition leaveAllRooms (s : ChatSystem) : ChatSystem :=
  let s := foldl leave_if_member s (rooms s) in
  let s := set_currentRoom None s in
  let s := set_rooms [] s in
  set_messages [] s.

(** *** Events *)

Inductive Event :=
| EvOpen
| EvError
| EvClose
| EvMessage (e : EventData)
| EvTimer (i : nat)
| EvSendMessage (text : string) (roomId : option string) (id : string) (now : Z)
| EvOnline
| EvBeforeUnload.

(* socket events come from a live socket, a timer fires only while it is
   pending, the window events are heard once the listeners are installed;
   sendMessage can be called at any time *)
Definition enabled (e : Event) (s : ChatSystem) : bool :=
  match e with
  | EvOpen => bool_decide (ws s = Some CONNECTING)
  | EvError | EvClose =>
      bool_decide (ws s = Some CONNECTING) || bool_decide (ws s = Some OPEN)
  | EvMessage _ => bool_decide (ws s = Some OPEN)
  | EvTimer i => bool_decide (i < length (timers s))%nat
  | EvSendMessage _ _ _ _ => true
  | EvOnline | EvBeforeUnload => listening s
  end.

(* the browser moves the socket's readyState, then runs the handler; a
   handler that settles the promise initialize awaits is followed, before
   any other event, by the rest of initialize *)
Definition step (e : Event) (s : ChatSystem) : ChatSystem :=
  match e with
  | EvOpen => initialize_resumed (ws_onopen (set_ws (Some OPEN) s))
  | EvError => initialize_resumed (ws_onerror s)
  | EvClose => ws_onclose (set_ws (Some CLOSED) s)
  | EvMessage d => handleMessage d s
  | EvTimer i => timer_fires i s
  | EvSendMessage text roomId id now => sendMessage text roomId id now s
  | EvOnline => window_online s
  | EvBeforeUnload => leaveAllRooms s
  end.

Fixpoint run (es : list Event) (s : ChatSystem) : option ChatSystem :=
  match es with
  | [] => Some s
  | e :: es' => if enabled e s then run es' (step e s) else None
  end.

(** *** The connection states of the specification, read off the fields

    The class keeps no state variable.  It is Connected while
    this.connected is set; otherwise a socket that is still opening makes
    it Connecting (first attempt) or Reconnecting (a retry), and so does a
    pending retry timer; with neither, it is Failed once the attempt
    counter has reached the maximum and Disconnected before. *)

Inductive ConnState :=
| Disconnected | Connecting | Connected | Reconnecting | Failed.

Definition connState (s : ChatSystem) : ConnState :=
  if connected s then Connected
  else match ws s with
       | Some CONNECTING =>
           if (reconnectCount s =? 0)%Z then Connecting else Reconnecting
       | _ =>
           match timers s with
           | _ :: _ => Reconnecting
           | [] =>
               if (reconnectCount s <? reconnectAttempts (config s))%Z
               then Disconnected else Failed
           end
       end.

(* the delay handleDisconnection computes for the n-th attempt *)
Definition backoff (c : Config) (n : Z) : Number :=
  js_mul (reconnectDelay c) n.

(** *** A burst of sendMessage calls *)

Record Call := {
  c_text : string;
  c_roomId : option string;
  c_id : string;     (* what generateMessageId() returns for this call *)
  c_now : Z          (* what Date.now() returns for this call *)
}.

Definition call (s : ChatSystem) (c : Call) : ChatSystem :=
  sendMessage (c_text c) (c_roomId c) (c_id c) (c_now c) s.

Definition sendMessages (cs : list Call) (s : ChatSystem) : ChatSystem :=
  foldl call s cs.

Definition call_event (c : Call) : Event :=
  EvSendMessage (c_text c) (c_roomId c) (c_id c) (c_now c).

(* the message a call issues: none when there is no room to send it to *)
Definition issued (s : ChatSystem) (c : Call) : option Message :=
  match truthy (js_or (c_roomId c) (currentRoom s)) with
  | None => None
  | Some room =>
      Some {| m_id := c_id c; m_roomId := room; m_userId := userId s;
              m_userName := userName s; m_text := c_text c;
              m_timestamp := c_now c; m_status := "sending" |}
  end.

(* every queued reference denotes an allocated message *)
Definition queue_allocated (s : ChatSystem) : Prop :=
  Forall (λ r, r < length (heap s))%nat (messageQueue s).

(* events that do not come from the socket or from a timer *)
Definition user_event (e : Event) : bool :=
  match e with
  | EvSendMessage _ _ _ _ | EvOnline | EvBeforeUnload => true
  | _ => false
  end.

(** *** A session used in the examples *)

Definition no_options : Options :=
  {| opt_websocketUrl := None; opt_reconnectAttempts := None;
     opt_reconnectDelay := None; opt_messageLimit := None |}.

(* an empty localStorage *)
Definition nothing_saved : Saved :=
  {| saved_rooms := NoItem; saved_messages := λ _, NoItem |}.

(* user u1 has called initialize and selected room r1; the socket has not
   opened yet *)
Definition demo_session : ChatSystem :=
  set_currentRoom (Some "r1")
    (initialize (Some "u1") (Some "Abebe") "user_0" nothing_saved
       (new_ChatSystem no_options)).

Definition demo_calls : list Call :=
  [ {| c_text := "selam"; c_roomId := None; c_id := "msg_1"; c_now := 10 |};
    {| c_text := "dehna"; c_roomId := Some "r2"; c_id := "msg_2"; c_now := 11 |} ].

(* the socket is closed and no retry is pending *)
Definition parked (s : ChatSystem) : Prop :=
  connected s = false ∧ ws s = Some CLOSED ∧ timers s = [].

(* events taken without checking that they are enabled *)
Definition play (es : list Event) (s : ChatSystem) : ChatSystem :=
  foldl (λ s e, step e s) s es.

(* at most two reconnect attempts; the socket opens, is closed, and both
   retries end in an error; the closure that follows the second error has
   not been delivered yet *)
Definition two_attempts : Options :=
  {| opt_websocketUrl := None; opt_reconnectAttempts := Some 2%Z;
     opt_reconnectDelay := None; opt_messageLimit := None |}.

Definition demo_outage : list Event :=
  [EvOpen; EvClose; EvTimer 0; EvError; EvClose; EvTimer 0; EvError].

Definition demo_exhausted : ChatSystem :=
  play demo_outage
    (initialize (Some "u1") (Some "Abebe") "user_0" nothing_saved
       (new_ChatSystem two_attempts)).

(* frames of the examples *)
Definition demo_unknown : Inbound :=
  {| d_type := "presence"; d_message := None; d_error := "";
     d_roomId := undefined; d_userId := "u2"; d_userName := "Sara";
     d_isTyping := false |}.

Definition demo_ping : Inbound :=
  {| d_type := "ping"; d_message := None; d_error := "";
     d_roomId := undefined; d_userId := ""; d_userName := "";
     d_isTyping := false |}.

(* the demo session once its socket has opened *)
Definition demo_online : ChatSystem := step EvOpen demo_session.


(* u1 has sent msg_1 to room r1 while connected, and u2's msg_0 is stored
   in room r0 *)
Definition demo_sent : ChatSystem :=
  sendMessage "selam" None "msg_1" 10
    (caught (handleIncomingMessage
               (Some {| m_id := "msg_0"; m_roomId := "r0"; m_userId := "u2";
                        m_userName := "Sara"; m_text := "hi";
                        m_timestamp := 5; m_status := "sent" |})
               demo_online)).

(* the server's echo of msg_1 *)
Definition demo_echo : Message :=
  {| m_id := "msg_1"; m_roomId := "r1"; m_userId := "u1";
     m_userName := "Abebe"; m_text := "selam"; m_timestamp := 10;
     m_status := "sent" |}.

(** *** Sessions as they arise: a fresh object, initialize, then events *)

Definition start (o : Options) (uid uname : option string) (gen : string)
    (saved : Saved) : ChatSystem :=
  initialize uid uname gen saved (new_ChatSystem o).

Definition reachable (s : ChatSystem) : Prop :=
  ∃ o uid uname gen saved es,
    run es (start o uid uname gen saved) = Some s.

(* a connection attempt that ends in an error, the closure that follows
   it, and the retry timer firing *)
Definition failed_attempt : list Event := [EvError; EvClose; EvTimer 0].

(* what the user is shown when the closure before attempt number n is
   handled *)
Definition retry_notice (c : Config) (n : Z) : list Notification :=
  [DisconnectedFromServer; ReconnectingIn (backoff c n)].

(* the retry bookkeeping of a session: the socket is open while the
   connection is marked connected, at most one retry timer is pending and
   only beside a closed socket, and the attempt counter stays between 0
   and the configured maximum *)
Definition retry_consistent (s : ChatSystem) : Prop :=
  (connected s = true → ws s = Some OPEN) ∧
  (timers s = [] ∨ ∃ d, timers s = [d] ∧ ws s = Some CLOSED) ∧
  (0 ≤ reconnectCount s ≤ Z.max 0 (reconnectAttempts (config s)))%Z.

(* two versions of one message object: everything but the status agrees *)
Definition same_content (m m' : Message) : Prop :=
  m_id m' = m_id m ∧ m_roomId m' = m_roomId m ∧ m_userId m' = m_userId m ∧
  m_userName m' = m_userName m ∧ m_text m' = m_text m ∧
  m_timestamp m' = m_timestamp m.

(* the store after some events: every object is still there, with the
   same content *)
Definition store_extends (h h' : list Message) : Prop :=
  ∀ r m, h !! r = Some m → ∃ m', h' !! r = Some m' ∧ same_content m m'.

(* a message of user u2 for room r0, which is not the current room of the
   demo session *)
Definition demo_foreign : Message :=
  {| m_id := "msg_9"; m_roomId := "r0"; m_userId := "u2";
     m_userName := "Sara"; m_text := "tena yistilign"; m_timestamp := 20;
     m_status := "sent" |}.

(* every reference in a room history denotes an allocated message object *)
Definition histories_allocated (s : ChatSystem) : Prop :=
  ∀ roomId room r, (roomId, room) ∈ messages s → r ∈ room →
    (r < length (heap s))%nat.

(* u1 participates in r1 and r3 but not in r2; r3 is a temporary room *)
Definition demo_rooms : list (string * Room) :=
  [("r1", {| r_id := "r1"; r_name := "General"; r_type := "group";
             r_participants := ["u1"; "u2"] |});
   ("r2", {| r_id := "r2"; r_name := "Staff"; r_type := "private";
             r_participants := ["u2"; "u3"] |});
   ("r3", {| r_id := "r3"; r_name := "Interview"; r_type := "temporary";
             r_participants := ["u3"; "u1"] |})].

Definition demo_member : ChatSystem :=
  set_messages [("r1", []); ("r3", [])] (set_rooms demo_rooms demo_online).

(* the ids of the rooms whose participants include the local user, in
   the order of the map *)
Definition joined_rooms (s : ChatSystem) : list string :=
  fst <$> filter (λ entry, userId s ∈ str <$> r_participants entry.2)
            (rooms s).

End Chat.

(** ** MediaRoom *)

Module Media.

Inductive Kind := audio | video.

#[export] Instance Kind_eq_dec : EqDecision Kind.
Proof. solve_decision. Defined.

(* a MediaStreamTrack: its identity and its read-only kind; whether it
   has been stopped is kept in [ended] below, so that every holder of the
   track sees it *)
Record Track := { t_id : nat; t_kind : Kind }.

#[export] Instance Track_eq_dec : EqDecision Track.
Proof. solve_decision. Defined.

Inductive ReadyState := CONNECTING | OPEN | CLOSED.

#[export] Instance ReadyState_eq_dec : EqDecision ReadyState.
Proof. solve_decision. Defined.

(* an RTCPeerConnection, as far as the code drives it *)
Record PeerConnection := {
  senders : list (option Track);   (* getSenders(): the track of each sender *)
  remoteDescription : option string;
  localDescription : option string;
  iceCandidates : list string;     (* passed to addIceCandidate, oldest first *)
  closed : bool;
  peer : option string             (* the userId its handlers close over *)
}.

(* a decoded signalling frame *)
Record Signal := {
  g_type : string;
  g_userId : option string;
  g_from : option string;
  g_offer : string;
  g_answer : string;
  g_candidate : string;
  g_name : string;
  g_error : string
}.

(* what the code hands to this.signaling.send *)
Inductive Frame :=
| FAnswer (room to : option string) (answer : string)
| FCandidate (room to : option string) (candidate : string)
| FLeave (room : option string).

Inductive Notification :=
| ScreenSharingStarted            (* success *)
| ScreenSharingStopped            (* success *)
| ScreenShareFailed               (* error *)
| LeftTheRoom                     (* success *)
| ParticipantJoined (name : string) (* info *)
| ParticipantLeft (name : string)   (* info *)
| ServerError (text : string).      (* error *)

Record MediaRoom := {
  peerConnections : list (option string * nat); (* Map userId -> connection *)
  pcs : list PeerConnection;       (* the connection objects, by creation order *)
  localStream : option (list Track);
  screenStream : option (list Track);
  ended : gset nat;                (* ids of the tracks stop() was called on *)
  isCallActive : bool;
  isScreenSharing : bool;
  roomId : option string;
  participants : list (option string * string); (* Map userId -> name *)
  signaling : option ReadyState;   (* this.signaling, with its readyState *)
  wire : list Frame;               (* frames transmitted, oldest first *)
  notifications : list Notification;
  console : list string
}.

Definition new_MediaRoom : MediaRoom :=
  {| peerConnections := []; pcs := []; localStream := None;
     screenStream := None; ended := ∅; isCallActive := false;
     isScreenSharing := false; roomId := None; participants := [];
     signaling := None; wire := []; notifications := []; console := [] |}.

(* field assignments: this.f = v *)
Definition set_peerConnections (v : list (option string * nat)) (s : MediaRoom) : MediaRoom :=
  {| peerConnections := v; pcs := pcs s; localStream := localStream s;
     screenStream := screenStream s; ended := ended s;
     isCallActive := isCallActive s; isScreenSharing := isScreenSharing s;
     roomId := roomId s; participants := participants s;
     signaling := signaling s; wire := wire s;
     notifications := notifications s; console := console s |}.

Definition set_pcs (v : list PeerConnection) (s : MediaRoom) : MediaRoom :=
  {| peerConnections := peerConnections s; pcs := v;
     localStream := localStream s; screenStream := screenStream s;
     ended := ended s; isCallActive := isCallActive s;
     isScreenSharing := isScreenSharing s; roomId := roomId s;
     participants := participants s; signaling := signaling s;
     wire := wire s; notifications := notifications s;
     console := console s |}.

Definition set_localStream (v : option (list Track)) (s : MediaRoom) : MediaRoom :=
  {| peerConnections := peerConnections s; pcs := pcs s; localStream := v;
     screenStream := screenStream s; ended := ended s;
     isCallActive := isCallActive s; isScreenSharing := isScreenSharing s;
     roomId := roomId s; participants := participants s;
     signaling := signaling s; wire := wire s;
     notifications := notifications s; console := console s |}.

Definition set_screenStream (v : option (list Track)) (s : MediaRoom) : MediaRoom :=
  {| peerConnections := peerConnections s; pcs := pcs s;
     localStream := localStream s; screenStream := v; ended := ended s;
     isCallActive := isCallActive s; isScreenSharing := isScreenSharing s;
     roomId := roomId s; participants := participants s;
     signaling := signaling s; wire := wire s;
     notifications := notifications s; console := console s |}.

Definition set_ended (v : gset nat) (s : MediaRoom) : MediaRoom :=
  {| peerConnections := peerConnections s; pcs := pcs s;
     localStream := localStream s; screenStream := screenStream s;
     ended := v; isCallActive := isCallActive s;
     isScreenSharing := isScreenSharing s; roomId := roomId s;
     participants := participants s; signaling := signaling s;
     wire := wire s; notifications := notifications s;
     console := console s |}.

Definition set_isCallActive (v : bool) (s : MediaRoom) : MediaRoom :=
  {| peerConnections := peerConnections s; pcs := pcs s;
     localStream := localStream s; screenStream := screenStream s;
     ended := ended s; isCallActive := v;
     isScreenSharing := isScreenSharing s; roomId := roomId s;
     participants := participants s; signaling := signaling s;
     wire := wire s; notifications := notifications s;
     console := console s |}.

Definition set_isScreenSharing (v : bool) (s : MediaRoom) : MediaRoom :=
  {| peerConnections := peerConnections s; pcs := pcs s;
     localStream := localStream s; screenStream := screenStream s;
     ended := ended s; isCallActive := isCallActive s;
     isScreenSharing := v; roomId := roomId s;
     participants := participants s; signaling := signaling s;
     wire := wire s; notifications := notifications s;
     console := console s |}.

Definition set_roomId (v : option string) (s : MediaRoom) : MediaRoom :=
  {| peerConnections := peerConnections s; pcs := pcs s;
     localStream := localStream s; screenStream := screenStream s;
     ended := ended s; isCallActive := isCallActive s;
     isScreenSharing := isScreenSharing s; roomId := v;
     participants := participants s; signaling := signaling s;
     wire := wire s; notifications := notifications s;
     console := console s |}.

Definition set_participants (v : list (option string * string)) (s : MediaRoom) : MediaRoom :=
  {| peerConnections := peerConnections s; pcs := pcs s;
     localStream := localStream s; screenStream := screenStream s;
     ended := ended s; isCallActive := isCallActive s;
     isScreenSharing := isScreenSharing s; roomId := roomId s;
     participants := v; signaling := signaling s; wire := wire s;
     notifications := notifications s; console := console s |}.

Definition set_signaling (v : option ReadyState) (s : MediaRoom) : MediaRoom :=
  {| peerConnections := peerConnections s; pcs := pcs s;
     localStream := localStream s; screenStream := screenStream s;
     ended := ended s; isCallActive := isCallActive s;
     isScreenSharing := isScreenSharing s; roomId := roomId s;
     participants := participants s; signaling := v; wire := wire s;
     notifications := notifications s; console := console s |}.

Definition set_wire (v : list Frame) (s : MediaRoom) : MediaRoom :=
  {| peerConnections := peerConnections s; pcs := pcs s;
     localStream := localStream s; screenStream := screenStream s;
     ended := ended s; isCallActive := isCallActive s;
     isScreenSharing := isScreenSharing s; roomId := roomId s;
     participants := participants s; signaling := signaling s; wire := v;
     notifications := notifications s; console := console s |}.

Definition set_notifications (v : list Notification) (s : MediaRoom) : MediaRoom :=
  {| peerConnections := peerConnections s; pcs := pcs s;
     localStream := localStream s; screenStream := screenStream s;
     ended := ended s; isCallActive := isCallActive s;
     isScreenSharing := isScreenSharing s; roomId := roomId s;
     participants := participants s; signaling := signaling s;
     wire := wire s; notifications := v; console := console s |}.

Definition set_console (v : list string) (s : MediaRoom) : MediaRoom :=
  {| peerConnections := peerConnections s; pcs := pcs s;
     localStream := localStream s; screenStream := screenStream s;
     ended := ended s; isCallActive := isCallActive s;
     isScreenSharing := isScreenSharing s; roomId := roomId s;
     participants := participants s; signaling := signaling s;
     wire := wire s; notifications := notifications s; console := v |}.

Inductive Outcome :=
| Returned (s : MediaRoom)
| Thrown (s : MediaRoom).

Definition notify (n : Notification) (s : MediaRoom) : MediaRoom :=
  set_notifications (notifications s ++ [n]) s.

Definition console_error (line : string) (s : MediaRoom) : MediaRoom :=
  set_console (console s ++ [line]) s.

(* this.signaling.send(...): a TypeError without a socket, an
   InvalidStateError while the socket is still connecting, a silent
   discard once it is closed *)
Definition signaling_send (f : Frame) (s : MediaRoom) : Outcome :=
  match signaling s with
  | None => Thrown s
  | Some CONNECTING => Thrown s
  | Some OPEN => Returned (set_wire (wire s ++ [f]) s)
  | Some CLOSED => Returned s
  end.

(** *** Streams and tracks *)

Definition getVideoTracks (st : list Track) : list Track :=
  filter (λ t, t_kind t = video) st.

Definition getAudioTracks (st : list Track) : list Track :=
  filter (λ t, t_kind t = audio) st.

(* stream.getTracks().forEach(track => track.stop()) *)
Definition stop_tracks (st : list Track) (s : MediaRoom) : MediaRoom :=
  set_ended (ended s ∪ list_to_set (t_id <$> st)) s.

(** *** Operations on one connection *)

Definition with_senders (v : list (option Track)) (pc : PeerConnection)
  : PeerConnection :=
  {| senders := v; remoteDescription := remoteDescription pc;
     localDescription := localDescription pc;
     iceCandidates := iceCandidates pc; closed := closed pc;
     peer := peer pc |}.

Definition setRemoteDescription (d : string) (pc : PeerConnection)
  : PeerConnection :=
  {| senders := senders pc; remoteDescription := Some d;
     localDescription := localDescription pc;
     iceCandidates := iceCandidates pc; closed := closed pc;
     peer := peer pc |}.

Definition setLocalDescription (d : string) (pc : PeerConnection)
  : PeerConnection :=
  {| senders := senders pc; remoteDescription := remoteDescription pc;
     localDescription := Some d;
     iceCandidates := iceCandidates pc; closed := closed pc;
     peer := peer pc |}.

Definition addIceCandidate (c : string) (pc : PeerConnection)
  : PeerConnection :=
  {| senders := senders pc; remoteDescription := remoteDescription pc;
     localDescription := localDescription pc;
     iceCandidates := iceCandidates pc ++ [c]; closed := closed pc;
     peer := peer pc |}.

Definition close (pc : PeerConnection) : PeerConnection :=
  {| senders := senders pc; remoteDescription := remoteDescription pc;
     localDescription := localDescription pc;
     iceCandidates := iceCandidates pc; closed := true;
     peer := peer pc |}.

(* s.track?.kind === 'video' *)
Definition is_video_sender (snd : option Track) : bool :=
  match snd with
  | Some t => bool_decide (t_kind t = video)
  | None => false
  end.

(* const sender = pc.getSenders().find(...); if (sender) sender.replaceTrack(t) *)
Fixpoint replace_video (t : option Track) (snds : list (option Track))
  : list (option Track) :=
  match snds with
  | [] => []
  | x :: rest =>
      if is_video_sender x then t :: rest else x :: replace_video t rest
  end.

Definition replaceVideoTrack (t : option Track) (pc : PeerConnection)
  : PeerConnection :=
  with_senders (replace_video t (senders pc)) pc.

(* this.peerConnections.forEach(pc => ...), the callback acting on the
   connection object each entry refers to *)
Definition forEach_pc (f : PeerConnection → PeerConnection) (s : MediaRoom)
  : MediaRoom :=
  set_pcs (foldl (λ objs entry, alter f entry.2 objs) (pcs s)
             (peerConnections s)) s.

(** *** Screen sharing *)

(* the outcome of navigator.mediaDevices.getDisplayMedia *)
Inductive DisplayMedia :=
| Granted (stream : list Track)
| Refused (errorName : string).

(* the catch block of startScreenShare *)
Definition screen_share_failed (errorName : string) (s : MediaRoom)
  : Outcome :=
  if String.eqb errorName "NotAllowedError" then Thrown s
  else Thrown (notify ScreenShareFailed
                 (console_error "Screen share failed:" s)).

(* the update of the local preview in between needs the local-video
   element, which startLocalPreview only creates for an existing local
   stream; it writes no field *)
Definition startScreenShare (media : DisplayMedia) (s : MediaRoom)
  : Outcome :=
  match media with
  | Refused name => screen_share_failed name s
  | Granted stream =>
      let s := set_screenStream (Some stream) s in
      let screenTrack := head (getVideoTracks stream) in
      let s := forEach_pc (replaceVideoTrack screenTrack) s in
      let s := set_isScreenSharing true s in
      let s := notify ScreenSharingStarted s in
      match screenTrack with
      | Some _ => Returned s
      | None => screen_share_failed "TypeError" s (* screenTrack.onended = ... *)
      end
  end.

Definition stopScreenShare (s : MediaRoom) : MediaRoom :=
  match screenStream s with
  | None => s
  | Some scr =>
      let s := stop_tracks scr s in
      let s :=
        match localStream s with
        | Some cam =>
            match head (getVideoTracks cam) with
            | Some videoTrack =>
                forEach_pc (replaceVideoTrack (Some videoTrack)) s
            | None => s
            end
        | None => s
        end in
      let s := set_screenStream None s in
      let s := set_isScreenSharing false s in
      notify ScreenSharingStopped s
  end.

(** *** Signalling handlers *)

Definition createPeerConnection (uid : option string) (s : MediaRoom)
  : nat * MediaRoom :=
  let pc :=
    {| senders := match localStream s with
                  | Some tracks => Some <$> tracks
                  | None => []
                  end;
       remoteDescription := None; localDescription := None;
       iceCandidates := []; closed := false; peer := uid |} in
  let r := length (pcs s) in
  (r, set_peerConnections (JsMap.set uid r (peerConnections s))
        (set_pcs (pcs s ++ [pc]) s)).

(* handleOffer up to its first await: the connection is created and
   registered, and the offer is handed to it *)
Definition handleOffer_begin (message : Signal) (s : MediaRoom)
  : nat * MediaRoom :=
  let '(pc, s) := createPeerConnection (g_userId message) s in
  (pc, set_pcs (alter (setRemoteDescription (g_offer message)) pc (pcs s)) s).

(* the rest of handleOffer, resumed with the answer createAnswer()
   produced; [pc] is the connection the activation holds *)
Definition handleOffer_answer (pc : nat) (message : Signal) (answer : string)
    (s : MediaRoom) : Outcome :=
  let s := set_pcs (alter (setLocalDescription answer) pc (pcs s)) s in
  signaling_send (FAnswer (roomId s) (g_from message) answer) s.

Definition handleAnswer (message : Signal) (s : MediaRoom) : MediaRoom :=
  match JsMap.get (g_from message) (peerConnections s) with
  | Some pc =>
      set_pcs (alter (setRemoteDescription (g_answer message)) pc (pcs s)) s
  | None => s
  end.

Definition handleCandidate (message : Signal) (s : MediaRoom) : MediaRoom :=
  match JsMap.get (g_from message) (peerConnections s) with
  | Some pc =>
      set_pcs (alter (addIceCandidate (g_candidate message)) pc (pcs s)) s
  | None => s
  end.

Definition handleParticipantJoin (participant : Signal) (s : MediaRoom)
  : MediaRoom :=
  let s := set_participants
             (JsMap.set (g_userId participant) (g_name participant)
                (participants s)) s in
  let '(_, s) := createPeerConnection (g_userId participant) s in
  notify (ParticipantJoined (g_name participant)) s.

Definition handleParticipantLeave (participant : Signal) (s : MediaRoom)
  : MediaRoom :=
  let s :=
    match JsMap.get (g_userId participant) (peerConnections s) with
    | Some pc =>
        set_peerConnections
          (JsMap.delete (g_userId participant) (peerConnections s))
          (set_pcs (alter close pc (pcs s)) s)
    | None => s
    end in
  let s := set_participants
             (JsMap.delete (g_userId participant) (participants s)) s in
  notify (ParticipantLeft (g_name participant)) s.

(* pc.onicecandidate, for a non-null event.candidate *)
Definition pc_onicecandidate (pc : nat) (candidate : string) (s : MediaRoom)
  : Outcome :=
  match pcs s !! pc with
  | Some c => signaling_send (FCandidate (roomId s) (peer c) candidate) s
  | None => Returned s
  end.

(** *** Teardown *)

Definition leaveRoom (s : MediaRoom) : Outcome :=
  let s := forEach_pc close s in
  let s := set_peerConnections [] s in
  let sent :=
    match signaling s with
    | Some _ => signaling_send (FLeave (roomId s)) s
    | None => Returned s
    end in
  match sent with
  | Thrown s => Thrown s
  | Returned s =>
      let s := match localStream s with
               | Some st => stop_tracks st s
               | None => s
               end in
      let s := match screenStream s with
               | Some st => stop_tracks st s
               | None => s
               end in
      let s := set_isCallActive false s in
      let s := set_roomId None s in
      let s := set_participants [] s in
      Returned (notify LeftTheRoom s)
  end.

(** *** What a session is sending *)

Definition outbound (k : Kind) (pc : PeerConnection) : list Track :=
  filter (λ t, t_kind t = k) (omap id (senders pc)).

(** *** A call used in the examples *)

Definition microphone : Track := {| t_id := 1; t_kind := audio |}.
Definition camera : Track := {| t_id := 2; t_kind := video |}.
Definition screen : Track := {| t_id := 3; t_kind := video |}.

Definition demo_signal (type : string) (who : string) : Signal :=
  {| g_type := type; g_userId := Some who; g_from := Some who;
     g_offer := "offer of " ++ who; g_answer := "answer of " ++ who;
     g_candidate := "candidate of " ++ who; g_name := who; g_error := "" |}.

(* after initialize: microphone and camera acquired, signalling open *)
Definition demo_room : MediaRoom :=
  set_roomId (Some "ROOM0001")
    (set_signaling (Some OPEN)
       (set_localStream (Some [microphone; camera]) new_MediaRoom)).

(* p1 and p2 have joined *)
Definition demo_call : MediaRoom :=
  handleParticipantJoin (demo_signal "join" "p2")
    (handleParticipantJoin (demo_signal "join" "p1") demo_room).

(* the same call while the screen is being shared *)
Definition demo_sharing : MediaRoom :=
  match startScreenShare (Granted [screen]) demo_call with
  | Returned s => s
  | Thrown s => s
  end.

(* an audio-only call: the local stream holds the microphone alone, and
   p1 has joined *)
Definition demo_audio_call : MediaRoom :=
  handleParticipantJoin (demo_signal "join" "p1")
    (set_roomId (Some "ROOM0001")
       (set_signaling (Some OPEN)
          (set_localStream (Some [microphone]) new_MediaRoom))).

(* the connection createPeerConnection builds for [who] in the demo room,
   sending the microphone and the given video track *)
Definition demo_pc (who : string) (v : Track) : PeerConnection :=
  {| senders := [Some microphone; Some v]; remoteDescription := None;
     localDescription := None; iceCandidates := []; closed := false;
     peer := Some who |}.

(* p1 joins and then sends an offer: the connection made for the join is
   replaced in the map by the one made for the offer *)
Definition demo_rejoined : MediaRoom :=
  (handleOffer_begin (demo_signal "offer" "p1")
     (handleParticipantJoin (demo_signal "join" "p1") demo_room)).2.

(* the map of peer connections names each participant once, never names
   one connection object under two participants, and only names objects
   that exist *)
Definition registry_consistent (s : MediaRoom) : Prop :=
  NoDup (peerConnections s).*1 ∧
  NoDup (peerConnections s).*2 ∧
  Forall (λ r, r < length (pcs s))%nat (peerConnections s).*2.

(* the room a method leaves behind, whether it returned or threw *)
Definition after (o : Outcome) : MediaRoom :=
  match o with
  | Returned s => s
  | Thrown s => s
  end.

End Media.

(** ** EthiopianPayment: input checks and masking *)

Module Payment.

(* a JavaScript string: the sequence of its UTF-16 code units *)
Definition JsString := list N.

(* an ASCII literal of the source *)
Definition lit (s : string) : JsString :=
  Ascii.N_of_ascii <$> String.list_ascii_of_string s.

(* \d without the u flag: the code units of 0 to 9 *)
Definition is_digit (c : N) : bool := (48 <=? c)%N && (c <=? 57)%N.

(* the regular expressions of the class: digits, literal text,
   alternatives, sequences and counted repetition *)
Inductive Regex :=
| Digit
| Lit (l : JsString)
| Alt (a b : Regex)
| Seq (a b : Regex)
| Times (n : nat) (a : Regex).

(* the rest of [s] behind the literal [l] *)
Fixpoint strip (l s : JsString) : option JsString :=
  match l, s with
  | [], _ => Some s
  | x :: l, y :: s => if decide (x = y) then strip l s else None
  | _ :: _, [] => None
  end.

(* every way the expression can match at the start of [s], as the rest
   each way leaves, in the order backtracking tries them *)
Fixpoint consume (r : Regex) (s : JsString) : list JsString :=
  match r with
  | Digit =>
      match s with
      | c :: rest => if is_digit c then [rest] else []
      | [] => []
      end
  | Lit l =>
      match strip l s with
      | Some rest => [rest]
      | None => []
      end
  | Alt a b => consume a s ++ consume b s
  | Seq a b => consume a s ≫= consume b
  | Times n a =>
      (fix rep (n : nat) (s : JsString) : list JsString :=
         match n with
         | O => [s]
         | S n => consume a s ≫= rep n
         end) n s
  end.

(* /^r$/.test(s): some way of matching leaves nothing *)
Definition test (r : Regex) (s : JsString) : bool :=
  bool_decide ([] ∈ consume r s).

Inductive Outcome :=
| Returns
| Throws (message : string).

(* the fields are undefined (None) or strings *)
Record BankDetails := {
  accountNumber : option JsString;
  accountName : option JsString;
}.

(* !x for x undefined or a string *)
Definition falsy (x : option JsString) : bool :=
  match x with
  | Some (_ :: _) => false
  | _ => true
  end.

(* /^\d{13}$/ *)
Definition accountRegex : Regex := Times 13 Digit.

Definition validateBankDetails (bankDetails : BankDetails) : Outcome :=
  if falsy (accountNumber bankDetails)
  then Throws "Account number is required"
  else if falsy (accountName bankDetails)
  then Throws "Account name is required"
  else if negb (test accountRegex (default [] (accountNumber bankDetails)))
  then Throws "Invalid account number format"
  else Returns.

(* /^(?:(?:\+251|251|0)(9\d{8}))$/ *)
Definition phoneRegex : Regex :=
  Seq (Alt (Lit (lit "+251")) (Alt (Lit (lit "251")) (Lit (lit "0"))))
      (Seq (Lit (lit "9")) (Times 8 Digit)).

Definition validatePhoneNumber (phoneNumber : JsString) : Outcome :=
  if negb (test phoneRegex phoneNumber)
  then Throws "Invalid Ethiopian phone number format"
  else Returns.

(* String.prototype.slice: a negative index counts from the end, and
   both indices are clamped to the string *)
Definition relative (len i : Z) : Z :=
  if (i <? 0)%Z then Z.max (len + i) 0 else Z.min i len.

Definition slice (start : Z) (stop : option Z) (s : JsString) : JsString :=
  let len := Z.of_nat (length s) in
  let from := relative len start in
  let to := match stop with
            | Some e => relative len e
            | None => len
            end in
  take (Z.to_nat (to - from)) (drop (Z.to_nat from) s).

Definition maskAccountNumber (accountNumber : JsString) : JsString :=
  if (length accountNumber <=? 4)%nat then accountNumber
  else lit "****" ++ slice (-4) None accountNumber.

Definition maskPhoneNumber (phoneNumber : JsString) : JsString :=
  if (length phoneNumber <=? 4)%nat then phoneNumber
  else
    let visibleDigits := 3%Z in
    slice 0 (Some visibleDigits) phoneNumber
      ++ lit "****" ++ slice (-4) None phoneNumber.

(* the three spellings of one subscriber number *)
Definition international (subscriber : JsString) : JsString :=
  lit "+251" ++ subscriber.
Definition international_bare (subscriber : JsString) : JsString :=
  lit "251" ++ subscriber.
Definition national (subscriber : JsString) : JsString :=
  lit "0" ++ subscriber.

Definition digits (s : JsString) : Prop :=
  Forall (λ c, is_digit c = true) s.

(* a subscriber number: 9 and eight more digits *)
Definition subscriber_number (n : JsString) : Prop :=
  ∃ ds, n = lit "9" ++ ds ∧ length ds = 8%nat ∧ digits ds.

Definition demo_subscriber : JsString := lit "911234567".
Definition demo_account : BankDetails :=
  {| accountNumber := Some (lit "1000123456789");
     accountName := Some (lit "Abebe Kebede") |}.

End Payment.

(** * Properties *)

(** ** JavaScript Map *)

Section JsMapFacts.
Context {K V : Type} `{!EqDecision K}.
Implicit Types (k : K) (v : V) (m : list (K * V)).

Lemma jsmap_get_set_eq k v m : JsMap.get k (JsMap.set k v m) = Some v.
Proof.
  induction m as [|[k' v'] m IH]; simpl.
  - by rewrite decide_True.
  - destruct (decide (k = k')) as [->|Hne]; simpl.
    + by rewrite decide_True.
    + by rewrite decide_False.
Qed.

Lemma jsmap_get_set_ne k k' v m :
  k ≠ k' → JsMap.get k' (JsMap.set k v m) = JsMap.get k' m.
Proof.
  intros Hne. induction m as [|[k0 v0] m IH]; simpl.
  - by rewrite decide_False.
  - destruct (decide (k = k0)) as [->|Hk]; simpl.
    + by rewrite !decide_False.
    + destruct (decide (k' = k0)); [done | apply IH].
Qed.

End JsMapFacts.

(** ** Numbers *)

Section NumberFacts.
Import Chat.
Local Open Scope Z_scope.

Lemma round_magnitude_small a : a < 2 ^ 53 → round_magnitude a = a.
Proof.
  intros Ha. unfold round_magnitude.
  by rewrite (proj2 (Z.ltb_lt _ _) Ha).
Qed.

(* above 2^53: the two doubles around a *)
Lemma round_magnitude_large a :
  2 ^ 53 ≤ a →
  ∃ e q r, e = Z.log2 a - 52 ∧ 1 ≤ e ∧ a = q * 2 ^ e + r ∧
    0 ≤ r < 2 ^ e ∧ 2 ^ 52 ≤ q < 2 ^ 53 ∧
    round_magnitude a =
      if (2 * r <? 2 ^ e) || ((2 * r =? 2 ^ e) && Z.even q)
      then q * 2 ^ e else (q + 1) * 2 ^ e.
Proof.
  intros Ha. unfold round_magnitude.
  rewrite (proj2 (Z.ltb_ge _ _) Ha). cbv zeta.
  assert (Hpos : 0 < a) by (pose proof (Z.pow_pos_nonneg 2 53); lia).
  assert (Hl : 53 ≤ Z.log2 a).
  { apply Z.log2_le_pow2; [done|]. exact Ha. }
  destruct (Z.log2_spec a Hpos) as [Hlo Hhi].
  set (e := Z.log2 a - 52) in *.
  assert (He : 1 ≤ e) by (unfold e; lia).
  assert (Hu : 0 < 2 ^ e) by (apply Z.pow_pos_nonneg; lia).
  exists e, (a / 2 ^ e), (a mod 2 ^ e).
  split; [done|]. split; [done|].
  pose proof (Z.div_mod a (2 ^ e) ltac:(lia)) as Hdm.
  pose proof (Z.mod_pos_bound a (2 ^ e) Hu) as Hr.
  split; [lia|]. split; [done|]. split; [|done].
  assert (E1 : 2 ^ Z.log2 a = 2 ^ 52 * 2 ^ e).
  { rewrite <-Z.pow_add_r by lia. f_equal. unfold e. lia. }
  assert (E2 : 2 ^ Z.succ (Z.log2 a) = 2 ^ 53 * 2 ^ e).
  { rewrite <-Z.pow_add_r by lia. f_equal. unfold e. lia. }
  rewrite E1 in Hlo. rewrite E2 in Hhi.
  split.
  - apply Z.div_le_lower_bound; lia.
  - apply Z.div_lt_upper_bound; lia.
Qed.

Lemma round_magnitude_mono a b :
  0 ≤ a ≤ b → round_magnitude a ≤ round_magnitude b.
Proof.
  intros [Ha Hab].
  destruct (decide (b < 2 ^ 53)) as [Hb|Hb].
  { rewrite !round_magnitude_small by lia. done. }
  destruct (round_magnitude_large b ltac:(lia))
    as (eb & qb & rb & Heb & Heb1 & Hb_eq & Hrb & Hqb & ->).
  assert (Hub : 0 < 2 ^ eb) by (apply Z.pow_pos_nonneg; lia).
  assert (H2eb : 2 ≤ 2 ^ eb).
  { change 2 with (2 ^ 1) at 1. apply Z.pow_le_mono_r; lia. }
  remember ((2 * rb <? 2 ^ eb) || (2 * rb =? 2 ^ eb) && Z.even qb)
    as db eqn:Edb.
  assert (Hlow : qb * 2 ^ eb ≤
                 (if db then qb * 2 ^ eb else (qb + 1) * 2 ^ eb)).
  { destruct db; lia. }
  assert (Hqb' : 2 ^ 52 * 2 ^ eb ≤ qb * 2 ^ eb)
    by (apply Z.mul_le_mono_nonneg_r; lia).
  destruct (decide (a < 2 ^ 53)) as [Ha'|Ha'].
  { rewrite round_magnitude_small by done.
    assert (2 ^ 52 * 2 ≤ 2 ^ 52 * 2 ^ eb)
      by (apply Z.mul_le_mono_nonneg_l; lia).
    change (2 ^ 52 * 2) with (2 ^ 53) in *. lia. }
  destruct (round_magnitude_large a ltac:(lia))
    as (ea & qa & ra & Hea & Hea1 & Ha_eq & Hra & Hqa & ->).
  assert (Hua : 0 < 2 ^ ea) by (apply Z.pow_pos_nonneg; lia).
  remember ((2 * ra <? 2 ^ ea) || (2 * ra =? 2 ^ ea) && Z.even qa)
    as da eqn:Eda.
  assert (Hup : (if da then qa * 2 ^ ea else (qa + 1) * 2 ^ ea)
                ≤ (qa + 1) * 2 ^ ea).
  { destruct da; lia. }
  assert (Hle : ea ≤ eb).
  { subst ea eb. pose proof (Z.log2_le_mono a b Hab). lia. }
  destruct (decide (ea = eb)) as [Heq|Hne].
  - subst eb. rewrite <-Heq in *. clear Heq.
    set (u := 2 ^ ea) in *.
    assert (Hq : qa ≤ qb).
    { destruct (decide (qa ≤ qb)); [done|]. exfalso.
      assert ((qb + 1) * u ≤ qa * u)
        by (apply Z.mul_le_mono_nonneg_r; lia).
      lia. }
    destruct (decide (qa = qb)) as [->|Hqne].
    2:{ assert ((qa + 1) * u ≤ qb * u)
          by (apply Z.mul_le_mono_nonneg_r; lia).
        lia. }
    assert (Hr : ra ≤ rb) by lia.
    destruct db; [|destruct da; lia].
    assert (Hda : da = true); [|rewrite Hda; lia].
    rewrite Eda. symmetry in Edb.
    apply orb_true_iff in Edb as [Db|Db].
    + apply Z.ltb_lt in Db. apply orb_true_iff. left. apply Z.ltb_lt. lia.
    + apply andb_true_iff in Db as [Db Hev]. apply Z.eqb_eq in Db.
      apply orb_true_iff.
      destruct (decide (2 * ra < u)); [left; by apply Z.ltb_lt|].
      right. apply andb_true_iff. split; [apply Z.eqb_eq; lia | done].
  - assert (H2 : 2 * 2 ^ ea ≤ 2 ^ eb).
    { replace eb with (1 + (eb - 1)) by lia.
      rewrite Z.pow_add_r by lia. change (2 ^ 1) with 2.
      assert (2 ^ ea ≤ 2 ^ (eb - 1)) by (apply Z.pow_le_mono_r; lia). lia. }
    assert ((qa + 1) * 2 ^ ea ≤ 2 ^ 53 * 2 ^ ea)
      by (apply Z.mul_le_mono_nonneg_r; lia).
    assert (2 ^ 53 * 2 ^ ea ≤ 2 ^ 52 * 2 ^ eb).
    { change (2 ^ 53) with (2 ^ 52 * 2). lia. }
    lia.
Qed.

Lemma round_magnitude_nonneg a : 0 ≤ a → 0 ≤ round_magnitude a.
Proof.
  intros Ha. pose proof (round_magnitude_mono 0 a ltac:(lia)) as H.
  by rewrite (round_magnitude_small 0) in H.
Qed.

Lemma round_double_mono x y : x ≤ y → round_double x ≤ round_double y.
Proof.
  intros Hxy. unfold round_double.
  destruct (Z.ltb_spec x 0), (Z.ltb_spec y 0).
  - pose proof (round_magnitude_mono (- y) (- x) ltac:(lia)). lia.
  - pose proof (round_magnitude_nonneg (- x) ltac:(lia)).
    pose proof (round_magnitude_nonneg y ltac:(lia)). lia.
  - lia.
  - apply round_magnitude_mono. lia.
Qed.

Lemma round_magnitude_exact a : 0 ≤ a ≤ 2 ^ 53 → round_magnitude a = a.
Proof.
  intros [Ha Hb]. destruct (decide (a = 2 ^ 53)) as [->|Hne].
  - vm_compute. reflexivity.
  - apply round_magnitude_small. lia.
Qed.

Lemma round_double_exact z : Z.abs z ≤ 2 ^ 53 → round_double z = z.
Proof.
  intros Hz. unfold round_double. destruct (Z.ltb_spec z 0).
  - rewrite round_magnitude_exact by lia. lia.
  - apply round_magnitude_exact. lia.
Qed.

Lemma js_mul_exact a b :
  Z.abs (a * b) ≤ 2 ^ 53 → js_mul a b = Finite (a * b).
Proof.
  intros H. unfold js_mul. rewrite round_double_exact by done. cbv zeta.
  assert (2 ^ 53 < 2 ^ 1024) by (apply Z.pow_lt_mono_r; lia).
  rewrite (proj2 (Z.leb_gt _ _)) by lia.
  by rewrite (proj2 (Z.leb_gt _ _)) by lia.
Qed.

Lemma js_mul_mono d n m :
  0 ≤ d → n ≤ m → number_le (js_mul d n) (js_mul d m).
Proof.
  intros Hd Hnm.
  assert (Hr : round_double (d * n) ≤ round_double (d * m))
    by (apply round_double_mono; nia).
  unfold js_mul. cbv zeta.
  set (x := round_double (d * n)) in *. set (y := round_double (d * m)) in *.
  assert (0 < 2 ^ 1024) by (apply Z.pow_pos_nonneg; lia).
  set (M := 2 ^ 1024) in *.
  destruct (Z.leb_spec M x), (Z.leb_spec M y); simpl; try done; try lia.
  - destruct (Z.leb_spec x (- M)); simpl; [done|]. done.
  - destruct (Z.leb_spec x (- M)), (Z.leb_spec y (- M)); simpl;
      try done; lia.
Qed.

(* a product that is not a double: 3 * (2^53 - 1) is rounded down by one *)
Example js_mul_rounds :
  js_mul 3 (2 ^ 53 - 1) = Finite (3 * (2 ^ 53 - 1) - 1).
Proof. vm_compute. reflexivity. Qed.

End NumberFacts.

(** ** ChatSystem: the rest of initialize *)

Create Rewrite HintDb resumed.

Section Resumed.
Import Chat.
Implicit Types (s : ChatSystem).

(* the rest of initialize writes the notifications, the console and the
   two flags only *)
Lemma initialize_resumed_fields s :
  let s' := initialize_resumed s in
  config s' = config s ∧ ws s' = ws s ∧ connected s' = connected s ∧
  reconnectCount s' = reconnectCount s ∧ userId s' = userId s ∧
  userName s' = userName s ∧ currentRoom s' = currentRoom s ∧
  rooms s' = rooms s ∧ messages s' = messages s ∧
  typingUsers s' = typingUsers s ∧ unreadCounts s' = unreadCounts s ∧
  messageQueue s' = messageQueue s ∧ heap s' = heap s ∧
  wire s' = wire s ∧ timers s' = timers s ∧ promise s' = promise s.
Proof. unfold initialize_resumed. by repeat case_match. Qed.

Lemma resumed_config s : config (initialize_resumed s) = config s.
Proof. apply initialize_resumed_fields. Qed.

Lemma resumed_ws s : ws (initialize_resumed s) = ws s.
Proof. apply initialize_resumed_fields. Qed.

Lemma resumed_connected s : connected (initialize_resumed s) = connected s.
Proof. apply initialize_resumed_fields. Qed.

Lemma resumed_reconnectCount s : reconnectCount (initialize_resumed s) = reconnectCount s.
Proof. apply initialize_resumed_fields. Qed.

Lemma resumed_userId s : userId (initialize_resumed s) = userId s.
Proof. apply initialize_resumed_fields. Qed.

Lemma resumed_userName s : userName (initialize_resumed s) = userName s.
Proof. apply initialize_resumed_fields. Qed.

Lemma resumed_currentRoom s : currentRoom (initialize_resumed s) = currentRoom s.
Proof. apply initialize_resumed_fields. Qed.

Lemma resumed_rooms s : rooms (initialize_resumed s) = rooms s.
Proof. apply initialize_resumed_fields. Qed.

Lemma resumed_messages s : messages (initialize_resumed s) = messages s.
Proof. apply initialize_resumed_fields. Qed.

Lemma resumed_typingUsers s : typingUsers (initialize_resumed s) = typingUsers s.
Proof. apply initialize_resumed_fields. Qed.

Lemma resumed_unreadCounts s : unreadCounts (initialize_resumed s) = unreadCounts s.
Proof. apply initialize_resumed_fields. Qed.

Lemma resumed_messageQueue s : messageQueue (initialize_resumed s) = messageQueue s.
Proof. apply initialize_resumed_fields. Qed.

Lemma resumed_heap s : heap (initialize_resumed s) = heap s.
Proof. apply initialize_resumed_fields. Qed.

Lemma resumed_wire s : wire (initialize_resumed s) = wire s.
Proof. apply initialize_resumed_fields. Qed.

Lemma resumed_timers s : timers (initialize_resumed s) = timers s.
Proof. apply initialize_resumed_fields. Qed.

Lemma resumed_promise s : promise (initialize_resumed s) = promise s.
Proof. apply initialize_resumed_fields. Qed.

Lemma initialize_resumed_idle s :
  initializing s = false → initialize_resumed s = s.
Proof. unfold initialize_resumed. by intros ->. Qed.

(** *** What initialize leaves behind *)

Lemma load_rooms_fields (rs : list Room) : ∀ s,
  let s' := load_rooms rs s in
  config s' = config s ∧ ws s' = ws s ∧ connected s' = connected s ∧
  reconnectCount s' = reconnectCount s ∧ userId s' = userId s ∧
  userName s' = userName s ∧ currentRoom s' = currentRoom s ∧
  messages s' = messages s ∧ messageQueue s' = messageQueue s ∧
  heap s' = heap s ∧ wire s' = wire s ∧
  notifications s' = notifications s ∧ console s' = console s ∧
  timers s' = timers s ∧ promise s' = promise s ∧
  initializing s' = initializing s ∧ listening s' = listening s.
Proof.
  unfold load_rooms.
  induction rs as [|room rs IH]; intros s; simpl; [done|].
  by destruct (IH (set_rooms (JsMap.set (r_id room) room (rooms s)) s))
    as (->&->&->&->&->&->&->&->&->&->&->&->&->&->&->&->&->).
Qed.

Lemma load_histories_fields (saved : Saved)
    (entries : list (string * Room)) : ∀ s,
  let s' := warned (load_histories saved entries s) in
  config s' = config s ∧ ws s' = ws s ∧ connected s' = connected s ∧
  reconnectCount s' = reconnectCount s ∧ userId s' = userId s ∧
  userName s' = userName s ∧ currentRoom s' = currentRoom s ∧
  rooms s' = rooms s ∧ messageQueue s' = messageQueue s ∧
  wire s' = wire s ∧
  notifications s' = notifications s ∧ console s' = console s ∧
  timers s' = timers s ∧ promise s' = promise s ∧
  initializing s' = initializing s ∧ listening s' = listening s ∧
  ∃ loaded, heap s' = heap s ++ loaded.
Proof.
  induction entries as [|entry entries IH]; intros s; simpl.
  { repeat split; try done. exists []. by rewrite app_nil_r. }
  unfold load_history.
  destruct (saved_messages saved (r_id entry.2)) as [| |ms]; simpl.
  - apply IH.
  - repeat split; try done. exists []. by rewrite app_nil_r.
  - destruct (IH (set_messages
                    (JsMap.set (r_id entry.2)
                       (seq (length (heap s)) (length ms)) (messages s))
                    (set_heap (heap s ++ ms) s)))
      as (->&->&->&->&->&->&->&->&->&->&->&->&->&->&->&->&loaded&->).
    repeat split; try done. exists (ms ++ loaded). simpl.
    by rewrite <-app_assoc.
Qed.

Lemma loadSavedData_fields (saved : Saved) s :
  let s' := loadSavedData saved s in
  config s' = config s ∧ ws s' = ws s ∧ connected s' = connected s ∧
  reconnectCount s' = reconnectCount s ∧ userId s' = userId s ∧
  userName s' = userName s ∧ currentRoom s' = currentRoom s ∧
  messageQueue s' = messageQueue s ∧ wire s' = wire s ∧
  notifications s' = notifications s ∧ console s' = console s ∧
  timers s' = timers s ∧ promise s' = promise s ∧
  initializing s' = initializing s ∧ listening s' = listening s ∧
  ∃ loaded, heap s' = heap s ++ loaded.
Proof.
  unfold loadSavedData. destruct (saved_rooms saved) as [| |rs].
  - destruct (load_histories_fields saved (rooms s) s)
      as (->&->&->&->&->&->&->&_&->&->&->&->&->&->&->&->&Hh).
    by repeat split.
  - simpl. repeat split; try done. exists []. by rewrite app_nil_r.
  - cbv zeta.
    destruct (load_histories_fields saved (rooms (load_rooms rs s))
                (load_rooms rs s))
      as (->&->&->&->&->&->&->&_&->&->&->&->&->&->&->&->&loaded&->).
    destruct (load_rooms_fields rs s)
      as (->&->&->&->&->&->&->&_&->&->&->&->&->&->&->&->&->).
    repeat split; try done. by exists loaded.
Qed.

(* the state initialize hands over to the browser *)
Lemma start_spec (o : Options) (uid uname : option string) (gen : string)
    (saved : Saved) :
  let s := start o uid uname gen saved in
  config s = mkConfig o ∧ ws s = Some CONNECTING ∧ connected s = false ∧
  reconnectCount s = 0%Z ∧ messageQueue s = [] ∧ timers s = [] ∧
  promise s = Pending ∧ initializing s = true ∧ listening s = false ∧
  wire s = [] ∧ notifications s = [] ∧ console s = [] ∧
  userId s = str (default gen (truthy uid)) ∧
  userName s = str (default "Anonymous" (truthy uname)) ∧
  currentRoom s = None.
Proof.
  unfold start, initialize, connect. simpl.
  set (s0 := set_userName _ _).
  destruct (loadSavedData_fields saved s0)
    as (->&_&->&->&->&->&->&->&->&->&->&->&_&_&->&_).
  by repeat split.
Qed.

End Resumed.

#[global] Hint Rewrite resumed_config resumed_ws resumed_connected resumed_reconnectCount resumed_userId resumed_userName resumed_currentRoom resumed_rooms
  resumed_messages resumed_typingUsers resumed_unreadCounts resumed_messageQueue resumed_heap resumed_wire resumed_timers resumed_promise : resumed.

(** ** ChatSystem *)

Section ChatFacts.
Import Chat.
Implicit Types (s : ChatSystem) (f : Frame) (q : list nat).

(** *** send *)

Lemma send_online f s :
  connected s = true → is_Some (ws s) →
  send f s = set_wire (wire s ++ [f]) s.
Proof. intros Hc [rs Hw]. unfold send. by rewrite Hc, Hw. Qed.

Lemma send_offline f s : connected s = false → send f s = s.
Proof. intros Hc. unfold send. by rewrite Hc. Qed.

(** *** Fields a method leaves alone *)

Lemma addMessageToRoom_frame roomId r s :
  let s' := addMessageToRoom roomId r s in
  config s' = config s ∧ ws s' = ws s ∧ connected s' = connected s ∧
  reconnectCount s' = reconnectCount s ∧ userId s' = userId s ∧
  userName s' = userName s ∧ currentRoom s' = currentRoom s ∧
  rooms s' = rooms s ∧ typingUsers s' = typingUsers s ∧
  unreadCounts s' = unreadCounts s ∧ messageQueue s' = messageQueue s ∧
  heap s' = heap s ∧ wire s' = wire s ∧
  notifications s' = notifications s ∧ console s' = console s ∧
  timers s' = timers s ∧ promise s' = promise s ∧
  initializing s' = initializing s ∧ listening s' = listening s.
Proof. unfold addMessageToRoom. by destruct (JsMap.has _ _). Qed.

(** *** Sending while the socket is down *)

Lemma call_offline s c :
  connected s = false →
  let s' := call s c in
  connected s' = false ∧ ws s' = ws s ∧ config s' = config s ∧
  userId s' = userId s ∧ userName s' = userName s ∧
  currentRoom s' = currentRoom s ∧ wire s' = wire s ∧
  reconnectCount s' = reconnectCount s ∧ timers s' = timers s ∧
  promise s' = promise s ∧
  heap s' = heap s ++ option_list (issued s c) ∧
  messageQueue s' =
    messageQueue s ++
      ((λ _ : Message, length (heap s)) <$> option_list (issued s c)) ∧
  notifications s' =
    notifications s ++ [match issued s c with
                        | Some _ => MessageQueuedOffline
                        | None => SelectRoomFirst
                        end].
Proof.
  intros Hc. unfold call, sendMessage, issued.
  destruct (truthy _) as [room|]; simpl.
  - set (m := Build_Message _ _ _ _ _ _ _).
    destruct (addMessageToRoom_frame room (length (heap s))
                (set_heap (heap s ++ [m]) s))
      as (?&?&Hc'&?&?&?&?&?&?&?&?&?&?&?&?&?&?&?&?).
    simpl in *. rewrite Hc', Hc. simpl. repeat split; congruence.
  - rewrite !app_nil_r. by repeat split.
Qed.

Lemma sendMessages_offline cs : ∀ s,
  connected s = false →
  let s' := sendMessages cs s in
  connected s' = false ∧ ws s' = ws s ∧ config s' = config s ∧
  userId s' = userId s ∧ userName s' = userName s ∧
  currentRoom s' = currentRoom s ∧ wire s' = wire s ∧
  reconnectCount s' = reconnectCount s ∧ timers s' = timers s ∧
  promise s' = promise s ∧
  heap s' = heap s ++ omap (issued s) cs ∧
  messageQueue s' =
    messageQueue s ++ seq (length (heap s)) (length (omap (issued s) cs)).
Proof.
  induction cs as [|c cs IH]; intros s Hc; csimpl.
  - rewrite !app_nil_r. by repeat split.
  - destruct (call_offline s c Hc)
      as (Hc1&Hw&Hcfg&Hu&Hn&Hr&Hwi&Hrc&Ht&Hp&Hh&Hq&_).
    destruct (IH (call s c) Hc1)
      as (Hc2&Hw2&Hcfg2&Hu2&Hn2&Hr2&Hwi2&Hrc2&Ht2&Hp2&Hh2&Hq2).
    unfold sendMessages in *. csimpl.
    assert (Hi : ∀ c', issued (call s c) c' = issued s c').
    { intros c'. unfold issued. by rewrite Hr, Hu, Hn. }
    assert (Ho : omap (issued (call s c)) cs = omap (issued s) cs).
    { clear -Hi. induction cs as [|c' cs IH']; csimpl; [done|].
      rewrite Hi. destruct (issued s c'); by rewrite IH'. }
    rewrite Ho in Hh2, Hq2.
    repeat split; try congruence.
    + rewrite Hh2, Hh. destruct (issued s c); csimpl; by rewrite <-?app_assoc.
    + rewrite Hq2, Hq, Hh.
      destruct (issued s c); csimpl;
        rewrite ?app_nil_r, ?length_app, <-?app_assoc; csimpl; [|done].
      by rewrite Nat.add_1_r.
Qed.

(** *** Draining the queue *)

Lemma drain_online q : ∀ s,
  connected s = true → is_Some (ws s) →
  let s' := drain q s in
  wire s' = wire s ++ (FMessage ∘ deref s <$> q) ∧
  messageQueue s' = match q with [] => messageQueue s | _ => [] end ∧
  heap s' = heap s ∧ messages s' = messages s ∧
  connected s' = true ∧ ws s' = ws s ∧
  reconnectCount s' = reconnectCount s ∧ timers s' = timers s ∧
  promise s' = promise s ∧ notifications s' = notifications s ∧
  unreadCounts s' = unreadCounts s ∧ console s' = console s.
Proof.
  induction q as [|r q IH]; intros s Hc Hw; simpl.
  - rewrite app_nil_r. by repeat split.
  - rewrite send_online by done.
    set (s1 := set_wire _ _).
    destruct (IH s1) as (Hwi&Hq&Hh&?&?&?&?&?&?&?&?&?); [done..|].
    repeat split; try done.
    + rewrite Hwi. subst s1. simpl. by rewrite <-app_assoc.
    + rewrite Hq. by destruct q.
Qed.

Lemma ws_onopen_spec s :
  is_Some (ws s) →
  let s' := ws_onopen s in
  connected s' = true ∧ reconnectCount s' = 0%Z ∧ messageQueue s' = [] ∧
  wire s' = wire s ++ FAuth (userId s) (userName s)
                       :: (FMessage ∘ deref s <$> messageQueue s) ∧
  promise s' = match promise s with Pending => Resolved | p => p end ∧
  heap s' = heap s ∧ messages s' = messages s ∧ timers s' = timers s ∧
  ws s' = ws s ∧ unreadCounts s' = unreadCounts s ∧
  console s' = console s.
Proof.
  intros Hw. unfold ws_onopen.
  rewrite send_online by done.
  set (s1 := set_wire _ _).
  assert (Hc1 : connected s1 = true) by done.
  assert (Hw1 : is_Some (ws s1)) by done.
  unfold processMessageQueue. rewrite Hc1. simpl negb. cbv iota.
  destruct (messageQueue s1) as [|r q] eqn:Hq.
  - unfold settle. simpl in *. rewrite Hq.
    destruct (promise s) eqn:Hp; repeat split; try done; exact Hp.
  - destruct (drain_online (r :: q) s1 Hc1 Hw1)
      as (Hwi&Hq'&Hh&Hm&Hc'&Hws&Hrc&Ht&Hp&?&?&?).
    set (s2 := drain (r :: q) s1) in *. clearbody s2.
    change (messageQueue s1) with (messageQueue s) in Hq.
    unfold settle. simpl promise. rewrite Hp.
    change (promise s1) with (promise s).
    destruct (promise s) eqn:Hp0; simpl;
      rewrite ?Hwi, ?Hq, ?Hq', ?Hc', ?Hrc, ?Hp;
      repeat split; try done; try exact Hp0;
      subst s1; simpl; by rewrite <-app_assoc.
Qed.

(** *** Reading the store after it has grown *)

Lemma lookup_total_seq_app (h new : list Message) :
  (λ r, (h ++ new) !!! r) <$> seq (length h) (length new) = new.
Proof.
  revert h. induction new as [|m new IH]; intros h; simpl; [done|].
  f_equal.
  - rewrite lookup_total_app_r by lia. by rewrite Nat.sub_diag.
  - specialize (IH (h ++ [m])). rewrite length_app in IH. simpl in IH.
    rewrite Nat.add_1_r in IH. by rewrite <-app_assoc in IH.
Qed.

(** C1: reaching Connected after an outage.  From any state whose
    socket is down and still connecting, after any burst of sendMessage
    calls, the open event is enabled and leaves the attempt counter at
    0, the connection marked connected and the queue empty; what it
    transmits is the auth frame followed by every queued message, each
    once, the ones already waiting first and then the ones of the burst
    in the order of the calls. *)
Theorem reconnect_drains_queue_fifo s (cs : list Call) :
  connected s = false → ws s = Some CONNECTING → queue_allocated s →
  ∃ s', run ((call_event <$> cs) ++ [EvOpen]) s = Some s' ∧
    connState s' = Connected ∧
    reconnectCount s' = 0%Z ∧
    messageQueue s' = [] ∧
    wire s' = wire s ++ FAuth (userId s) (userName s)
                :: (FMessage <$> ((deref s <$> messageQueue s)
                                    ++ omap (issued s) cs)).
Proof.
  intros Hc Hw Hq.
  assert (Hrun : ∀ es s0, run (es ++ [EvOpen]) s0 =
            s1 ← run es s0; if enabled EvOpen s1 then Some (step EvOpen s1) else None).
  { induction es as [|e es IH]; intros s0; simpl; [by destruct (bool_decide _)|].
    destruct (enabled e s0); [apply IH | done]. }
  assert (Hcalls : ∀ cs0 s0, run (call_event <$> cs0) s0 = Some (sendMessages cs0 s0)).
  { induction cs0 as [|c cs0 IH]; intros s0; [done|]. simpl. apply IH. }
  destruct (sendMessages_offline cs s Hc)
    as (Hc1&Hw1&Hcfg&Hu&Hn&Hr&Hwi&Hrc&Ht&Hp&Hh&Hq1).
  set (s1 := sendMessages cs s) in *.
  exists (step EvOpen s1). rewrite Hrun, Hcalls. simpl. fold s1.
  clearbody s1. rewrite Hw1, Hw. rewrite bool_decide_true by done.
  split; [done|].
  destruct (ws_onopen_spec (set_ws (Some OPEN) s1))
    as (Hc2&Hrc2&Hq2&Hwi2&_); [by eexists|].
  destruct (initialize_resumed_fields (ws_onopen (set_ws (Some OPEN) s1)))
    as (_&_&Hc3&Hrc3&_&_&_&_&_&_&_&Hq3&_&Hwi3&_).
  unfold connState. rewrite Hc3, Hrc3, Hq3, Hwi3, Hc2.
  repeat split; try done.
  rewrite Hwi2. simpl. rewrite Hwi, Hu, Hn. do 2 f_equal.
  rewrite Hq1, !fmap_app, !list_fmap_compose. do 2 f_equal.
  - apply Forall_fmap_ext_1. eapply Forall_impl; [exact Hq|].
    intros r Hr'. simpl. unfold deref. simpl. rewrite Hh.
    by rewrite lookup_total_app_l.
  - unfold deref. simpl. rewrite Hh. apply lookup_total_seq_app.
Qed.

Lemma reconnect_drains_queue_fifo_witness :
  connected demo_session = false ∧ ws demo_session = Some CONNECTING ∧
  queue_allocated demo_session ∧
  ∃ s', run ((call_event <$> demo_calls) ++ [EvOpen]) demo_session = Some s' ∧
    connState s' = Connected ∧
    reconnectCount s' = 0%Z ∧
    messageQueue s' = [] ∧
    wire s' = wire demo_session
                ++ FAuth (userId demo_session) (userName demo_session)
                :: (FMessage <$> ((deref demo_session <$> messageQueue demo_session)
                                    ++ omap (issued demo_session) demo_calls)).
Proof.
  split; [reflexivity|]. split; [reflexivity|]. split; [constructor|].
  apply (reconnect_drains_queue_fifo demo_session demo_calls);
    [reflexivity | reflexivity | constructor].
Defined.

(** *** Socket closure and the retry policy *)

Lemma leave_if_member_offline (rs : list (string * Room)) : ∀ s,
  connected s = false → foldl leave_if_member s rs = s.
Proof.
  induction rs as [|e rs IH]; intros s Hc; simpl; [done|].
  unfold leave_if_member at 2. rewrite send_offline by done.
  destruct (bool_decide _); by apply IH.
Qed.

(* a parked connection only sees user and window events, and they leave
   it parked *)
Lemma parked_step e s :
  parked s → enabled e s = true →
  parked (step e s) ∧ reconnectCount (step e s) = reconnectCount s ∧
  config (step e s) = config s.
Proof.
  intros (Hc & Hw & Ht) He.
  destruct e; simpl in He; rewrite ?Hw, ?Ht in He; try done; simpl.
  - destruct (call_offline s (Build_Call text roomId id now) Hc)
      as (Hc1&Hw1&Hcfg&_&_&_&_&Hrc&Ht1&_).
    unfold call in *. simpl in *. unfold parked.
    rewrite Hc1, Hw1, Ht1. by repeat split.
  - unfold window_online, processMessageQueue. simpl. rewrite Hc. simpl.
    unfold parked. simpl. by repeat split.
  - unfold leaveAllRooms. rewrite leave_if_member_offline by done.
    unfold parked. simpl. by repeat split.
Qed.

Lemma parked_run es : ∀ s s',
  parked s → run es s = Some s' →
  parked s' ∧ reconnectCount s' = reconnectCount s ∧ config s' = config s.
Proof.
  induction es as [|e es IH]; intros s s' Hp; simpl.
  - by intros [= <-].
  - destruct (enabled e s) eqn:He; [|done]. intros Hrun.
    destruct (parked_step e s Hp He) as (Hp1 & Hrc & Hcfg).
    destruct (IH _ _ Hp1 Hrun) as (Hp2 & Hrc2 & Hcfg2).
    split; [done|]. split; congruence.
Qed.

(** C3: a socket closure.  Below the configured maximum the counter
    goes up by one, the connection is Reconnecting, and exactly one timer
    is added, whose delay is the backoff base times the new counter as
    the code multiplies them; when this timer fires it is removed and
    connect() runs, so that a new socket is connecting.  At the maximum
    nothing is scheduled and the counter stays; the user is told that
    reconnecting failed; the connection is Failed and, whatever happens
    afterwards, stays Failed with no timer pending.  The queue is the
    same after the closure in both cases.  The delay is the exact product
    while that is at most 2^53 in magnitude, and for a non-negative base
    it does not decrease with the attempt number. *)
Theorem disconnect_retry_policy s :
  (reconnectCount s < reconnectAttempts (config s) →
     reconnectCount (step EvClose s) = reconnectCount s + 1 ∧
     timers (step EvClose s) =
       timers s ++ [backoff (config s) (reconnectCount s + 1)] ∧
     connState (step EvClose s) = Reconnecting ∧
     messageQueue (step EvClose s) = messageQueue s ∧
     enabled (EvTimer (length (timers s))) (step EvClose s) = true ∧
     ws (step (EvTimer (length (timers s))) (step EvClose s))
       = Some CONNECTING ∧
     promise (step (EvTimer (length (timers s))) (step EvClose s))
       = Pending ∧
     enabled EvOpen (step (EvTimer (length (timers s))) (step EvClose s))
       = true ∧
     timers (step (EvTimer (length (timers s))) (step EvClose s))
       = timers s ∧
     reconnectCount (step (EvTimer (length (timers s))) (step EvClose s))
       = reconnectCount s + 1 ∧
     messageQueue (step (EvTimer (length (timers s))) (step EvClose s))
       = messageQueue s)%Z ∧
  (reconnectAttempts (config s) ≤ reconnectCount s →
     reconnectCount (step EvClose s) = reconnectCount s ∧
     timers (step EvClose s) = timers s ∧
     messageQueue (step EvClose s) = messageQueue s ∧
     heap (step EvClose s) = heap s ∧
     notifications (step EvClose s) =
       notifications s ++ [DisconnectedFromServer; ReconnectFailed] ∧
     level ReconnectFailed = error ∧
     (timers s = [] →
        connState (step EvClose s) = Failed ∧
        ∀ es s', run es (step EvClose s) = Some s' →
          timers s' = [] ∧ connState s' = Failed))%Z ∧
  (∀ n, Z.abs (reconnectDelay (config s) * n) ≤ 2 ^ 53 →
     backoff (config s) n = Finite (reconnectDelay (config s) * n))%Z ∧
  (0 ≤ reconnectDelay (config s) → ∀ n m, n ≤ m →
     number_le (backoff (config s) n) (backoff (config s) m))%Z.
Proof.
  split; [|split; [|split]].
  - intros Hlt. unfold step at 1 2 3 4 5.
    unfold ws_onclose, handleDisconnection. simpl.
    rewrite (proj2 (Z.ltb_lt _ _) Hlt). simpl.
    set (d := js_mul _ _).
    split; [done|]. split; [done|].
    split; [unfold connState; simpl; by destruct (timers s)|].
    split; [done|].
    split.
    { apply bool_decide_eq_true. rewrite length_app. simpl. lia. }
    unfold step, timer_fires, ws_onclose, handleDisconnection. simpl.
    rewrite (proj2 (Z.ltb_lt _ _) Hlt). simpl. fold d.
    rewrite lookup_app_r, Nat.sub_diag by lia. simpl.
    assert (Hdel : delete (length (timers s)) (timers s ++ [d]) = timers s).
    { induction (timers s) as [|t ts IH]; simpl; [done|]. by rewrite IH. }
    by rewrite Hdel.
  - intros Hge. simpl. unfold ws_onclose, handleDisconnection. simpl.
    rewrite (proj2 (Z.ltb_ge _ _) Hge). simpl.
    rewrite <-app_assoc. do 6 (split; [done|]).
    intros Ht.
    assert (Hfailed : ∀ s0, parked s0 →
              reconnectCount s0 = reconnectCount s →
              config s0 = config s → connState s0 = Failed).
    { intros s0 (Hc0 & Hw0 & Ht0) Hrc0 Hcfg0. unfold connState.
      rewrite Hc0, Hw0, Ht0, Hrc0, Hcfg0.
      by rewrite (proj2 (Z.ltb_ge _ _) Hge). }
    set (s1 := notify ReconnectFailed _).
    assert (Hp1 : parked s1) by done.
    split; [by apply Hfailed|].
    intros es s' Hrun.
    destruct (parked_run es s1 s' Hp1 Hrun) as (Hp' & Hrc & Hcfg).
    split; [apply Hp'|]. by apply Hfailed.
  - intros n Hn. by apply js_mul_exact.
  - intros Hbase n m Hnm. by apply js_mul_mono.
Qed.

(* the scenario of the specification: two attempts allowed, three
   closures in a row *)
Example two_attempts_scenario :
  run demo_outage
    (initialize (Some "u1") (Some "Abebe") "user_0" nothing_saved
       (new_ChatSystem two_attempts)) = Some demo_exhausted ∧
  connState demo_exhausted = Reconnecting ∧
  reconnectCount demo_exhausted = 2%Z ∧
  timers demo_exhausted = [] ∧
  connState (step EvClose demo_exhausted) = Failed.
Proof. repeat apply conj; vm_compute; reflexivity. Qed.

Lemma disconnect_retry_policy_witness :
  ((reconnectCount demo_session < reconnectAttempts (config demo_session))%Z ∧
   timers (step EvClose demo_session) = [Finite 3000] ∧
   connState (step EvClose demo_session) = Reconnecting ∧
   ws (step (EvTimer 0) (step EvClose demo_session)) = Some CONNECTING) ∧
  ((reconnectAttempts (config demo_exhausted) ≤ reconnectCount demo_exhausted)%Z ∧
   timers demo_exhausted = [] ∧
   connState (step EvClose demo_exhausted) = Failed ∧
   messageQueue (step EvClose demo_exhausted) = messageQueue demo_exhausted) ∧
  ((Z.abs (reconnectDelay (config demo_session) * 2) ≤ 2 ^ 53)%Z ∧
   backoff (config demo_session) 2 = Finite 6000) ∧
  ((0 ≤ reconnectDelay (config demo_session))%Z ∧
   number_le (backoff (config demo_session) 1)
             (backoff (config demo_session) 2)).
Proof.
  destruct (disconnect_retry_policy demo_session)
    as (Hlow & _ & Hexact & Hmono).
  destruct (disconnect_retry_policy demo_exhausted) as (_ & Hmax & _).
  assert (H0 : (reconnectCount demo_session
                < reconnectAttempts (config demo_session))%Z)
    by (vm_compute; reflexivity).
  assert (H1 : (reconnectAttempts (config demo_exhausted)
                ≤ reconnectCount demo_exhausted)%Z)
    by (vm_compute; discriminate).
  assert (H2 : (0 ≤ reconnectDelay (config demo_session))%Z)
    by (vm_compute; discriminate).
  assert (H4 : (Z.abs (reconnectDelay (config demo_session) * 2) ≤ 2 ^ 53)%Z)
    by (vm_compute; discriminate).
  split; [|split; [|split]].
  - destruct (Hlow H0) as (_ & Ht & Hs & _ & _ & Hw & _).
    split; [exact H0|]. split; [exact Ht|]. split; [exact Hs | exact Hw].
  - assert (H3 : timers demo_exhausted = []) by (vm_compute; reflexivity).
    destruct (Hmax H1) as (_ & _ & Hq & _ & _ & _ & Hf).
    destruct (Hf H3) as (Hfailed & _).
    split; [exact H1|]. split; [exact H3|].
    split; [exact Hfailed | exact Hq].
  - split; [exact H4 | exact (Hexact 2%Z H4)].
  - split; [exact H2|]. apply (Hmono H2). lia.
Defined.

(** *** The inbound path leaves the connection alone *)

Lemma handleMessage_connection e s :
  let s' := handleMessage e s in
  config s' = config s ∧ ws s' = ws s ∧ connected s' = connected s ∧
  reconnectCount s' = reconnectCount s ∧ timers s' = timers s ∧
  promise s' = promise s ∧ messageQueue s' = messageQueue s ∧
  rooms s' = rooms s ∧ userId s' = userId s.
Proof.
  destruct e as [raw|d]; simpl; [done|].
  unfold dispatch, handleIncomingFile, handleIncomingMessage,
    handleTypingIndicator, updateMessageStatus, markMessageAsRead,
    incrementUnreadCount, addMessageToRoom, alloc, send, notify, caught.
  repeat case_match; simpl in *; simplify_eq; done.
Qed.

(** *** The promise of connect *)

Lemma send_promise f s : promise (send f s) = promise s.
Proof. unfold send. by repeat case_match. Qed.

Lemma drain_promise q : ∀ s, promise (drain q s) = promise s.
Proof.
  induction q as [|r q IH]; intros s; simpl; [done|].
  by rewrite IH, send_promise.
Qed.

Lemma leave_if_member_promise (rs : list (string * Room)) : ∀ s,
  promise (foldl leave_if_member s rs) = promise s.
Proof.
  induction rs as [|e rs IH]; intros s; simpl; [done|].
  rewrite IH. unfold leave_if_member.
  destruct (bool_decide _); [apply send_promise | done].
Qed.

Lemma step_keeps_pending e s :
  promise s = Pending → e ≠ EvOpen → e ≠ EvError →
  promise (step e s) = Pending.
Proof.
  intros Hp Ho He. destruct e; try done; simpl.
  - unfold ws_onclose, handleDisconnection. by case_match.
  - by destruct (handleMessage_connection e s) as (_&_&_&_&_&->&_).
  - unfold timer_fires. by case_match.
  - unfold sendMessage, addMessageToRoom, alloc, send, notify.
    repeat case_match; simpl in *; simplify_eq; done.
  - unfold window_online, processMessageQueue.
    repeat case_match; try done. simpl.
    by rewrite drain_promise, send_promise.
  - unfold leaveAllRooms. simpl. by rewrite leave_if_member_promise.
Qed.

(** C4 fails as stated: the promise of connect is resolved by the open
    event alone.  The trace holds no inbound frame, so no
    acknowledgement was received, and no timer was armed that could
    time the handshake out. *)
Lemma connect_resolves_without_acknowledgement :
  promise demo_session = Pending ∧
  (∀ d, EvMessage d ∉ [EvOpen]) ∧
  ∃ s', run [EvOpen] demo_session = Some s' ∧
        promise s' = Resolved ∧ timers s' = [].
Proof.
  split; [reflexivity|]. split.
  - intros d Hd. apply list_elem_of_singleton in Hd. discriminate.
  - eexists. split; [vm_compute; reflexivity|].
    split; vm_compute; reflexivity.
Qed.

(** C4, amended: connect creates the socket and returns a pending
    promise; it transmits nothing and arms no timer.  When the socket
    opens, the handler marks the connection connected, resets the
    attempt counter, hands the auth frame and then the queued messages
    to the socket and resolves the promise at once, without waiting for
    any inbound frame.  A socket error rejects the promise.  No other
    event settles it: there is no acknowledgement step and no timeout. *)
Theorem connect_settles_on_open_or_error s :
  promise (connect s) = Pending ∧
  ws (connect s) = Some CONNECTING ∧
  wire (connect s) = wire s ∧
  timers (connect s) = timers s ∧
  enabled EvOpen (connect s) = true ∧
  promise (step EvOpen (connect s)) = Resolved ∧
  connected (step EvOpen (connect s)) = true ∧
  reconnectCount (step EvOpen (connect s)) = 0%Z ∧
  wire (step EvOpen (connect s)) =
    wire s ++ FAuth (userId s) (userName s)
           :: (FMessage ∘ deref s <$> messageQueue s) ∧
  timers (step EvOpen (connect s)) = timers s ∧
  promise (step EvError (connect s)) = Rejected ∧
  (∀ e s0, promise s0 = Pending → e ≠ EvOpen → e ≠ EvError →
     promise (step e s0) = Pending).
Proof.
  do 5 (split; [done|]).
  destruct (ws_onopen_spec (set_ws (Some OPEN) (connect s)))
    as (Hc&Hrc&_&Hw&Hp&_&_&Ht&_); [by eexists|].
  unfold step.
  destruct (initialize_resumed_fields
              (ws_onopen (set_ws (Some OPEN) (connect s))))
    as (_&_&->&->&_&_&_&_&_&_&_&_&_&->&->&->).
  destruct (initialize_resumed_fields (ws_onerror (connect s)))
    as (_&_&_&_&_&_&_&_&_&_&_&_&_&_&_&->).
  split; [exact Hp|]. split; [exact Hc|]. split; [exact Hrc|].
  split; [exact Hw|]. split; [exact Ht|]. split; [done|].
  intros e s0. apply step_keeps_pending.
Qed.

Lemma connect_settles_on_open_or_error_witness :
  promise demo_session = Pending ∧
  promise (step EvClose demo_session) = Pending ∧
  promise (step EvOpen (connect demo_session)) = Resolved.
Proof.
  destruct (connect_settles_on_open_or_error demo_session)
    as (_&_&_&_&_&Hres&_&_&_&_&_&Hkeep).
  split; [reflexivity|]. split; [|exact Hres].
  apply Hkeep; [reflexivity | discriminate | discriminate].
Defined.

(** *** The router *)

Lemma dispatch_unknown d s :
  d_type d ∉ known_types → dispatch d s = Returned s.
Proof.
  intros Hn.
  assert (Hne : ∀ t, t ∈ known_types → String.eqb (d_type d) t = false).
  { intros t Ht. apply String.eqb_neq. by intros <-. }
  unfold dispatch.
  rewrite !Hne by (unfold known_types; repeat constructor). done.
Qed.

(** C5 fails as stated: a frame of a type the switch does not list
    leaves every field as it was, the console included; nothing is
    logged. *)
Lemma unknown_frame_is_not_logged :
  (d_type demo_unknown ∉ known_types) ∧
  handleMessage (Decoded demo_unknown) demo_online = demo_online ∧
  console (handleMessage (Decoded demo_unknown) demo_online)
    = console demo_online.
Proof.
  split.
  - apply (bool_decide_eq_false_1 (d_type demo_unknown ∈ known_types)).
    vm_compute. reflexivity.
  - split; vm_compute; reflexivity.
Qed.

(** C5, amended: the router runs the one handler its switch selects
    for the frame's type: handleIncomingMessage for 'message',
    handleIncomingFile for 'file', handleTypingIndicator for 'typing', a
    notification for 'error' and a pong for 'ping'.  A frame of a type
    the switch does not list is ignored without any trace: the state is
    exactly the same, nothing is logged and nothing is shown.  A text
    that does not decode adds one line to the console and changes
    nothing else.  The connection stays as it was in every case. *)
Theorem router_dispatch s :
  (∀ d, d_type d = "message" →
     handleMessage (Decoded d) s
       = caught (handleIncomingMessage (d_message d) s)) ∧
  (∀ d, d_type d = "file" →
     handleMessage (Decoded d) s
       = caught (handleIncomingFile (d_message d) s)) ∧
  (∀ d, d_type d = "typing" →
     handleMessage (Decoded d) s = handleTypingIndicator d s) ∧
  (∀ d, d_type d = "error" →
     handleMessage (Decoded d) s = notify (ServerError (d_error d)) s) ∧
  (∀ d, d_type d = "ping" → handleMessage (Decoded d) s = send FPong s) ∧
  (∀ d, d_type d ∉ known_types → handleMessage (Decoded d) s = s) ∧
  (∀ raw,
     console (handleMessage (Unparseable raw) s)
       = console s ++ ["Failed to parse message:"] ∧
     handleMessage (Unparseable raw) s
       = set_console (console (handleMessage (Unparseable raw) s)) s ∧
     notifications (handleMessage (Unparseable raw) s) = notifications s ∧
     rooms (handleMessage (Unparseable raw) s) = rooms s ∧
     messages (handleMessage (Unparseable raw) s) = messages s ∧
     heap (handleMessage (Unparseable raw) s) = heap s ∧
     messageQueue (handleMessage (Unparseable raw) s) = messageQueue s ∧
     unreadCounts (handleMessage (Unparseable raw) s) = unreadCounts s ∧
     reconnectCount (handleMessage (Unparseable raw) s) = reconnectCount s) ∧
  (∀ e, connected (handleMessage e s) = connected s ∧
        ws (handleMessage e s) = ws s ∧
        timers (handleMessage e s) = timers s).
Proof.
  repeat apply conj.
  - intros d Hd. simpl. unfold dispatch. by rewrite Hd.
  - intros d Hd. simpl. unfold dispatch. by rewrite Hd.
  - intros d Hd. simpl. unfold dispatch. by rewrite Hd.
  - intros d Hd. simpl. unfold dispatch. by rewrite Hd.
  - intros d Hd. simpl. unfold dispatch. by rewrite Hd.
  - intros d Hd. simpl. by rewrite dispatch_unknown.
  - done.
  - intros e.
    by destruct (handleMessage_connection e s) as (_&->&->&_&->&_).
Qed.

Lemma router_dispatch_witness :
  d_type demo_ping = "ping" ∧
  (d_type demo_unknown ∉ known_types) ∧
  handleMessage (Decoded demo_ping) demo_online = send FPong demo_online ∧
  handleMessage (Decoded demo_unknown) demo_online = demo_online.
Proof.
  destruct (router_dispatch demo_online) as (_&_&_&_&Hping&Hunk&_).
  assert (Hn : d_type demo_unknown ∉ known_types).
  { apply (bool_decide_eq_false_1 (d_type demo_unknown ∈ known_types)).
    vm_compute. reflexivity. }
  split; [reflexivity|]. split; [exact Hn|].
  split; [apply Hping; reflexivity | apply Hunk; exact Hn].
Defined.

(** *** Room history *)

(* the history of a room; a room without an entry has none *)
Lemma addMessageToRoom_history roomId r s :
  JsMap.get roomId (messages (addMessageToRoom roomId r s)) =
    Some (drop (length (default [] (JsMap.get roomId (messages s))) + 1
                - Z.to_nat (messageLimit (config s)))
            (default [] (JsMap.get roomId (messages s)) ++ [r])).
Proof.
  unfold addMessageToRoom.
  set (s1 := if JsMap.has roomId (messages s) then s else _).
  assert (Hold : default [] (JsMap.get roomId (messages s1))
                 = default [] (JsMap.get roomId (messages s))).
  { subst s1. unfold JsMap.has.
    destruct (JsMap.get roomId (messages s)) eqn:Hg; simpl;
      by rewrite ?jsmap_get_set_eq, ?Hg. }
  assert (Hcfg : config s1 = config s) by (subst s1; by case_match).
  simpl. rewrite jsmap_get_set_eq, Hold, Hcfg. f_equal.
  set (old := default [] _). set (L := messageLimit (config s)).
  rewrite length_app. simpl.
  destruct (Z.ltb_spec L (Z.of_nat (length old + 1))) as [Hlt|Hge].
  - unfold splice0. destruct (decide (0 ≤ L)%Z) as [Hpos|Hneg].
    + f_equal. lia.
    + by rewrite !drop_ge by (rewrite length_app; simpl; lia).
  - replace (length old + 1 - Z.to_nat L)%nat with 0%nat by lia. done.
Qed.

Lemma addMessageToRoom_other roomId roomId' r s :
  roomId ≠ roomId' →
  JsMap.get roomId' (messages (addMessageToRoom roomId r s))
    = JsMap.get roomId' (messages s).
Proof.
  intros Hne. unfold addMessageToRoom. simpl.
  rewrite jsmap_get_set_ne by done.
  case_match; [done|]. simpl. by rewrite jsmap_get_set_ne.
Qed.



(** *** Delivery receipts *)

Lemma find_in_room_sound h messageId room r :
  find_in_room h messageId room = Some r →
  r ∈ room ∧ m_id (h !!! r) = messageId.
Proof.
  unfold find_in_room. intros Hf.
  apply List.find_some in Hf as [Hin Hid].
  split; [by apply list_elem_of_In | by apply bool_decide_eq_true in Hid].
Qed.

Lemma findMessage_sound messageId s r :
  findMessage messageId s = Some r →
  ∃ roomId room, (roomId, room) ∈ messages s ∧ r ∈ room ∧
                 m_id (deref s r) = messageId.
Proof.
  unfold findMessage, deref. generalize (heap s) as h.
  induction (messages s) as [|[roomId room] ms IH]; intros h; simpl; [done|].
  destruct (find_in_room h messageId room) as [r'|] eqn:Hf.
  - intros [= ->]. apply find_in_room_sound in Hf as [Hin Hid].
    exists roomId, room. split; [left | done].
  - intros Hr. destruct (IH h Hr) as (roomId' & room' & Hin & Hr' & Hid).
    exists roomId', room'. split; [by right | done].
Qed.

(** C10: an inbound message whose sender is the local user.  The
    handler returns normally; no room history, unread counter, queue
    entry, outbound frame, notification or console line is added or
    changed, and no message object is created.  Among the message
    objects only the first stored one with the same id is written, and
    only its status, which becomes 'delivered'; when no stored message
    has that id nothing changes at all. *)
Theorem own_echo_only_marks_delivered s m :
  m_userId m = userId s →
  ∃ s', handleIncomingMessage (Some m) s = Returned s' ∧
    (∀ d, d_type d = "message" → d_message d = Some m →
          handleMessage (Decoded d) s = s') ∧
    s' = set_heap (heap s') s ∧
    messages s' = messages s ∧
    unreadCounts s' = unreadCounts s ∧
    messageQueue s' = messageQueue s ∧
    wire s' = wire s ∧
    notifications s' = notifications s ∧
    length (heap s') = length (heap s) ∧
    (findMessage (m_id m) s = None → s' = s) ∧
    (∀ r, findMessage (m_id m) s = Some r →
       ∃ roomId room, (roomId, room) ∈ messages s ∧ r ∈ room ∧
                      m_id (deref s r) = m_id m) ∧
    (∀ r stored, heap s !! r = Some stored →
       ∃ now, heap s' !! r = Some now ∧
         m_id now = m_id stored ∧ m_roomId now = m_roomId stored ∧
         m_userId now = m_userId stored ∧
         m_userName now = m_userName stored ∧
         m_text now = m_text stored ∧
         m_timestamp now = m_timestamp stored ∧
         m_status now = if decide (findMessage (m_id m) s = Some r)
                        then "delivered" else m_status stored).
Proof.
  intros Hown.
  exists (updateMessageStatus (m_id m) "delivered" s).
  split. { unfold handleIncomingMessage. by rewrite decide_True. }
  split.
  { intros d Hd Hm. simpl. unfold dispatch, handleIncomingMessage.
    rewrite Hd, Hm. simpl. by rewrite decide_True. }
  unfold updateMessageStatus.
  destruct (findMessage (m_id m) s) as [r0|] eqn:Hfind; simpl.
  - do 6 (split; [done|]). split; [apply length_alter|].
    split; [done|]. split.
    + intros r [= <-]. by apply findMessage_sound.
    + intros r stored Hr. destruct (decide (Some r0 = Some r)) as [[= ->]|Hne].
      * exists (with_status "delivered" stored).
        rewrite list_lookup_alter_eq, Hr. by repeat split.
      * exists stored. rewrite list_lookup_alter_ne by congruence.
        by repeat split.
  - split; [by destruct s|]. do 7 (split; [done|]). split; [done|].
    intros r stored Hr. exists stored. by repeat split.
Qed.

Lemma own_echo_only_marks_delivered_witness :
  m_userId demo_echo = userId demo_sent ∧
  findMessage "msg_1" demo_sent = Some 1%nat ∧
  m_status <$> heap demo_sent = ["sent"; "sending"] ∧
  ∃ s', handleIncomingMessage (Some demo_echo) demo_sent = Returned s' ∧
        m_status <$> heap s' = ["sent"; "delivered"] ∧
        messages s' = messages demo_sent ∧
        unreadCounts s' = unreadCounts demo_sent.
Proof.
  assert (H0 : m_userId demo_echo = userId demo_sent)
    by (vm_compute; reflexivity).
  destruct (own_echo_only_marks_delivered demo_sent demo_echo H0)
    as (s' & Hret & _ & _ & Hm & Hu & _).
  split; [exact H0|].
  split; [vm_compute; reflexivity|].
  split; [vm_compute; reflexivity|].
  exists s'. split; [exact Hret|]. split; [|split; [exact Hm | exact Hu]].
  assert (Hs : Returned s'
               = Returned (updateMessageStatus "msg_1" "delivered" demo_sent)).
  { rewrite <-Hret. vm_compute. reflexivity. }
  injection Hs as ->. vm_compute. reflexivity.
Defined.

(** *** Leaving rooms *)

Lemma send_socket f s :
  ws (send f s) = ws s ∧ connected (send f s) = connected s ∧
  userId (send f s) = userId s ∧ heap (send f s) = heap s ∧
  messageQueue (send f s) = messageQueue s ∧ timers (send f s) = timers s.
Proof. unfold send. by repeat case_match. Qed.

Lemma leave_if_member_socket (rs : list (string * Room)) : ∀ s,
  ws (foldl leave_if_member s rs) = ws s ∧
  connected (foldl leave_if_member s rs) = connected s ∧
  userId (foldl leave_if_member s rs) = userId s ∧
  heap (foldl leave_if_member s rs) = heap s ∧
  messageQueue (foldl leave_if_member s rs) = messageQueue s ∧
  timers (foldl leave_if_member s rs) = timers s.
Proof.
  induction rs as [|e rs IH]; intros s; simpl; [done|].
  destruct (IH (leave_if_member s e)) as (->&->&->&->&->&->).
  unfold leave_if_member. destruct (bool_decide _); [|done].
  apply send_socket.
Qed.

Lemma leaveAllRooms_spec s :
  rooms (leaveAllRooms s) = [] ∧ messages (leaveAllRooms s) = [] ∧
  currentRoom (leaveAllRooms s) = None ∧
  ws (leaveAllRooms s) = ws s ∧
  connected (leaveAllRooms s) = connected s ∧
  heap (leaveAllRooms s) = heap s ∧
  messageQueue (leaveAllRooms s) = messageQueue s ∧
  timers (leaveAllRooms s) = timers s.
Proof.
  unfold leaveAllRooms. simpl.
  destruct (leave_if_member_socket (rooms s) s) as (->&->&_&->&->&->).
  done.
Qed.

Lemma leaveRoom_socket roomId s :
  ws (leaveRoom roomId s) = ws s ∧
  connected (leaveRoom roomId s) = connected s.
Proof.
  unfold leaveRoom, send. repeat case_match; simpl in *; simplify_eq; done.
Qed.

End ChatFacts.

(** ** MediaRoom *)

Section MediaFacts.
Import Media.
Implicit Types (s : MediaRoom) (pc : PeerConnection) (t : Track).

(** *** forEach over the registered connections *)

Lemma foldl_alter_lookup (f : PeerConnection → PeerConnection)
    (entries : list (option string * nat)) :
  (∀ pc, f (f pc) = f pc) →
  ∀ (objs : list PeerConnection) r,
    foldl (λ objs entry, alter f entry.2 objs) objs entries !! r =
      if decide (r ∈ entries.*2) then f <$> objs !! r else objs !! r.
Proof.
  intros Hidem. induction entries as [|[uid r0] entries IH];
    intros objs r; csimpl.
  - done.
  - rewrite IH, list_lookup_alter.
    destruct (decide (r0 = r)) as [->|Hne].
    + rewrite (decide_True (P := r ∈ r :: _)) by left.
      destruct (decide (r ∈ entries.*2)); [|done].
      destruct (objs !! r); simpl; by rewrite ?Hidem.
    + destruct (decide (r ∈ entries.*2)) as [Hin|Hnin].
      * by rewrite decide_True by (by right).
      * rewrite decide_False; [done|].
        intros [?|?]%elem_of_cons; congruence.
Qed.

Lemma forEach_pc_lookup f s r :
  (∀ pc, f (f pc) = f pc) →
  pcs (forEach_pc f s) !! r =
    if decide (r ∈ (peerConnections s).*2) then f <$> pcs s !! r
    else pcs s !! r.
Proof. intros Hidem. simpl. by apply foldl_alter_lookup. Qed.

Lemma registered_ref (uid : option string) (r : nat) s :
  (uid, r) ∈ peerConnections s → r ∈ (peerConnections s).*2.
Proof. intros Hin. apply list_elem_of_fmap. by exists (uid, r). Qed.

(** *** Replacing the video track of one connection *)

Lemma replace_video_idem t snds :
  t_kind t = video →
  replace_video (Some t) (replace_video (Some t) snds)
    = replace_video (Some t) snds.
Proof.
  intros Hk. induction snds as [|x snds IH]; simpl; [done|].
  destruct (is_video_sender x) eqn:Hx; simpl.
  - by rewrite bool_decide_true.
  - by rewrite Hx, IH.
Qed.

Lemma replaceVideoTrack_idem t pc :
  t_kind t = video →
  replaceVideoTrack (Some t) (replaceVideoTrack (Some t) pc)
    = replaceVideoTrack (Some t) pc.
Proof.
  intros Hk. unfold replaceVideoTrack, with_senders. simpl.
  by rewrite replace_video_idem.
Qed.

Lemma replace_video_audio t snds :
  t_kind t = video →
  filter (λ x, t_kind x = audio) (omap id (replace_video (Some t) snds))
    = filter (λ x, t_kind x = audio) (omap id snds).
Proof.
  intros Hk. induction snds as [|[x|] snds IH]; csimpl; [done| |done].
  destruct (bool_decide (t_kind x = video)) eqn:Hx; csimpl.
  - apply bool_decide_eq_true in Hx.
    rewrite !filter_cons, !decide_False by congruence. done.
  - by rewrite !filter_cons, IH.
Qed.

Lemma replace_video_video t snds :
  t_kind t = video →
  filter (λ x, t_kind x = video) (omap id (replace_video (Some t) snds))
    = match filter (λ x, t_kind x = video) (omap id snds) with
      | [] => []
      | _ :: rest => t :: rest
      end.
Proof.
  intros Hk. induction snds as [|[x|] snds IH]; csimpl; [done| |done].
  destruct (bool_decide (t_kind x = video)) eqn:Hx; csimpl.
  - apply bool_decide_eq_true in Hx.
    by rewrite !filter_cons, !decide_True.
  - apply bool_decide_eq_false in Hx.
    by rewrite !filter_cons, !decide_False, IH.
Qed.

Lemma head_video_kind (st : list Track) t :
  head (getVideoTracks st) = Some t → t_kind t = video.
Proof.
  unfold getVideoTracks. intros Hh.
  assert (Hin : t ∈ filter (λ t, t_kind t = video) st).
  { destruct (filter _ st); simplify_eq/=. left. }
  by apply list_elem_of_filter in Hin as [? _].
Qed.

(* every registered connection after the forEach of the two
   screen-share methods *)
Lemma swap_video_sessions t s (uid : option string) r pc :
  t_kind t = video →
  (uid, r) ∈ peerConnections s → pcs s !! r = Some pc →
  ∃ pc', pcs (forEach_pc (replaceVideoTrack (Some t)) s) !! r = Some pc' ∧
    outbound audio pc' = outbound audio pc ∧
    outbound video pc' = match outbound video pc with
                         | [] => []
                         | _ :: rest => t :: rest
                         end.
Proof.
  intros Hk Hin Hpc. exists (replaceVideoTrack (Some t) pc).
  rewrite forEach_pc_lookup by (intros; by apply replaceVideoTrack_idem).
  rewrite decide_True by (by eapply registered_ref).
  rewrite Hpc. split; [done|]. unfold outbound. simpl.
  by rewrite replace_video_audio, replace_video_video.
Qed.

(** C6 fails as stated: in an audio-only call the session sends no
    video track, so getSenders().find(...) finds no sender and the
    screen track is attached nowhere, although startScreenShare returns
    and marks the screen as shared. *)
Lemma audio_only_session_gets_no_screen_track :
  peerConnections demo_audio_call = [(Some "p1", 0%nat)] ∧
  ∃ s', startScreenShare (Granted [screen]) demo_audio_call = Returned s' ∧
    isScreenSharing s' = true ∧
    (outbound video <$> pcs s') = [[]] ∧
    (outbound audio <$> pcs s') = [[microphone]] ∧
    ¬ (∃ pc', pcs s' !! 0%nat = Some pc' ∧ outbound video pc' = [screen]).
Proof.
  split; [vm_compute; reflexivity|].
  eexists. split; [vm_compute; reflexivity|].
  split; [vm_compute; reflexivity|].
  split; [vm_compute; reflexivity|].
  split; [vm_compute; reflexivity|].
  intros (pc' & Hpc & Hv). vm_compute in Hpc. injection Hpc as <-.
  vm_compute in Hv. discriminate.
Qed.

(** C6, amended: switching between camera and screen.
    startScreenShare, given a display stream whose first video track is
    [screenTrack], returns with the screen marked as shared, and
    stopScreenShare, while a screen stream is set and the local stream
    has a video track [videoTrack], both leave the set of sessions as it
    is and act on every registered session alike: its outbound audio
    tracks are the same as before, and its first outbound video track,
    if it has one, is replaced by the new track; a session that sends no
    video track still sends none.  stopScreenShare does nothing without
    a screen stream, and leaves every session as it is when the local
    stream is missing or has no video track. *)
Theorem screen_share_swaps_video_only s :
  (∀ stream screenTrack,
     head (getVideoTracks stream) = Some screenTrack →
     ∃ s', startScreenShare (Granted stream) s = Returned s' ∧
       isScreenSharing s' = true ∧
       peerConnections s' = peerConnections s ∧
       ∀ uid r pc, (uid, r) ∈ peerConnections s → pcs s !! r = Some pc →
         ∃ pc', pcs s' !! r = Some pc' ∧
           outbound audio pc' = outbound audio pc ∧
           outbound video pc' = match outbound video pc with
                                | [] => []
                                | _ :: rest => screenTrack :: rest
                                end) ∧
  (∀ scr cam videoTrack,
     screenStream s = Some scr → localStream s = Some cam →
     head (getVideoTracks cam) = Some videoTrack →
     isScreenSharing (stopScreenShare s) = false ∧
     peerConnections (stopScreenShare s) = peerConnections s ∧
     ∀ uid r pc, (uid, r) ∈ peerConnections s → pcs s !! r = Some pc →
       ∃ pc', pcs (stopScreenShare s) !! r = Some pc' ∧
         outbound audio pc' = outbound audio pc ∧
         outbound video pc' = match outbound video pc with
                              | [] => []
                              | _ :: rest => videoTrack :: rest
                              end) ∧
  (screenStream s = None → stopScreenShare s = s) ∧
  (∀ scr, screenStream s = Some scr →
     localStream s = None ∨
     (∃ cam, localStream s = Some cam ∧ head (getVideoTracks cam) = None) →
     isScreenSharing (stopScreenShare s) = false ∧
     peerConnections (stopScreenShare s) = peerConnections s ∧
     pcs (stopScreenShare s) = pcs s).
Proof.
  split; [|split; [|split]].
  - intros stream screenTrack Hhead.
    pose proof (head_video_kind _ _ Hhead) as Hk.
    unfold startScreenShare. rewrite Hhead.
    eexists. split; [reflexivity|]. split; [done|]. split; [done|].
    intros uid r pc Hin Hpc.
    destruct (swap_video_sessions screenTrack
                (set_screenStream (Some stream) s) uid r pc Hk Hin Hpc)
      as (pc' & Hpc' & Ha & Hv).
    exists pc'. split; [exact Hpc'|]. split; [exact Ha | exact Hv].
  - intros scr cam videoTrack Hscr Hcam Hhead.
    pose proof (head_video_kind _ _ Hhead) as Hk.
    unfold stopScreenShare. rewrite Hscr. simpl. rewrite Hcam, Hhead.
    split; [done|]. split; [done|].
    intros uid r pc Hin Hpc.
    destruct (swap_video_sessions videoTrack (stop_tracks scr s)
                uid r pc Hk Hin Hpc)
      as (pc' & Hpc' & Ha & Hv).
    exists pc'. split; [exact Hpc'|]. split; [exact Ha | exact Hv].
  - intros Hscr. unfold stopScreenShare. by rewrite Hscr.
  - intros scr Hscr Hloc. unfold stopScreenShare. rewrite Hscr. simpl.
    destruct Hloc as [-> | (cam & -> & ->)]; done.
Qed.

Lemma screen_share_swaps_video_only_witness :
  head (getVideoTracks [screen]) = Some screen ∧
  (outbound video <$> pcs demo_call) = [[camera]; [camera]] ∧
  (outbound video <$> pcs demo_sharing) = [[screen]; [screen]] ∧
  (outbound audio <$> pcs demo_sharing) = [[microphone]; [microphone]] ∧
  (∃ pc', pcs demo_sharing !! 0%nat = Some pc' ∧
          outbound video pc' = [screen]) ∧
  (∃ pc', pcs (stopScreenShare demo_sharing) !! 1%nat = Some pc' ∧
          outbound video pc' = [camera]).
Proof.
  destruct (screen_share_swaps_video_only demo_call) as (Hstart & _).
  destruct (screen_share_swaps_video_only demo_sharing) as (_ & Hstop & _).
  assert (H0 : head (getVideoTracks [screen]) = Some screen)
    by (vm_compute; reflexivity).
  split; [exact H0|].
  split; [vm_compute; reflexivity|].
  split; [vm_compute; reflexivity|].
  split; [vm_compute; reflexivity|].
  split.
  - destruct (Hstart [screen] screen H0) as (s' & Hret & _ & _ & Hall).
    assert (Hs : s' = demo_sharing).
    { unfold demo_sharing. by rewrite Hret. }
    subst s'.
    destruct (Hall (Some "p1") 0%nat (demo_pc "p1" camera))
      as (pc' & Hpc' & _ & Hv).
    + vm_compute. left.
    + vm_compute. reflexivity.
    + exists pc'. split; [exact Hpc'|]. rewrite Hv.
      vm_compute. reflexivity.
  - destruct (Hstop [screen] [microphone; camera] camera)
      as (_ & _ & Hall).
    + vm_compute. reflexivity.
    + vm_compute. reflexivity.
    + vm_compute. reflexivity.
    + destruct (Hall (Some "p2") 1%nat (demo_pc "p2" screen))
        as (pc' & Hpc' & _ & Hv).
      * vm_compute. right. left.
      * vm_compute. reflexivity.
      * exists pc'. split; [exact Hpc'|]. rewrite Hv.
        vm_compute. reflexivity.
Defined.

(** *** Offers, answers and candidates *)

Lemma createPeerConnection_spec (uid : option string) s :
  (createPeerConnection uid s).1 = length (pcs s) ∧
  JsMap.get uid (peerConnections (createPeerConnection uid s).2)
    = Some (length (pcs s)) ∧
  (∃ pc, pcs (createPeerConnection uid s).2 = pcs s ++ [pc] ∧
         remoteDescription pc = None ∧ localDescription pc = None ∧
         iceCandidates pc = [] ∧ closed pc = false ∧ peer pc = uid) ∧
  signaling (createPeerConnection uid s).2 = signaling s ∧
  wire (createPeerConnection uid s).2 = wire s ∧
  console (createPeerConnection uid s).2 = console s ∧
  roomId (createPeerConnection uid s).2 = roomId s.
Proof.
  unfold createPeerConnection. simpl. split; [done|].
  split; [apply jsmap_get_set_eq|]. split; [|done].
  eexists. split; [reflexivity|]. done.
Qed.

(** C7 fails as stated: a candidate whose sender has no session leaves
    the room as it was, so nothing is logged; and it is not kept
    either, the session a later offer creates has no candidate. *)
Lemma candidate_without_session_is_not_logged :
  JsMap.get (Some "p1") (peerConnections demo_room) = None ∧
  handleCandidate (demo_signal "candidate" "p1") demo_room = demo_room ∧
  console (handleCandidate (demo_signal "candidate" "p1") demo_room)
    = console demo_room ∧
  iceCandidates <$>
    pcs (handleOffer_begin (demo_signal "offer" "p1")
           (handleCandidate (demo_signal "candidate" "p1") demo_room)).2
    = [[]].
Proof. repeat apply conj; vm_compute; reflexivity. Qed.

(** C7, amended: handleOffer registers the session for the offer's
    userId before it first suspends, so a candidate from that
    participant that arrives before the answer exists finds the session
    and is handed to it at once; it is still there, and the answer goes
    back to the offer's sender, when the handler resumes.  A candidate
    or an answer from a participant without a session changes nothing:
    it is neither applied nor kept nor logged, and nothing is thrown. *)
Theorem candidate_after_offer_is_applied s :
  (∀ offer cand answer, g_from cand = g_userId offer →
     let r := (handleOffer_begin offer s).1 in
     let s2 := handleCandidate cand (handleOffer_begin offer s).2 in
     JsMap.get (g_from cand) (peerConnections s2) = Some r ∧
     (∃ pc, pcs s2 !! r = Some pc ∧
            iceCandidates pc = [g_candidate cand] ∧
            remoteDescription pc = Some (g_offer offer) ∧
            localDescription pc = None ∧ closed pc = false) ∧
     console s2 = console s ∧
     (signaling s = Some OPEN →
        ∃ s3, handleOffer_answer r offer answer s2 = Returned s3 ∧
          wire s3 = wire s ++ [FAnswer (roomId s) (g_from offer) answer] ∧
          ∃ pc, pcs s3 !! r = Some pc ∧
                iceCandidates pc = [g_candidate cand] ∧
                localDescription pc = Some answer)) ∧
  (∀ msg, JsMap.get (g_from msg) (peerConnections s) = None →
     handleCandidate msg s = s ∧ handleAnswer msg s = s).
Proof.
  split.
  - intros offer cand answer Hfrom. cbv zeta.
    unfold handleOffer_begin.
    destruct (createPeerConnection_spec (g_userId offer) s)
      as (Hr & Hget & (pc0 & Hpcs & Hrd & Hld & Hic & Hcl & _)
          & Hsig & Hwire & Hcon & Hroom).
    destruct (createPeerConnection (g_userId offer) s) as [r s1].
    simpl in *. subst r.
    unfold handleCandidate. simpl. rewrite Hfrom, Hget. simpl.
    split; [done|].
    assert (Hlook : alter (addIceCandidate (g_candidate cand)) (length (pcs s))
              (alter (setRemoteDescription (g_offer offer)) (length (pcs s))
                 (pcs s1)) !! length (pcs s)
            = Some (addIceCandidate (g_candidate cand)
                      (setRemoteDescription (g_offer offer) pc0))).
    { rewrite !list_lookup_alter_eq, Hpcs.
      by rewrite lookup_app_r, Nat.sub_diag by lia. }
    split.
    { eexists. split; [exact Hlook|]. simpl. by rewrite Hic, Hld, Hcl. }
    split; [done|].
    intros Hopen. unfold handleOffer_answer, signaling_send. simpl.
    rewrite Hsig, Hopen. eexists. split; [reflexivity|]. simpl.
    rewrite Hwire, Hroom. split; [done|].
    eexists. rewrite list_lookup_alter_eq, Hlook. simpl.
    split; [reflexivity|]. simpl. by rewrite Hic.
  - intros msg Hnone. unfold handleCandidate, handleAnswer.
    by rewrite Hnone.
Qed.

Lemma candidate_after_offer_is_applied_witness :
  g_from (demo_signal "candidate" "p1") = g_userId (demo_signal "offer" "p1") ∧
  JsMap.get (Some "p3") (peerConnections demo_call) = None ∧
  signaling demo_room = Some OPEN ∧
  (∃ pc, pcs (handleCandidate (demo_signal "candidate" "p1")
                (handleOffer_begin (demo_signal "offer" "p1") demo_room).2)
           !! 0%nat = Some pc ∧
         iceCandidates pc = ["candidate of p1"]) ∧
  handleCandidate (demo_signal "candidate" "p3") demo_call = demo_call.
Proof.
  destruct (candidate_after_offer_is_applied demo_room) as (Happly & _).
  destruct (candidate_after_offer_is_applied demo_call) as (_ & Hnone).
  split; [reflexivity|].
  assert (H3 : JsMap.get (g_from (demo_signal "candidate" "p3"))
                 (peerConnections demo_call) = None)
    by (vm_compute; reflexivity).
  split; [exact H3|]. split; [reflexivity|]. split.
  - destruct (Happly (demo_signal "offer" "p1")
                (demo_signal "candidate" "p1") "sdp" eq_refl)
      as (_ & (pc & Hpc & Hic & _) & _).
    exists pc. split; [exact Hpc | exact Hic].
  - destruct (Hnone _ H3) as [Hsame _]. exact Hsame.
Defined.

(** *** Leaving the room *)

Lemma close_idem pc : close (close pc) = close pc.
Proof. done. Qed.

Lemma leaveRoom_spec s :
  signaling s ≠ Some CONNECTING →
  ∃ s', leaveRoom s = Returned s' ∧
    peerConnections s' = [] ∧ participants s' = [] ∧
    roomId s' = None ∧ isCallActive s' = false ∧
    signaling s' = signaling s ∧
    wire s' = wire s ++ (if decide (signaling s = Some OPEN)
                         then [FLeave (roomId s)] else []) ∧
    (∀ r, pcs s' !! r =
            if decide (r ∈ (peerConnections s).*2)
            then close <$> pcs s !! r else pcs s !! r) ∧
    ended s' = ended s
               ∪ list_to_set (t_id <$> default [] (localStream s))
               ∪ list_to_set (t_id <$> default [] (screenStream s)).
Proof.
  intros Hsig. unfold leaveRoom, signaling_send. simpl.
  assert (Hpcs : ∀ r,
    foldl (λ objs entry, alter close entry.2 objs) (pcs s)
      (peerConnections s) !! r =
    if decide (r ∈ (peerConnections s).*2)
    then close <$> pcs s !! r else pcs s !! r)
    by (intros r; apply foldl_alter_lookup, close_idem).
  destruct (signaling s) as [[]|] eqn:Hs; [done|..]; simpl;
    destruct (localStream s) as [loc|] eqn:Hloc; simpl;
    destruct (screenStream s) as [scr|] eqn:Hscr; simpl;
    (eexists; split; [reflexivity|]); simpl;
    rewrite ?Hs, ?app_nil_r, ?(right_id_L ∅ (∪)); by repeat split.
Qed.

(* a connection that was replaced in the map is not closed by leaveRoom *)
Example replaced_session_is_never_closed :
  peerConnections demo_rejoined = [(Some "p1", 1%nat)] ∧
  ∃ s', leaveRoom demo_rejoined = Returned s' ∧
        closed <$> pcs s' = [false; true].
Proof.
  split; [vm_compute; reflexivity|].
  eexists. split; vm_compute; reflexivity.
Qed.

End MediaFacts.

(** ** ChatSystem: invariants of a session *)

Section ChatInvariants.
Import Chat.
Implicit Types (s : ChatSystem) (f : Frame) (q : list nat) (e : Event).

(** *** What each method can write *)

Lemma send_cases f s : send f s = s ∨ send f s = set_wire (wire s ++ [f]) s.
Proof. unfold send. repeat case_match; auto. Qed.

Lemma drain_queue q : ∀ s,
  messageQueue (drain q s) = match q with [] => messageQueue s | _ => [] end.
Proof.
  induction q as [|r q IH]; intros s; simpl; [done|].
  rewrite IH. destruct q; [|done].
  by destruct (send_cases (FMessage (deref s r)) (set_messageQueue [] s))
    as [-> | ->].
Qed.

Lemma drain_fields q : ∀ s,
  config (drain q s) = config s ∧ ws (drain q s) = ws s ∧
  connected (drain q s) = connected s ∧
  reconnectCount (drain q s) = reconnectCount s ∧
  timers (drain q s) = timers s ∧ heap (drain q s) = heap s ∧
  messages (drain q s) = messages s ∧
  unreadCounts (drain q s) = unreadCounts s.
Proof.
  induction q as [|r q IH]; intros s; simpl; [done|].
  destruct (IH (send (FMessage (deref s r)) (set_messageQueue q s)))
    as (->&->&->&->&->&->&->&->).
  by destruct (send_cases (FMessage (deref s r)) (set_messageQueue q s))
    as [-> | ->].
Qed.

Lemma processMessageQueue_fields s :
  config (processMessageQueue s) = config s ∧
  ws (processMessageQueue s) = ws s ∧
  connected (processMessageQueue s) = connected s ∧
  reconnectCount (processMessageQueue s) = reconnectCount s ∧
  timers (processMessageQueue s) = timers s ∧
  heap (processMessageQueue s) = heap s ∧
  messages (processMessageQueue s) = messages s ∧
  unreadCounts (processMessageQueue s) = unreadCounts s ∧
  messageQueue (processMessageQueue s) =
    if connected s then [] else messageQueue s.
Proof.
  unfold processMessageQueue.
  destruct (connected s) eqn:Hc; simpl negb; cbv iota; [|done].
  destruct (messageQueue s) as [|r q] eqn:Hq; [by rewrite Hc|].
  pose proof (drain_fields (r :: q) s) as Hf.
  pose proof (drain_queue (r :: q) s) as Hq'.
  cbv beta iota.
  set (s2 := drain (r :: q) s) in *. clearbody s2. simpl.
  destruct Hf as (->&->&->&->&->&->&->&->). by rewrite Hq'.
Qed.

Lemma sendMessage_fields text roomId id now s :
  config (sendMessage text roomId id now s) = config s ∧
  ws (sendMessage text roomId id now s) = ws s ∧
  connected (sendMessage text roomId id now s) = connected s ∧
  reconnectCount (sendMessage text roomId id now s) = reconnectCount s ∧
  timers (sendMessage text roomId id now s) = timers s ∧
  (connected s = true →
     messageQueue (sendMessage text roomId id now s) = messageQueue s).
Proof.
  unfold sendMessage, addMessageToRoom, alloc, send, notify.
  repeat case_match; simpl in *; simplify_eq;
    repeat split; try done; intros; congruence.
Qed.

Lemma leave_if_member_fields (rs : list (string * Room)) : ∀ s,
  config (foldl leave_if_member s rs) = config s ∧
  reconnectCount (foldl leave_if_member s rs) = reconnectCount s ∧
  heap (foldl leave_if_member s rs) = heap s ∧
  messages (foldl leave_if_member s rs) = messages s ∧
  rooms (foldl leave_if_member s rs) = rooms s.
Proof.
  induction rs as [|e rs IH]; intros s; simpl; [done|].
  destruct (IH (leave_if_member s e)) as (->&->&->&->&->).
  unfold leave_if_member. destruct (bool_decide _); [|done].
  by destruct (send_cases (FLeave e.1) s) as [-> | ->].
Qed.

(** *** Connected means nothing is waiting *)

Lemma step_queue_empty e s :
  (connected s = true → messageQueue s = []) →
  connected (step e s) = true → messageQueue (step e s) = [].
Proof.
  intros Hinv. destruct e; unfold step; autorewrite with resumed.
  - intros _. by destruct (ws_onopen_spec (set_ws (Some OPEN) s))
      as (_&_&->&_); [by eexists|].
  - unfold ws_onerror, settle. by case_match.
  - unfold ws_onclose, handleDisconnection. by case_match.
  - by destruct (handleMessage_connection e s) as (_&_&->&_&_&_&->&_).
  - unfold timer_fires. by case_match.
  - destruct (sendMessage_fields text roomId id now s) as (_&_&->&_&_&Hq).
    intros Hc. rewrite Hq by done. by apply Hinv.
  - unfold window_online.
    destruct (processMessageQueue_fields (notify BackOnline s))
      as (_&_&->&_&_&_&_&_&->).
    simpl. by intros ->.
  - by destruct (leaveAllRooms_spec s) as (_&_&_&_&->&_&->&_).
Qed.

Lemma run_queue_empty es : ∀ s s', run es s = Some s' →
  (connected s = true → messageQueue s = []) →
  connected s' = true → messageQueue s' = [].
Proof.
  induction es as [|e es IH]; intros s s'; simpl.
  - intros [= <-]. auto.
  - destruct (enabled e s); [|done]. intros Hr Hinv.
    apply (IH _ _ Hr). by apply step_queue_empty.
Qed.

(** X1: in a session, whenever the connection is marked connected the
    offline queue is empty.  This holds after initialize and is kept by
    every event, so a message can only wait in the queue while the socket
    is down. *)
Theorem queue_empty_while_connected :
  (∀ es s s', run es s = Some s' →
     (connected s = true → messageQueue s = []) →
     connected s' = true → messageQueue s' = []) ∧
  (∀ s, reachable s → connected s = true → messageQueue s = []).
Proof.
  split; [exact run_queue_empty|].
  intros s (o & uid & uname & gen & saved & es & Hr).
  apply (run_queue_empty _ _ _ Hr). intros _.
  apply start_spec.
Qed.

Lemma queue_empty_while_connected_witness :
  run (call_event <$> demo_calls) demo_session = Some (sendMessages demo_calls demo_session) ∧
  run ((call_event <$> demo_calls) ++ [EvOpen; EvMessage (Decoded demo_ping)])
    demo_session
    = Some (play ((call_event <$> demo_calls)
                    ++ [EvOpen; EvMessage (Decoded demo_ping)]) demo_session) ∧
  length (messageQueue (sendMessages demo_calls demo_session)) = 2%nat ∧
  messageQueue (play ((call_event <$> demo_calls)
                        ++ [EvOpen; EvMessage (Decoded demo_ping)])
                  demo_session) = [].
Proof.
  destruct queue_empty_while_connected as (Hrun & _).
  assert (H0 : run ((call_event <$> demo_calls)
                      ++ [EvOpen; EvMessage (Decoded demo_ping)]) demo_session
               = Some (play ((call_event <$> demo_calls)
                        ++ [EvOpen; EvMessage (Decoded demo_ping)])
                        demo_session))
    by (vm_compute; reflexivity).
  split; [vm_compute; reflexivity|]. split; [exact H0|].
  split; [vm_compute; reflexivity|].
  apply (Hrun _ _ _ H0).
  - intros Hc. vm_compute in Hc. discriminate.
  - vm_compute. reflexivity.
Defined.

(** *** One socket, one timer *)

Lemma retry_consistent_step e s :
  retry_consistent s → enabled e s = true → retry_consistent (step e s).
Proof.
  intros (Hopen & Htimer & Hcount) He. unfold retry_consistent.
  destruct e; simpl in He; unfold step; autorewrite with resumed.
  - apply bool_decide_eq_true in He.
    destruct (ws_onopen_spec (set_ws (Some OPEN) s))
      as (_&->&_&_&_&_&_&->&->&_); [by eexists|].
    simpl. split; [done|]. split; [|lia].
    destruct Htimer as [?|(d & _ & Hw)]; [by left | congruence].
  - unfold ws_onerror, settle. by case_match.
  - assert (Ht : timers s = []).
    { destruct Htimer as [?|(d & _ & Hw)]; [done|].
      rewrite Hw in He. done. }
    unfold ws_onclose, handleDisconnection. simpl.
    destruct (Z.ltb_spec (reconnectCount s) (reconnectAttempts (config s)));
      simpl; rewrite Ht; (split; [done|]); (split; [|lia]).
    + right. by eexists.
    + by left.
  - destruct (handleMessage_connection e s) as (->&->&->&->&->&_). done.
  - apply bool_decide_eq_true in He.
    destruct Htimer as [Ht|(d & Ht & Hw)]; [rewrite Ht in He; simpl in He; lia|].
    rewrite Ht in He. simpl in He.
    assert (i = 0)%nat as -> by lia.
    unfold timer_fires. rewrite Ht. simpl.
    split; [|split]; [|by left|done].
    intros Hc. apply Hopen in Hc. congruence.
  - by destruct (sendMessage_fields text roomId id now s)
      as (->&->&->&->&->&_).
  - unfold window_online.
    by destruct (processMessageQueue_fields (notify BackOnline s))
      as (->&->&->&->&->&_).
  - destruct (leaveAllRooms_spec s) as (_&_&_&->&->&_&_&->).
    unfold leaveAllRooms. simpl.
    by destruct (leave_if_member_fields (rooms s) s) as (->&->&_).
Qed.

(** X2: the retry bookkeeping of a session is consistent at every
    moment.  After initialize, and after every event that can occur, the
    socket is open whenever the connection is marked connected, at most
    one retry timer is pending and then the socket is closed, and the
    attempt counter lies between 0 and the configured maximum. *)
Theorem retry_bookkeeping_invariant :
  (∀ o uid uname gen saved,
     retry_consistent (start o uid uname gen saved)) ∧
  (∀ es s s', retry_consistent s → run es s = Some s' →
     retry_consistent s') ∧
  (∀ s, reachable s →
     (length (timers s) ≤ 1)%nat ∧
     (timers s ≠ [] → connected s = false ∧ ws s = Some CLOSED) ∧
     (0 ≤ reconnectCount s ≤ Z.max 0 (reconnectAttempts (config s)))%Z).
Proof.
  assert (Hstart : ∀ o uid uname gen saved,
            retry_consistent (start o uid uname gen saved)).
  { intros. unfold retry_consistent.
    destruct (start_spec o uid uname gen saved)
      as (_&->&->&->&_&->&_).
    split; [done|]. split; [by left | lia]. }
  assert (Hrun : ∀ es s s', retry_consistent s → run es s = Some s' →
     retry_consistent s').
  { induction es as [|e es IH]; intros s s' Hinv; simpl.
    - by intros [= <-].
    - destruct (enabled e s) eqn:He; [|done].
      apply IH. by apply retry_consistent_step. }
  split; [exact Hstart|]. split; [exact Hrun|].
  intros s (o & uid & uname & gen & saved & es & Hr).
  destruct (Hrun _ _ _ (Hstart o uid uname gen saved) Hr)
    as (Hopen & Ht & Hc).
  split; [|split; [|exact Hc]].
  - destruct Ht as [->|(d & -> & _)]; simpl; lia.
  - intros Hne. destruct Ht as [?|(d & _ & Hw)]; [done|].
    split; [|done]. destruct (connected s); [|done].
    specialize (Hopen eq_refl). congruence.
Qed.

Lemma retry_bookkeeping_invariant_witness :
  reachable demo_exhausted ∧
  retry_consistent demo_exhausted ∧
  retry_consistent (step EvClose demo_exhausted).
Proof.
  destruct retry_bookkeeping_invariant as (Hstart & Hrun & _).
  assert (H0 : run demo_outage
                 (start two_attempts (Some "u1") (Some "Abebe") "user_0"
                    nothing_saved)
               = Some demo_exhausted) by (vm_compute; reflexivity).
  assert (H1 : run (demo_outage ++ [EvClose])
                 (start two_attempts (Some "u1") (Some "Abebe") "user_0"
                    nothing_saved)
               = Some (step EvClose demo_exhausted)) by (vm_compute; reflexivity).
  split; [|split].
  - exists two_attempts, (Some "u1"), (Some "Abebe"), "user_0",
      nothing_saved, demo_outage.
    exact H0.
  - exact (Hrun _ _ _ (Hstart _ _ _ _ _) H0).
  - exact (Hrun _ _ _ (Hstart _ _ _ _ _) H1).
Defined.

(** *** The message store *)

Lemma store_extends_refl h : store_extends h h.
Proof. intros r m Hr. exists m. by repeat split. Qed.

Lemma store_extends_trans h1 h2 h3 :
  store_extends h1 h2 → store_extends h2 h3 → store_extends h1 h3.
Proof.
  intros H12 H23 r m Hr.
  destruct (H12 r m Hr) as (m2 & Hr2 & (?&?&?&?&?&?)).
  destruct (H23 r m2 Hr2) as (m3 & Hr3 & (?&?&?&?&?&?)).
  exists m3. split; [done|]. repeat split; congruence.
Qed.

Lemma store_extends_app h new : store_extends h (h ++ new).
Proof.
  intros r m Hr. exists m. split; [|by repeat split].
  by apply lookup_app_l_Some.
Qed.

Lemma store_extends_status h r st :
  store_extends h (alter (with_status st) r h).
Proof.
  intros r' m Hr. rewrite list_lookup_alter.
  destruct (decide (r = r')) as [->|_].
  - rewrite Hr. eexists. split; [reflexivity|]. by repeat split.
  - exists m. by repeat split.
Qed.

Lemma store_extends_length h h' :
  store_extends h h' → length h ≤ length h'.
Proof.
  intros Hext. destruct (decide (length h = 0)) as [->|Hne]; [lia|].
  destruct (lookup_lt_is_Some_2 h (length h - 1)) as [m Hm]; [lia|].
  destruct (Hext _ _ Hm) as (m' & Hm' & _).
  apply lookup_lt_Some in Hm'. lia.
Qed.

Lemma handleMessage_heap ev s :
  heap (handleMessage ev s) = heap s ∨
  (∃ r st, heap (handleMessage ev s) = alter (with_status st) r (heap s)) ∨
  (∃ m, heap (handleMessage ev s) = heap s ++ [m]).
Proof.
  destruct ev as [raw|d]; simpl; [by left|].
  unfold dispatch, handleIncomingFile, handleIncomingMessage,
    handleTypingIndicator, updateMessageStatus, markMessageAsRead,
    incrementUnreadCount, addMessageToRoom, alloc, send, notify, caught.
  repeat case_match; simpl in *; simplify_eq; eauto.
Qed.

Lemma step_store e s : store_extends (heap s) (heap (step e s)).
Proof.
  destruct e; unfold step; autorewrite with resumed.
  - destruct (ws_onopen_spec (set_ws (Some OPEN) s))
      as (_&_&_&_&_&->&_); [by eexists|]. apply store_extends_refl.
  - unfold ws_onerror, settle. case_match; apply store_extends_refl.
  - unfold ws_onclose, handleDisconnection. case_match; apply store_extends_refl.
  - destruct (handleMessage_heap e s) as [-> | [(r & st & ->) | (m & ->)]];
      auto using store_extends_refl, store_extends_status, store_extends_app.
  - unfold timer_fires. case_match; apply store_extends_refl.
  - assert (Hh : heap (sendMessage text roomId id now s) = heap s ∨
                 ∃ m, heap (sendMessage text roomId id now s) = heap s ++ [m]).
    { unfold sendMessage, addMessageToRoom, alloc, send, notify.
      repeat case_match; simpl in *; simplify_eq; eauto. }
    destruct Hh as [-> | (m & ->)];
      auto using store_extends_refl, store_extends_app.
  - unfold window_online.
    destruct (processMessageQueue_fields (notify BackOnline s))
      as (_&_&_&_&_&->&_). apply store_extends_refl.
  - destruct (leaveAllRooms_spec s) as (_&_&_&_&_&->&_).
    apply store_extends_refl.
Qed.

(** X3: the connection handlers and sendMessage never lose or rewrite a
    message object.  Under any sequence of socket events (open, error,
    close, inbound frame), retry timers, sendMessage calls and the online
    and beforeunload listeners, every message object that was in the
    store is still there under the same reference, with the same id,
    room, sender, sender name, text and timestamp; only its status can
    differ, and the store never shrinks.  (The editing and file methods,
    updateMessageText and sendFile, are not among these events: they do
    rewrite stored objects.) *)
Theorem stored_messages_keep_their_content :
  ∀ es s s', run es s = Some s' →
    store_extends (heap s) (heap s') ∧ length (heap s) ≤ length (heap s').
Proof.
  assert (Hrun : ∀ es s s', run es s = Some s' →
            store_extends (heap s) (heap s')).
  { induction es as [|e es IH]; intros s s'; simpl.
    - intros [= <-]. apply store_extends_refl.
    - destruct (enabled e s); [|done]. intros Hr.
      eapply store_extends_trans; [apply step_store | by apply IH]. }
  intros es s s' Hr. split; [by eapply Hrun|].
  by eapply store_extends_length, Hrun.
Qed.

Lemma stored_messages_keep_their_content_witness :
  run [EvMessage (Decoded (Build_Inbound "message" (Some demo_echo) ""
                             undefined "" "" false)); EvClose] demo_sent
    = Some (play [EvMessage (Decoded (Build_Inbound "message" (Some demo_echo)
                               "" undefined "" "" false)); EvClose] demo_sent) ∧
  m_status <$> heap demo_sent = ["sent"; "sending"] ∧
  store_extends (heap demo_sent)
    (heap (play [EvMessage (Decoded (Build_Inbound "message" (Some demo_echo)
                               "" undefined "" "" false)); EvClose] demo_sent)).
Proof.
  assert (H0 : run [EvMessage (Decoded (Build_Inbound "message"
                      (Some demo_echo) "" undefined "" "" false)); EvClose] demo_sent
    = Some (play [EvMessage (Decoded (Build_Inbound "message" (Some demo_echo)
                               "" undefined "" "" false)); EvClose] demo_sent))
    by (vm_compute; reflexivity).
  split; [exact H0|]. split; [vm_compute; reflexivity|].
  exact (proj1 (stored_messages_keep_their_content _ _ _ H0)).
Defined.

(** *** A run of failed attempts *)

Lemma run_app es1 : ∀ es2 s,
  run (es1 ++ es2) s = s1 ← run es1 s; run es2 s1.
Proof.
  induction es1 as [|e es1 IH]; intros es2 s; simpl; [done|].
  destruct (enabled e s); [apply IH | done].
Qed.

Lemma failed_attempt_spec s :
  connected s = false → ws s = Some CONNECTING → timers s = [] →
  promise s = Pending →
  (reconnectCount s < reconnectAttempts (config s))%Z →
  ∃ s', run failed_attempt s = Some s' ∧
    connected s' = false ∧ ws s' = Some CONNECTING ∧ timers s' = [] ∧
    promise s' = Pending ∧ initializing s' = false ∧
    listening s' = listening s ∧
    config s' = config s ∧
    reconnectCount s' = (reconnectCount s + 1)%Z ∧
    notifications s' =
      notifications s
        ++ (if initializing s then [InitializeFailed] else [])
        ++ retry_notice (config s) (reconnectCount s + 1) ∧
    console s' =
      console s
        ++ "WebSocket error:"
           :: (if initializing s
               then ["Chat system initialization failed:"] else []) ∧
    messageQueue s' = messageQueue s ∧ heap s' = heap s ∧ wire s' = wire s.
Proof.
  intros Hc Hw Ht Hp Hlt. unfold failed_attempt, run.
  assert (He1 : enabled EvError s = true) by (simpl; by rewrite Hw).
  rewrite He1.
  assert (Hs1 : ws (step EvError s) = Some CONNECTING ∧
                timers (step EvError s) = [] ∧
                reconnectCount (step EvError s) = reconnectCount s ∧
                config (step EvError s) = config s ∧
                notifications (step EvError s) =
                  notifications s
                    ++ (if initializing s then [InitializeFailed] else []) ∧
                console (step EvError s) =
                  console s
                    ++ "WebSocket error:"
                       :: (if initializing s
                           then ["Chat system initialization failed:"]
                           else []) ∧
                listening (step EvError s) = listening s ∧
                messageQueue (step EvError s) = messageQueue s ∧
                heap (step EvError s) = heap s ∧
                wire (step EvError s) = wire s).
  { unfold step, ws_onerror, settle, initialize_resumed. simpl.
    rewrite Hp. simpl.
    destruct (initializing s); simpl;
      rewrite ?app_nil_r, <-?app_assoc; by repeat split. }
  set (s1 := step EvError s) in *. clearbody s1.
  destruct Hs1
    as (Hw1 & Ht1 & Hrc1 & Hcfg1 & Hn1 & Hco1 & Hl1 & Hq1 & Hh1 & Hwi1).
  assert (He2 : enabled EvClose s1 = true) by (simpl; by rewrite Hw1).
  rewrite He2.
  assert (Hs2 : connected (step EvClose s1) = false ∧
                timers (step EvClose s1)
                  = [backoff (config s) (reconnectCount s + 1)] ∧
                reconnectCount (step EvClose s1) = (reconnectCount s + 1)%Z ∧
                config (step EvClose s1) = config s ∧
                notifications (step EvClose s1) =
                  notifications s1
                    ++ retry_notice (config s) (reconnectCount s + 1) ∧
                console (step EvClose s1) = console s1 ∧
                listening (step EvClose s1) = listening s ∧
                messageQueue (step EvClose s1) = messageQueue s ∧
                heap (step EvClose s1) = heap s ∧
                wire (step EvClose s1) = wire s).
  { unfold step, ws_onclose, handleDisconnection. simpl.
    rewrite Hrc1, Hcfg1, (proj2 (Z.ltb_lt _ _) Hlt). simpl.
    rewrite ?Ht1, ?Hrc1, ?Hcfg1, <-?app_assoc. by repeat split. }
  set (s2 := step EvClose s1) in *. clearbody s2.
  destruct Hs2
    as (Hc2 & Ht2 & Hrc2 & Hcfg2 & Hn2 & Hco2 & Hl2 & Hq2 & Hh2 & Hwi2).
  assert (He3 : enabled (EvTimer 0) s2 = true)
    by (simpl; rewrite Ht2; by apply bool_decide_eq_true; simpl; lia).
  rewrite He3. eexists. split; [reflexivity|].
  unfold step, timer_fires. rewrite Ht2. simpl.
  rewrite Hn2, Hn1, Hco2, Hco1, <-?app_assoc. by repeat split.
Qed.

(** X4: a losing streak.  When k connection attempts in a row end in an
    error, starting with a pending promise, the attempt counter at c and
    c + k within the configured maximum, each closure is followed by
    exactly one retry; the k delays announced are those of the attempts
    c+1, c+2, ..., c+k, in this order, each the backoff base times the
    attempt number as the code multiplies them.  If the first of these
    attempts is the one initialize awaits, the user is told once, before
    the first closure, that the initialization failed.  Afterwards the
    counter is c + k, the next attempt is under way, and the queue, the
    message store and the frames sent are as before. *)
Theorem failed_attempts_back_off_linearly (k : nat) : ∀ s,
  connected s = false → ws s = Some CONNECTING → timers s = [] →
  promise s = Pending →
  (reconnectCount s + Z.of_nat k ≤ reconnectAttempts (config s))%Z →
  ∃ s', run (mjoin (replicate k failed_attempt)) s = Some s' ∧
    connected s' = false ∧ ws s' = Some CONNECTING ∧ timers s' = [] ∧
    promise s' = Pending ∧
    reconnectCount s' = (reconnectCount s + Z.of_nat k)%Z ∧
    notifications s' =
      notifications s ++
      match k with
      | O => []
      | S _ => if initializing s then [InitializeFailed] else []
      end ++
      mjoin ((λ i, retry_notice (config s) (reconnectCount s + Z.of_nat i))
               <$> seq 1 k) ∧
    console s' =
      console s ++
      match k with
      | O => []
      | S k' =>
          "WebSocket error:"
          :: (if initializing s
              then ["Chat system initialization failed:"] else [])
          ++ replicate k' "WebSocket error:"
      end ∧
    listening s' = listening s ∧
    messageQueue s' = messageQueue s ∧ heap s' = heap s ∧ wire s' = wire s.
Proof.
  induction k as [|k IH]; intros s Hc Hw Ht Hp Hle.
  - exists s. simpl. rewrite Z.add_0_r, !app_nil_r. by repeat split.
  - destruct (failed_attempt_spec s Hc Hw Ht Hp) as
      (s1 & Hr1 & Hc1 & Hw1 & Ht1 & Hp1 & Hi1 & Hl1 & Hcfg1 & Hrc1 & Hn1
          & Hco1 & Hq1 & Hh1 & Hwi1);
      [lia|].
    destruct (IH s1 Hc1 Hw1 Ht1 Hp1) as
      (s' & Hr & Hc' & Hw' & Ht' & Hp' & Hrc' & Hn' & Hco' & Hl' & Hq'
          & Hh' & Hwi');
      [rewrite Hrc1, Hcfg1; lia|].
    exists s'.
    change (mjoin (replicate (S k) failed_attempt))
      with (failed_attempt ++ mjoin (replicate k failed_attempt)).
    rewrite run_app, Hr1. csimpl. split; [exact Hr|].
    do 4 (split; [done|]). split; [lia|].
    split; [|split; [|split; [congruence|
                       split; [congruence | split; congruence]]]].
    + rewrite Hn', Hn1, Hi1, Hcfg1, Hrc1, <-!app_assoc. f_equal. f_equal.
      assert (E : match k with
                  | O => []
                  | S _ => @nil Notification
                  end = []) by (by destruct k).
      rewrite E. simpl.
      unfold retry_notice at 1. simpl. do 3 f_equal.
      rewrite <-(fmap_S_seq 1), <-list_fmap_compose.
      apply list_fmap_ext. intros i x _. unfold retry_notice, compose.
      by replace (reconnectCount s + Z.of_nat (S x))%Z
        with (reconnectCount s + 1 + Z.of_nat x)%Z by lia.
    + rewrite Hco', Hco1, Hi1, <-!app_assoc. f_equal. simpl. f_equal.
      f_equal. by destruct k.
Qed.

Lemma failed_attempts_back_off_linearly_witness :
  connected demo_session = false ∧ ws demo_session = Some CONNECTING ∧
  timers demo_session = [] ∧ promise demo_session = Pending ∧
  (reconnectCount demo_session + Z.of_nat 3
     ≤ reconnectAttempts (config demo_session))%Z ∧
  ∃ s', run (mjoin (replicate 3 failed_attempt)) demo_session = Some s' ∧
        notifications s' =
          [InitializeFailed;
           DisconnectedFromServer; ReconnectingIn (Finite 3000);
           DisconnectedFromServer; ReconnectingIn (Finite 6000);
           DisconnectedFromServer; ReconnectingIn (Finite 9000)].
Proof.
  assert (H3 : (reconnectCount demo_session + Z.of_nat 3
                  ≤ reconnectAttempts (config demo_session))%Z)
    by (vm_compute; discriminate).
  destruct (failed_attempts_back_off_linearly 3 demo_session
              eq_refl eq_refl eq_refl eq_refl H3)
    as (s' & Hr & _ & _ & _ & _ & _ & Hn & _).
  do 4 (split; [reflexivity|]). split; [exact H3|].
  exists s'. split; [exact Hr|]. rewrite Hn. vm_compute. reflexivity.
Defined.

(** *** Messages of other users *)

Lemma send_fields f s :
  heap (send f s) = heap s ∧ messages (send f s) = messages s ∧
  messageQueue (send f s) = messageQueue s ∧
  unreadCounts (send f s) = unreadCounts s ∧
  notifications (send f s) = notifications s ∧
  rooms (send f s) = rooms s ∧ currentRoom (send f s) = currentRoom s ∧
  typingUsers (send f s) = typingUsers s.
Proof. by destruct (send_cases f s) as [-> | ->]. Qed.

(** X5: an inbound message whose sender is not the local user.  The
    message becomes a new object at the end of the store and is appended
    to the history of its room (which is then cut to the newest
    messageLimit entries); no other room and no queue entry changes.  If
    its room is the current one, a read receipt for it is handed to send
    and no unread counter moves; otherwise the unread counter of its room
    goes up by one (from 0 if the room had none), the user is told who
    wrote in which room, and nothing is sent. *)
Theorem foreign_message_is_stored_and_counted s m :
  m_userId m ≠ userId s →
  ∃ s', handleIncomingMessage (Some m) s = Returned s' ∧
    heap s' = heap s ++ [m] ∧
    JsMap.get (m_roomId m) (messages s') =
      Some (drop (length (default [] (JsMap.get (m_roomId m) (messages s))) + 1
                  - Z.to_nat (messageLimit (config s)))
              (default [] (JsMap.get (m_roomId m) (messages s))
                 ++ [length (heap s)])) ∧
    (∀ room, m_roomId m ≠ room →
       JsMap.get room (messages s') = JsMap.get room (messages s)) ∧
    messageQueue s' = messageQueue s ∧
    (currentRoom s = Some (m_roomId m) →
       unreadCounts s' = unreadCounts s ∧
       notifications s' = notifications s ∧
       wire s' = wire (send (FRead (m_id m) (Some (m_roomId m))) s)) ∧
    (currentRoom s ≠ Some (m_roomId m) →
       unreadCounts s' =
         <[m_roomId m :=
             (default 0 (unreadCounts s !! m_roomId m) + 1)%Z]>
           (unreadCounts s) ∧
       notifications s' =
         notifications s
           ++ [NewMessageFrom (m_userName m) (getRoomName (m_roomId m) s)] ∧
       wire s' = wire s).
Proof.
  intros Hother. unfold handleIncomingMessage.
  rewrite decide_False by done. unfold alloc.
  set (s0 := set_heap (heap s ++ [m]) s).
  pose proof (addMessageToRoom_history (m_roomId m) (length (heap s)) s0) as Hhist.
  pose proof (λ room, addMessageToRoom_other (m_roomId m) room
                        (length (heap s)) s0) as Hoth.
  destruct (addMessageToRoom_frame (m_roomId m) (length (heap s)) s0)
    as (Hcfg&Hws&Hcon&_&_&_&Hcur&Hrooms&_&Hun&Hq&Hh&Hwi&Hno&_).
  set (s1 := addMessageToRoom (m_roomId m) (length (heap s)) s0) in *.
  clearbody s1. simpl in Hhist, Hoth, Hcfg, Hws, Hcon, Hcur, Hrooms, Hun, Hq,
    Hh, Hwi, Hno.
  destruct (decide (currentRoom s1 = Some (m_roomId m))) as [Hin|Hout].
  - eexists. split; [reflexivity|].
    unfold markMessageAsRead. rewrite Hin.
    set (f := FRead (m_id m) (Some (m_roomId m))).
    destruct (send_fields f s1) as (->&->&->&->&->&_).
    do 4 (split; [done|]). split; [|intros; congruence].
    intros _. do 2 (split; [done|]).
    unfold send. rewrite Hcon, Hws.
    destruct (connected s), (ws s); simpl; congruence.
  - eexists. split; [reflexivity|]. simpl.
    do 4 (split; [done|]). split; [intros; congruence|].
    intros _. unfold getRoomName. simpl. by rewrite Hun, Hno, Hrooms.
Qed.

Lemma foreign_message_is_stored_and_counted_witness :
  m_userId demo_foreign ≠ userId demo_online ∧
  ∃ s', handleIncomingMessage (Some demo_foreign) demo_online = Returned s' ∧
        heap s' = [demo_foreign] ∧
        unreadCounts s' !! "r0" = Some 1%Z ∧
        wire s' = wire demo_online.
Proof.
  assert (H0 : m_userId demo_foreign ≠ userId demo_online)
    by (vm_compute; discriminate).
  destruct (foreign_message_is_stored_and_counted demo_online demo_foreign H0)
    as (s' & Hret & Hh & _ & _ & _ & _ & Hout).
  split; [exact H0|]. exists s'. split; [exact Hret|]. split; [exact Hh|].
  destruct Hout as (Hu & _ & Hw); [vm_compute; discriminate|].
  split; [|exact Hw]. rewrite Hu. apply lookup_insert_eq.
Defined.

(** *** Looking a message up *)

Lemma find_in_room_none h messageId room :
  find_in_room h messageId room = None ↔
  ∀ r, r ∈ room → m_id (h !!! r) ≠ messageId.
Proof.
  unfold find_in_room. induction room as [|r0 room IH]; simpl.
  - split; [|done]. intros _ r Hr. by apply elem_of_nil in Hr.
  - destruct (bool_decide (m_id (h !!! r0) = messageId)) eqn:Hb.
    + apply bool_decide_eq_true in Hb. split; [done|].
      intros Hall. by destruct (Hall r0); [left|].
    + apply bool_decide_eq_false in Hb. rewrite IH. split.
      * intros Hall r [->|Hr]%elem_of_cons; auto.
      * intros Hall r Hr. apply Hall. by right.
Qed.

Lemma findMessage_none messageId s :
  findMessage messageId s = None ↔
  ∀ roomId room r, (roomId, room) ∈ messages s → r ∈ room →
    m_id (deref s r) ≠ messageId.
Proof.
  unfold findMessage, deref. generalize (heap s) as h. intros h.
  induction (messages s) as [|[roomId room] ms IH]; simpl.
  - split; [|done]. intros _ ? ? ? Hin. by apply elem_of_nil in Hin.
  - destruct (find_in_room h messageId room) as [r0|] eqn:Hf.
    + split; [done|]. intros Hall.
      apply find_in_room_sound in Hf as [Hin Hid].
      by destruct (Hall roomId room r0); [left| |].
    + rewrite IH. split.
      * intros Hall roomId' room' r [[= -> ->]|Hin]%elem_of_cons Hr.
        -- by eapply find_in_room_none.
        -- by eapply Hall.
      * intros Hall roomId' room' r Hin Hr. eapply Hall; [by right | done].
Qed.

(** X6: findMessage answers null exactly when no room history holds a
    message with the id asked for; when it answers, the message it
    returns is in some room history and carries that id. *)
Theorem findMessage_finds_stored_ids messageId s :
  (findMessage messageId s = None ↔
     ∀ roomId room r, (roomId, room) ∈ messages s → r ∈ room →
       m_id (deref s r) ≠ messageId) ∧
  (∀ r, findMessage messageId s = Some r →
     ∃ roomId room, (roomId, room) ∈ messages s ∧ r ∈ room ∧
                    m_id (deref s r) = messageId).
Proof.
  split; [apply findMessage_none | intros r; apply findMessage_sound].
Qed.

Lemma findMessage_finds_stored_ids_witness :
  findMessage "msg_7" demo_sent = None ∧
  (∀ roomId room r, (roomId, room) ∈ messages demo_sent → r ∈ room →
     m_id (deref demo_sent r) ≠ "msg_7") ∧
  (∃ r, findMessage "msg_1" demo_sent = Some r ∧
        m_id (deref demo_sent r) = "msg_1").
Proof.
  assert (H0 : findMessage "msg_7" demo_sent = None)
    by (vm_compute; reflexivity).
  assert (H1 : findMessage "msg_1" demo_sent = Some 1%nat)
    by (vm_compute; reflexivity).
  destruct (findMessage_finds_stored_ids "msg_7" demo_sent) as (Hnone & _).
  destruct (findMessage_finds_stored_ids "msg_1" demo_sent) as (_ & Hsome).
  destruct (Hsome _ H1) as (_ & _ & _ & _ & Hid).
  split; [exact H0|]. split; [exact (proj1 Hnone H0)|].
  exists 1%nat. split; [exact H1 | exact Hid].
Defined.

(** *** From sending to the delivery receipt *)

Lemma jsmap_get_elem_of {K V} `{!EqDecision K} (k : K) (v : V) m :
  JsMap.get k m = Some v → (k, v) ∈ m.
Proof.
  induction m as [|[k' v'] m IH]; simpl; [done|].
  destruct (decide (k = k')) as [->|Hne].
  - intros [= ->]. left.
  - intros H. right. by apply IH.
Qed.

Lemma jsmap_set_elem_of {K V} `{!EqDecision K} (k : K) (v : V) m :
  (k, v) ∈ JsMap.set k v m.
Proof.
  induction m as [|[k' v'] m IH]; simpl; [left|].
  destruct (decide (k = k')); [left | by right].
Qed.

Lemma jsmap_elem_of_set {K V} `{!EqDecision K} (k : K) (v : V) m k' v' :
  (k', v') ∈ JsMap.set k v m → (k', v') = (k, v) ∨ (k', v') ∈ m.
Proof.
  induction m as [|[k0 v0] m IH]; simpl.
  - intros ->%list_elem_of_singleton. by left.
  - destruct (decide (k = k0)) as [->|Hne].
    + intros [->|Hin]%elem_of_cons; [by left | right; by right].
    + intros [->|Hin]%elem_of_cons; [right; left|].
      destruct (IH Hin); [by left | right; by right].
Qed.

Lemma elem_of_drop_in {A} (x : A) n l : x ∈ drop n l → x ∈ l.
Proof.
  intros Hx. rewrite <-(take_drop n l). apply elem_of_app. by right.
Qed.

Lemma addMessageToRoom_members roomId r s roomId' room' r' :
  (roomId', room') ∈ messages (addMessageToRoom roomId r s) → r' ∈ room' →
  r' = r ∨ ∃ room0, (roomId', room0) ∈ messages s ∧ r' ∈ room0.
Proof.
  unfold addMessageToRoom.
  set (s1 := if JsMap.has roomId (messages s) then s else _).
  assert (Hs1 : ∀ entry : string * list nat,
            entry ∈ messages s1 → entry = (roomId, []) ∨ entry ∈ messages s).
  { subst s1. destruct (JsMap.has _ _); simpl; [by right|].
    intros [k v]. apply jsmap_elem_of_set. }
  simpl. intros Hin Hr'.
  apply jsmap_elem_of_set in Hin as [[= -> ->]|Hin].
  - assert (Hmem : r' ∈ default [] (JsMap.get roomId (messages s1)) ++ [r]).
    { case_match; [by eapply elem_of_drop_in | done]. }
    apply elem_of_app in Hmem as [Hold | ->%list_elem_of_singleton];
      [|by left].
    destruct (JsMap.get roomId (messages s1)) as [old|] eqn:Hg; simpl in Hold;
      [|by apply elem_of_nil in Hold].
    apply jsmap_get_elem_of in Hg.
    destruct (Hs1 _ Hg) as [[= ->]|Hg']; [by apply elem_of_nil in Hold|].
    right. by exists old.
  - destruct (Hs1 _ Hin) as [[= -> ->]|Hin'];
      [by apply elem_of_nil in Hr'|].
    right. by exists room'.
Qed.

Lemma call_store s c m :
  issued s c = Some m →
  heap (call s c) = heap s ++ [m] ∧
  messages (call s c) =
    messages (addMessageToRoom (m_roomId m) (length (heap s))
                (set_heap (heap s ++ [m]) s)) ∧
  userId (call s c) = userId s.
Proof.
  unfold issued, call, sendMessage. destruct (truthy _) as [room|]; [|done].
  intros [= <-]. unfold alloc. cbv beta iota zeta. simpl m_roomId.
  set (m := Build_Message _ _ _ _ _ _ _).
  destruct (addMessageToRoom_frame room (length (heap s))
              (set_heap (heap s ++ [m]) s))
    as (_&_&_&_&Hu&_&_&_&_&_&_&Hh&_).
  set (s1 := addMessageToRoom room _ _) in *. clearbody s1. simpl in Hh, Hu.
  destruct (connected s1); simpl.
  - by destruct (send_fields (FMessage (deref s1 (length (heap s)))) s1)
      as (->&->&_), (send_socket (FMessage (deref s1 (length (heap s)))) s1)
      as (_&_&->&_).
  - done.
Qed.

(** *** send and the queue *)

(** C2 fails as stated: a frame handed to send while the connection is
    Reconnecting (a retry timer is pending) or Disconnected (no socket
    yet) is neither queued nor transmitted; the state is left as it
    was. *)
Lemma send_while_down_is_dropped :
  connState (step EvClose demo_session) = Reconnecting ∧
  send (FJoin "r1" "Abebe") (step EvClose demo_session)
    = step EvClose demo_session ∧
  ¬ (∃ r, messageQueue (send (FJoin "r1" "Abebe") (step EvClose demo_session))
          = messageQueue (step EvClose demo_session) ++ [r]) ∧
  connState (new_ChatSystem no_options) = Disconnected ∧
  send (FJoin "r1" "Abebe") (new_ChatSystem no_options)
    = new_ChatSystem no_options ∧
  ¬ (∃ r, messageQueue (send (FJoin "r1" "Abebe") (new_ChatSystem no_options))
          = messageQueue (new_ChatSystem no_options) ++ [r]).
Proof.
  assert (H1 : send (FJoin "r1" "Abebe") (step EvClose demo_session)
               = step EvClose demo_session) by (vm_compute; reflexivity).
  assert (H2 : messageQueue (step EvClose demo_session) = [])
    by (vm_compute; reflexivity).
  split; [vm_compute; reflexivity|]. split; [exact H1|]. split.
  { rewrite H1, H2. intros [r Hr]. by destruct (app_cons_not_nil [] [] r). }
  split; [vm_compute; reflexivity|]. split; [reflexivity|].
  intros [r Hr]. simpl in Hr. by destruct (app_cons_not_nil [] [] r).
Qed.

(** C2, amended: send transmits the frame at once when the connection is
    marked connected and a socket exists; otherwise it returns without
    any effect, so the frame is discarded.  Only sendMessage queues: a
    chat message issued while not connected becomes a new message
    object, is appended to the history of its room (which is then cut
    to the newest messageLimit entries, so that under a limit of at
    least one it is the last entry), is put at the back of the queue
    and is not transmitted; no other room changes. *)
Theorem send_transmits_or_discards s f :
  (connected s = true → is_Some (ws s) →
     send f s = set_wire (wire s ++ [f]) s) ∧
  (connected s = false ∨ ws s = None → send f s = s) ∧
  (∀ c m, connected s = false → issued s c = Some m →
     wire (call s c) = wire s ∧
     heap (call s c) = heap s ++ [m] ∧
     JsMap.get (m_roomId m) (messages (call s c)) =
       Some (drop (length (default [] (JsMap.get (m_roomId m) (messages s)))
                   + 1 - Z.to_nat (messageLimit (config s)))
               (default [] (JsMap.get (m_roomId m) (messages s))
                  ++ [length (heap s)])) ∧
     ((1 ≤ messageLimit (config s))%Z →
        ∃ history, JsMap.get (m_roomId m) (messages (call s c))
                     = Some history ∧
                   last history = Some (length (heap s))) ∧
     (∀ room, m_roomId m ≠ room →
        JsMap.get room (messages (call s c)) = JsMap.get room (messages s)) ∧
     messageQueue (call s c) = messageQueue s ++ [length (heap s)] ∧
     notifications (call s c) = notifications s ++ [MessageQueuedOffline]).
Proof.
  split; [apply send_online|]. split.
  - intros [Hc|Hw]; unfold send; [by rewrite Hc|].
    rewrite Hw. by destruct (connected s).
  - intros c m Hc Hi.
    destruct (call_offline s c Hc) as (_&_&_&_&_&_&Hwi&_&_&_&Hh&Hq&Hn).
    rewrite Hi in Hh, Hq, Hn.
    destruct (call_store s c m Hi) as (_ & Hm & _).
    pose proof (addMessageToRoom_history (m_roomId m) (length (heap s))
                  (set_heap (heap s ++ [m]) s)) as Hhist.
    rewrite <-Hm in Hhist.
    change (messages (set_heap (heap s ++ [m]) s)) with (messages s) in Hhist.
    change (config (set_heap (heap s ++ [m]) s)) with (config s) in Hhist.
    split; [exact Hwi|]. split; [exact Hh|]. split; [exact Hhist|].
    split.
    { intros Hlim. eexists. split; [exact Hhist|].
      set (old := default [] _).
      rewrite drop_app_le by lia. by rewrite last_snoc. }
    split.
    { intros room Hne. rewrite Hm.
      exact (addMessageToRoom_other (m_roomId m) room (length (heap s))
               (set_heap (heap s ++ [m]) s) Hne). }
    split; [exact Hq | exact Hn].
Qed.

Lemma send_transmits_or_discards_witness :
  connected demo_session = false ∧
  send FPong demo_session = demo_session ∧
  messageQueue (call demo_session (Build_Call "selam" None "msg_1" 10))
    = [0%nat] ∧
  wire (call demo_session (Build_Call "selam" None "msg_1" 10)) = [] ∧
  JsMap.get "r1"
    (messages (call demo_session (Build_Call "selam" None "msg_1" 10)))
    = Some [0%nat].
Proof.
  destruct (send_transmits_or_discards demo_session FPong)
    as (_ & Hdrop & Hq).
  split; [reflexivity|]. split; [apply Hdrop; by left|].
  destruct (Hq (Build_Call "selam" None "msg_1" 10) _ eq_refl eq_refl)
    as (Hw & _ & Hroom & _ & _ & Hmq & _).
  split; [exact Hmq|]. split; [exact Hw | exact Hroom].
Defined.

(** X7: from sending to the delivery receipt.  Take a message sent with
    sendMessage (connected or not) under a limit of at least one message
    per room, with an id no stored message has yet.  Then findMessage
    finds exactly this message under its id, and when a frame echoes it
    back with the local user as sender, its status, and nothing else in
    it, becomes 'delivered'. *)
Theorem sent_message_gets_delivered s c m echo :
  issued s c = Some m →
  (1 ≤ messageLimit (config s))%Z →
  histories_allocated s →
  findMessage (c_id c) s = None →
  m_id echo = c_id c → m_userId echo = userId s →
  findMessage (c_id c) (call s c) = Some (length (heap s)) ∧
  heap (call s c) !! length (heap s) = Some m ∧
  ∃ s', handleIncomingMessage (Some echo) (call s c) = Returned s' ∧
        heap s' !! length (heap s) = Some (with_status "delivered" m).
Proof.
  intros Hi Hlim Halloc Hfresh Hid Hown.
  destruct (call_store s c m Hi) as (Hh & Hm & Hu).
  assert (Hmid : m_id m = c_id c).
  { unfold issued in Hi. case_match; [|done]. by injection Hi as <-. }
  set (r := length (heap s)) in *.
  assert (Hlook : heap (call s c) !! r = Some m).
  { rewrite Hh. by rewrite lookup_app_r, Nat.sub_diag by (unfold r; lia). }
  assert (Hfind : findMessage (c_id c) (call s c) = Some r).
  { pose proof (findMessage_none (c_id c) (call s c)) as Hnone.
    pose proof (findMessage_sound (c_id c) (call s c)) as Hsome.
    destruct (findMessage (c_id c) (call s c)) as [r'|] eqn:Hf.
    - destruct (Hsome r' eq_refl) as (roomId & room & Hin & Hr' & Hid').
      rewrite Hm in Hin.
      destruct (addMessageToRoom_members _ _ _ _ _ _ Hin Hr')
        as [->|(room0 & Hin0 & Hr0)]; [done|].
      exfalso. simpl in Hin0.
      pose proof (findMessage_none (c_id c) s) as Hnone0.
      apply (proj1 Hnone0 Hfresh roomId room0 r' Hin0 Hr0).
      rewrite <-Hid'. unfold deref. rewrite Hh.
      by rewrite lookup_total_app_l by (by eapply Halloc).
    - exfalso.
      pose proof (addMessageToRoom_history (m_roomId m) r
                    (set_heap (heap s ++ [m]) s)) as Hhist.
      rewrite <-Hm in Hhist. apply jsmap_get_elem_of in Hhist.
      apply (proj1 Hnone eq_refl _ _ r Hhist).
      + simpl. rewrite drop_app_le by lia. apply elem_of_app. right. left.
      + unfold deref. by rewrite (list_lookup_total_correct _ _ _ Hlook). }
  split; [exact Hfind|]. split; [exact Hlook|].
  eexists. split.
  { unfold handleIncomingMessage. rewrite decide_True by congruence.
    reflexivity. }
  unfold updateMessageStatus. rewrite Hid, Hfind. simpl.
  by rewrite list_lookup_alter_eq, Hlook.
Qed.

Lemma sent_message_gets_delivered_witness :
  issued demo_online (Build_Call "selam" None "msg_1" 10)
    = Some (with_status "sending" demo_echo) ∧
  (1 ≤ messageLimit (config demo_online))%Z ∧
  histories_allocated demo_online ∧
  findMessage "msg_1" demo_online = None ∧
  ∃ s', handleIncomingMessage (Some demo_echo)
          (call demo_online (Build_Call "selam" None "msg_1" 10))
          = Returned s' ∧
        heap s' !! 0%nat = Some (with_status "delivered" demo_echo).
Proof.
  assert (H0 : issued demo_online (Build_Call "selam" None "msg_1" 10)
               = Some (with_status "sending" demo_echo))
    by (vm_compute; reflexivity).
  assert (H1 : (1 ≤ messageLimit (config demo_online))%Z)
    by (vm_compute; discriminate).
  assert (H2 : histories_allocated demo_online).
  { intros roomId room r Hin. vm_compute in Hin. by apply elem_of_nil in Hin. }
  assert (H3 : findMessage "msg_1" demo_online = None)
    by (vm_compute; reflexivity).
  destruct (sent_message_gets_delivered demo_online
              (Build_Call "selam" None "msg_1" 10)
              (with_status "sending" demo_echo) demo_echo H0 H1 H2 H3)
    as (_ & _ & s' & Hret & Hst); [reflexivity | vm_compute; reflexivity |].
  split; [exact H0|]. split; [exact H1|]. split; [exact H2|].
  split; [exact H3|]. exists s'. split; [exact Hret|].
  assert (Hlen : length (heap demo_online) = 0%nat) by (vm_compute; reflexivity).
  rewrite Hlen in Hst. exact Hst.
Defined.

(** *** Leaving all rooms, and coming back online *)

Lemma leave_if_member_wire (rs : list (string * Room)) : ∀ s,
  connected s = true → is_Some (ws s) →
  wire (foldl leave_if_member s rs) =
    wire s ++ (FLeave ∘ fst
                 <$> filter (λ entry, userId s ∈ str <$> r_participants entry.2) rs).
Proof.
  induction rs as [|entry rs IH]; intros s Hc Hw; simpl.
  - by rewrite app_nil_r.
  - rewrite filter_cons. unfold leave_if_member at 2.
    destruct (decide (userId s ∈ str <$> r_participants entry.2)) as [Hin|Hnin].
    + rewrite bool_decide_true by done.
      rewrite send_online by done.
      rewrite IH by done. simpl. by rewrite <-app_assoc.
    + rewrite bool_decide_false by done. by apply IH.
Qed.

(** X8: leaveAllRooms, connected, sends one leave frame for each room
    whose participant list contains the local user, in the order in which
    the rooms were added, and none for the other rooms; while the socket
    is down it sends nothing at all, so the server is never told.  The
    message objects, the offline queue and the unread counters are left
    as they are. *)
Theorem leaveAllRooms_notifies_joined_rooms s :
  (connected s = true → is_Some (ws s) →
     wire (leaveAllRooms s) = wire s ++ (FLeave <$> joined_rooms s)) ∧
  (connected s = false → wire (leaveAllRooms s) = wire s) ∧
  heap (leaveAllRooms s) = heap s ∧
  messageQueue (leaveAllRooms s) = messageQueue s ∧
  unreadCounts (leaveAllRooms s) = unreadCounts s.
Proof.
  unfold leaveAllRooms, joined_rooms. simpl. repeat apply conj.
  - intros Hc Hw. rewrite leave_if_member_wire by done.
    by rewrite list_fmap_compose.
  - intros Hc. by rewrite leave_if_member_offline.
  - by destruct (leave_if_member_fields (rooms s) s) as (_&_&->&_).
  - by destruct (leave_if_member_socket (rooms s) s) as (_&_&_&_&->&_).
  - generalize (rooms s) as rs. intros rs. revert s.
    induction rs as [|entry rs IH]; intros s; simpl; [done|].
    rewrite IH. unfold leave_if_member. destruct (bool_decide _); [|done].
    by destruct (send_fields (FLeave entry.1) s) as (_&_&_&->&_).
Qed.

Lemma leaveAllRooms_notifies_joined_rooms_witness :
  connected demo_member = true ∧ is_Some (ws demo_member) ∧
  joined_rooms demo_member = ["r1"; "r3"] ∧
  wire (leaveAllRooms demo_member)
    = wire demo_member ++ [FLeave "r1"; FLeave "r3"].
Proof.
  destruct (leaveAllRooms_notifies_joined_rooms demo_member) as (Hon & _).
  assert (H0 : connected demo_member = true) by (vm_compute; reflexivity).
  assert (H1 : is_Some (ws demo_member)) by (vm_compute; by eexists).
  assert (H2 : joined_rooms demo_member = ["r1"; "r3"])
    by (vm_compute; reflexivity).
  split; [exact H0|]. split; [exact H1|]. split; [exact H2|].
  rewrite (Hon H0 H1), H2. reflexivity.
Defined.

(** X9: in a session the window's online event never transmits
    anything.  Its handler only flushes the queue when the connection is
    marked connected, and then the queue is empty; so all it does is show
    the back-online notice.  Queued messages wait for the socket to
    reopen. *)
Theorem online_event_sends_nothing :
  (∀ s, (connected s = true → messageQueue s = []) →
     window_online s = notify BackOnline s) ∧
  (∀ s, reachable s → step EvOnline s = notify BackOnline s).
Proof.
  assert (H : ∀ s, (connected s = true → messageQueue s = []) →
     window_online s = notify BackOnline s).
  { intros s Hinv. unfold window_online, processMessageQueue. simpl.
    destruct (connected s); simpl; [|done]. by rewrite Hinv. }
  split; [exact H|].
  intros s (o & uid & uname & gen & saved & es & Hr). apply H.
  apply (run_queue_empty _ _ _ Hr). intros _. apply start_spec.
Qed.

Lemma online_event_sends_nothing_witness :
  connected (sendMessages demo_calls demo_session) = false ∧
  length (messageQueue (sendMessages demo_calls demo_session)) = 2%nat ∧
  wire (window_online (sendMessages demo_calls demo_session)) = [] ∧
  messageQueue (window_online (sendMessages demo_calls demo_session))
    = messageQueue (sendMessages demo_calls demo_session).
Proof.
  destruct online_event_sends_nothing as (H & _).
  assert (H0 : connected (sendMessages demo_calls demo_session) = false)
    by (vm_compute; reflexivity).
  split; [exact H0|]. split; [vm_compute; reflexivity|].
  rewrite H by (rewrite H0; discriminate).
  split; vm_compute; reflexivity.
Defined.

End ChatInvariants.

(** ** JavaScript Map: keys and values *)

Section JsMapKeys.
Context {K V : Type} `{!EqDecision K}.
Implicit Types (k : K) (v : V) (m : list (K * V)).

Lemma jsmap_get_none k m : JsMap.get k m = None ↔ k ∉ m.*1.
Proof.
  induction m as [|[k' v'] m IH]; simpl.
  - split; [intros _; apply not_elem_of_nil | done].
  - destruct (decide (k = k')) as [->|Hne].
    + split; [done|]. intros Hn. destruct Hn. left.
    + rewrite IH, not_elem_of_cons. split; [by intros ? | by intros [_ ?]].
Qed.

Lemma jsmap_get_delete_ne k k' m :
  k ≠ k' → JsMap.get k' (JsMap.delete k m) = JsMap.get k' m.
Proof.
  intros Hne. induction m as [|[k0 v0] m IH]; simpl; [done|].
  destruct (decide (k = k0)) as [->|Hk]; simpl.
  - by rewrite decide_False.
  - by rewrite IH.
Qed.

Lemma jsmap_get_delete_eq k m :
  NoDup m.*1 → JsMap.get k (JsMap.delete k m) = None.
Proof.
  induction m as [|[k0 v0] m IH]; simpl; [done|].
  intros [Hnin Hnd]%NoDup_cons.
  destruct (decide (k = k0)) as [->|Hk]; simpl.
  - by apply jsmap_get_none.
  - rewrite decide_False by done. by apply IH.
Qed.

Lemma jsmap_delete_none k m :
  JsMap.get k m = None → JsMap.delete k m = m.
Proof.
  induction m as [|[k0 v0] m IH]; simpl; [done|].
  destruct (decide (k = k0)); [done|]. intros Hg. by rewrite IH.
Qed.

Lemma jsmap_delete_sublist k m : JsMap.delete k m `sublist_of` m.
Proof.
  induction m as [|[k0 v0] m IH]; simpl; [done|].
  destruct (decide (k = k0)); [by apply sublist_cons | by apply sublist_skip].
Qed.

Lemma jsmap_set_keys k v m :
  (JsMap.set k v m).*1 = if JsMap.has k m then m.*1 else m.*1 ++ [k].
Proof.
  unfold JsMap.has. induction m as [|[k0 v0] m IH]; csimpl; [done|].
  destruct (decide (k = k0)) as [->|Hne]; csimpl; [done|].
  rewrite IH. by destruct (JsMap.get k m).
Qed.

Lemma jsmap_set_values k v m x :
  x ∈ (JsMap.set k v m).*2 → x = v ∨ x ∈ m.*2.
Proof.
  induction m as [|[k0 v0] m IH]; simpl.
  - intros ->%list_elem_of_singleton. by left.
  - destruct (decide (k = k0)) as [->|Hne]; simpl.
    + intros [->|Hin]%elem_of_cons; [by left | right; by right].
    + intros [->|Hin]%elem_of_cons; [right; left|].
      destruct (IH Hin); [by left | right; by right].
Qed.

Lemma jsmap_set_NoDup_keys k v m : NoDup m.*1 → NoDup (JsMap.set k v m).*1.
Proof.
  intros Hnd. rewrite jsmap_set_keys. unfold JsMap.has.
  destruct (JsMap.get k m) eqn:Hg; [done|].
  apply NoDup_app. split; [done|]. split; [|apply NoDup_singleton].
  intros x Hx ->%list_elem_of_singleton. by apply jsmap_get_none in Hg.
Qed.

Lemma jsmap_set_NoDup_values k v m :
  NoDup m.*2 → v ∉ m.*2 → NoDup (JsMap.set k v m).*2.
Proof.
  induction m as [|[k0 v0] m IH]; simpl; intros Hnd Hv.
  - apply NoDup_singleton.
  - apply NoDup_cons in Hnd as [Hnin Hnd].
    apply not_elem_of_cons in Hv as [Hne Hv].
    destruct (decide (k = k0)) as [->|Hk]; simpl.
    + apply NoDup_cons. by split.
    + apply NoDup_cons. split; [|by apply IH].
      intros [->|Hin]%jsmap_set_values; done.
Qed.
End JsMapKeys.

(** ** ChatSystem: leaving one room *)

Section ChatRooms.
Import Chat.
Implicit Types (s : ChatSystem).

Lemma leaveRoom_cases (rid : string) s :
  rid ≠ "" →
  ∃ s1, s1 = (if decide (currentRoom s = Some rid)
              then set_currentRoom None (send (FLeave rid) s)
              else send (FLeave rid) s) ∧
    rooms s1 = rooms s ∧ messages s1 = messages s ∧
    leaveRoom (Some rid) s =
      match JsMap.get rid (rooms s) with
      | Some room =>
          if String.eqb (r_type room) "temporary"
          then set_messages (JsMap.delete rid (messages s))
                 (set_rooms (JsMap.delete rid (rooms s)) s1)
          else s1
      | None => s1
      end.
Proof.
  intros Hne. unfold leaveRoom, truthy.
  rewrite (decide_False (P := rid = "")) by done. cbv zeta.
  destruct (send_fields (FLeave rid) s) as (_ & Hm & _ & _ & _ & Hr & Hc & _).
  rewrite Hc.
  set (s0 := send (FLeave rid) s) in *. clearbody s0.
  eexists. split; [reflexivity|].
  destruct (decide (currentRoom s = Some rid)); simpl;
    rewrite ?Hr, ?Hm; repeat split.
Qed.

(** X16: leaving one room.  A falsy room id makes leaveRoom do nothing.
    Otherwise the leave frame is handed to send, the current room is
    cleared if it is the room left, and the room and its history are
    removed only if the room is known and temporary; every other room and
    history is untouched, and a room that is not temporary stays listed
    with its history.  The unread counters and the typing lists are never
    touched. *)
Theorem leaveRoom_forgets_only_temporary_rooms :
  (∀ s, leaveRoom None s = s ∧ leaveRoom (Some "") s = s) ∧
  (∀ s (rid : string),
     rid ≠ "" → NoDup (rooms s).*1 → NoDup (messages s).*1 →
     (∀ other, other ≠ rid →
        JsMap.get other (rooms (leaveRoom (Some rid) s))
          = JsMap.get other (rooms s) ∧
        JsMap.get other (messages (leaveRoom (Some rid) s))
          = JsMap.get other (messages s)) ∧
     (∀ room, JsMap.get rid (rooms s) = Some room →
        r_type room = "temporary" →
        JsMap.get rid (rooms (leaveRoom (Some rid) s)) = None ∧
        JsMap.get rid (messages (leaveRoom (Some rid) s)) = None) ∧
     ((∀ room, JsMap.get rid (rooms s) = Some room →
         r_type room ≠ "temporary") →
        rooms (leaveRoom (Some rid) s) = rooms s ∧
        messages (leaveRoom (Some rid) s) = messages s) ∧
     currentRoom (leaveRoom (Some rid) s)
       = (if decide (currentRoom s = Some rid) then None else currentRoom s) ∧
     wire (leaveRoom (Some rid) s) = wire (send (FLeave rid) s) ∧
     unreadCounts (leaveRoom (Some rid) s) = unreadCounts s ∧
     typingUsers (leaveRoom (Some rid) s) = typingUsers s ∧
     heap (leaveRoom (Some rid) s) = heap s).
Proof.
  split; [done|].
  intros s rid Hne Hrooms Hmsgs.
  destruct (leaveRoom_cases rid s Hne) as (s1 & Hs1 & Hr & Hm & ->).
  destruct (send_fields (FLeave rid) s)
    as (Hh & _ & _ & Hu & _ & _ & Hc & Ht).
  assert (Hrest : currentRoom s1
            = (if decide (currentRoom s = Some rid) then None
               else currentRoom s) ∧
          wire s1 = wire (send (FLeave rid) s) ∧
          unreadCounts s1 = unreadCounts s ∧
          typingUsers s1 = typingUsers s ∧ heap s1 = heap s).
  { rewrite Hs1. by destruct (decide (currentRoom s = Some rid)). }
  clear Hs1 Hh Hu Hc Ht.
  set (s0 := send (FLeave rid) s) in *. clearbody s0.
  destruct (JsMap.get rid (rooms s)) as [room|] eqn:Hg.
  - destruct (String.eqb (r_type room) "temporary") eqn:Ht.
    + apply String.eqb_eq in Ht. simpl.
      split.
      { intros other Ho. by rewrite !jsmap_get_delete_ne. }
      split.
      { intros _ _ _. by rewrite !jsmap_get_delete_eq. }
      split; [|done].
      intros Hnot. by destruct (Hnot room).
    + apply String.eqb_neq in Ht. rewrite Hr, Hm.
      split; [done|]. split; [|done].
      intros room' [= <-] Ht'. by destruct Ht.
  - rewrite Hr, Hm. split; [done|]. split; [|done]. by intros room' [=].
Qed.

Lemma leaveRoom_forgets_only_temporary_rooms_witness :
  NoDup (rooms demo_member).*1 ∧ NoDup (messages demo_member).*1 ∧
  (rooms (leaveRoom (Some "r3") demo_member)).*1 = ["r1"; "r2"] ∧
  (messages (leaveRoom (Some "r3") demo_member)).*1 = ["r1"] ∧
  rooms (leaveRoom (Some "r1") demo_member) = rooms demo_member ∧
  messages (leaveRoom (Some "r1") demo_member) = messages demo_member.
Proof.
  assert (H0 : NoDup (rooms demo_member).*1)
    by (apply (bool_decide_unpack _); vm_compute; exact I).
  assert (H1 : NoDup (messages demo_member).*1)
    by (apply (bool_decide_unpack _); vm_compute; exact I).
  assert (Hne : "r1" ≠ "") by discriminate.
  destruct leaveRoom_forgets_only_temporary_rooms as (_ & Hleave).
  destruct (Hleave demo_member "r1" Hne H0 H1) as (_ & _ & Hkeep & _).
  split; [exact H0|]. split; [exact H1|].
  split; [vm_compute; reflexivity|]. split; [vm_compute; reflexivity|].
  apply Hkeep. intros room Hg.
  assert (Hr1 : JsMap.get "r1" (rooms demo_member)
            = Some {| r_id := "r1"; r_name := "General"; r_type := "group";
                      r_participants := ["u1"; "u2"] |})
    by (vm_compute; reflexivity).
  rewrite Hr1 in Hg. injection Hg as <-. discriminate.
Defined.

End ChatRooms.

(** ** Teardown of both classes *)

Section Teardown.
Import Media.

(** C9 fails as stated: after the media room has been left, and after
    the chat has left all its rooms, the socket is as open as it was. *)
Lemma leaving_keeps_the_socket_open :
  Media.signaling Media.demo_call = Some Media.OPEN ∧
  (∃ s', Media.leaveRoom Media.demo_call = Media.Returned s' ∧
         Media.signaling s' = Some Media.OPEN) ∧
  Chat.ws Chat.demo_online = Some Chat.OPEN ∧
  Chat.ws (Chat.leaveAllRooms Chat.demo_online) = Some Chat.OPEN ∧
  Chat.connected (Chat.leaveAllRooms Chat.demo_online) = true.
Proof.
  split; [vm_compute; reflexivity|]. split.
  - eexists. split; vm_compute; reflexivity.
  - repeat apply conj; vm_compute; reflexivity.
Qed.

(** C9, amended: when leaveRoom of the media room returns, every
    session registered in the map of peer connections has been closed
    and the map is empty, every track of the local stream and of the
    screen stream has been stopped, and the participants and the room
    id are cleared; the signalling socket is not closed: a leave frame
    is sent over it if it is open, and it stays as it was.
    leaveAllRooms of the chat hands a leave frame to send for each room
    whose participants include the local user (transmitted only while
    connected), clears the current room, all rooms and all histories,
    and keeps the socket as it was.  leaveRoom of the chat, for a
    non-empty room id, hands one leave frame for that room to send,
    clears the current room if it is that room, removes the room and
    its history only if the room is known and temporary and keeps both
    otherwise, and keeps the socket as it was. *)
Theorem teardown_closes_sessions_keeps_socket :
  (∀ s, Media.signaling s ≠ Some Media.CONNECTING →
     ∃ s', Media.leaveRoom s = Media.Returned s' ∧
       Media.peerConnections s' = [] ∧
       (∀ uid r pc, (uid, r) ∈ Media.peerConnections s →
          Media.pcs s !! r = Some pc →
          Media.pcs s' !! r = Some (Media.close pc)) ∧
       (∀ st t, Media.localStream s = Some st → t ∈ st →
          Media.t_id t ∈ Media.ended s') ∧
       (∀ st t, Media.screenStream s = Some st → t ∈ st →
          Media.t_id t ∈ Media.ended s') ∧
       Media.participants s' = [] ∧ Media.roomId s' = None ∧
       Media.signaling s' = Media.signaling s ∧
       Media.wire s' =
         Media.wire s ++ (if decide (Media.signaling s = Some Media.OPEN)
                          then [Media.FLeave (Media.roomId s)] else [])) ∧
  (∀ c, Chat.rooms (Chat.leaveAllRooms c) = [] ∧
        Chat.messages (Chat.leaveAllRooms c) = [] ∧
        Chat.currentRoom (Chat.leaveAllRooms c) = None ∧
        Chat.ws (Chat.leaveAllRooms c) = Chat.ws c ∧
        Chat.connected (Chat.leaveAllRooms c) = Chat.connected c ∧
        (Chat.connected c = true → is_Some (Chat.ws c) →
           Chat.wire (Chat.leaveAllRooms c) =
             Chat.wire c ++ (Chat.FLeave <$> Chat.joined_rooms c)) ∧
        (Chat.connected c = false →
           Chat.wire (Chat.leaveAllRooms c) = Chat.wire c)) ∧
  (∀ c (rid : string), rid ≠ "" →
        Chat.ws (Chat.leaveRoom (Some rid) c) = Chat.ws c ∧
        Chat.connected (Chat.leaveRoom (Some rid) c) = Chat.connected c ∧
        Chat.wire (Chat.leaveRoom (Some rid) c)
          = Chat.wire (Chat.send (Chat.FLeave rid) c) ∧
        (Chat.connected c = true → is_Some (Chat.ws c) →
           Chat.wire (Chat.leaveRoom (Some rid) c)
             = Chat.wire c ++ [Chat.FLeave rid]) ∧
        (Chat.connected c = false →
           Chat.wire (Chat.leaveRoom (Some rid) c) = Chat.wire c) ∧
        Chat.currentRoom (Chat.leaveRoom (Some rid) c)
          = (if decide (Chat.currentRoom c = Some rid) then None
             else Chat.currentRoom c) ∧
        (∀ room, JsMap.get rid (Chat.rooms c) = Some room →
           Chat.r_type room = "temporary" →
           Chat.rooms (Chat.leaveRoom (Some rid) c)
             = JsMap.delete rid (Chat.rooms c) ∧
           Chat.messages (Chat.leaveRoom (Some rid) c)
             = JsMap.delete rid (Chat.messages c)) ∧
        ((∀ room, JsMap.get rid (Chat.rooms c) = Some room →
            Chat.r_type room ≠ "temporary") →
           Chat.rooms (Chat.leaveRoom (Some rid) c) = Chat.rooms c ∧
           Chat.messages (Chat.leaveRoom (Some rid) c) = Chat.messages c)).
Proof.
  split; [|split].
  - intros s Hsig.
    destruct (leaveRoom_spec s Hsig)
      as (s' & Hret & Hmap & Hpart & Hroom & _ & Hs & Hwire & Hpcs & Hend).
    exists s'. split; [exact Hret|]. split; [exact Hmap|].
    split.
    { intros uid r pc Hin Hpc. rewrite Hpcs.
      rewrite decide_True by (by eapply registered_ref). by rewrite Hpc. }
    split.
    { intros st t Hst Hin. rewrite Hend, Hst. simpl.
      apply elem_of_union_l, elem_of_union_r, elem_of_list_to_set.
      apply list_elem_of_fmap. by exists t. }
    split.
    { intros st t Hst Hin. rewrite Hend, Hst. simpl.
      apply elem_of_union_r, elem_of_list_to_set.
      apply list_elem_of_fmap. by exists t. }
    by do 3 (split; [done|]).
  - intros c.
    destruct (leaveAllRooms_spec c) as (?&?&?&?&?&_).
    do 5 (split; [done|]).
    unfold Chat.leaveAllRooms, Chat.joined_rooms. simpl. split.
    + intros Hc Hw. rewrite leave_if_member_wire by done.
      by rewrite list_fmap_compose.
    + intros Hc. by rewrite leave_if_member_offline.
  - intros c rid Hne.
    destruct (leaveRoom_socket (Some rid) c) as (Hws & Hcon).
    split; [exact Hws|]. split; [exact Hcon|].
    destruct (leaveRoom_cases rid c Hne) as (s1 & Hs1 & Hr & Hm & Hl).
    assert (Hrest : Chat.currentRoom s1
              = (if decide (Chat.currentRoom c = Some rid) then None
                 else Chat.currentRoom c) ∧
            Chat.wire s1 = Chat.wire (Chat.send (Chat.FLeave rid) c)).
    { rewrite Hs1.
      destruct (send_fields (Chat.FLeave rid) c) as (_&_&_&_&_&_&Hcur&_).
      by destruct (decide (Chat.currentRoom c = Some rid)). }
    destruct Hrest as (Hcur & Hwire).
    assert (Hfields : Chat.wire (Chat.leaveRoom (Some rid) c) = Chat.wire s1 ∧
              Chat.currentRoom (Chat.leaveRoom (Some rid) c)
                = Chat.currentRoom s1).
    { rewrite Hl. destruct (JsMap.get rid (Chat.rooms c)); [|done].
      by destruct (String.eqb _ _). }
    destruct Hfields as (-> & ->).
    split; [exact Hwire|]. split.
    { intros Hc Hw. rewrite Hwire. by rewrite send_online. }
    split.
    { intros Hc. rewrite Hwire. by rewrite send_offline. }
    split; [exact Hcur|]. rewrite Hl. split.
    + intros room Hg Ht. rewrite Hg.
      by rewrite (proj2 (String.eqb_eq _ _) Ht).
    + intros Hnot. destruct (JsMap.get rid (Chat.rooms c)) as [room|] eqn:Hg;
        [|done].
      by rewrite (proj2 (String.eqb_neq _ _) (Hnot room eq_refl)).
Qed.

Lemma teardown_closes_sessions_keeps_socket_witness :
  Media.signaling Media.demo_sharing ≠ Some Media.CONNECTING ∧
  (∃ s', Media.leaveRoom Media.demo_sharing = Media.Returned s' ∧
    Media.peerConnections s' = [] ∧
    (∃ pc, Media.pcs Media.demo_sharing !! 0%nat = Some pc ∧
           Media.pcs s' !! 0%nat = Some (Media.close pc)) ∧
    Media.t_id Media.camera ∈ Media.ended s' ∧
    Media.t_id Media.screen ∈ Media.ended s' ∧
    Media.signaling s' = Some Media.OPEN) ∧
  Chat.wire (Chat.leaveRoom (Some "r1") Chat.demo_member)
    = Chat.wire Chat.demo_member ++ [Chat.FLeave "r1"] ∧
  Chat.rooms (Chat.leaveRoom (Some "r1") Chat.demo_member)
    = Chat.rooms Chat.demo_member.
Proof.
  assert (H0 : Media.signaling Media.demo_sharing ≠ Some Media.CONNECTING)
    by (vm_compute; discriminate).
  destruct teardown_closes_sessions_keeps_socket as (Hleave & _ & Hroom).
  destruct (Hleave Media.demo_sharing H0)
    as (s' & Hret & Hmap & Hpcs & Hloc & Hscr & _ & _ & Hsig & _).
  split; [exact H0|]. split.
  { exists s'.
    split; [exact Hret|]. split; [exact Hmap|]. split.
    - exists (Media.demo_pc "p1" Media.screen).
      assert (Hpc : Media.pcs Media.demo_sharing !! 0%nat
                    = Some (Media.demo_pc "p1" Media.screen))
        by (vm_compute; reflexivity).
      split; [exact Hpc|].
      apply (Hpcs (Some "p1") 0%nat); [vm_compute; left | exact Hpc].
    - split; [|split].
      + apply (Hloc [Media.microphone; Media.camera]);
          [vm_compute; reflexivity | right; left].
      + apply (Hscr [Media.screen]); [vm_compute; reflexivity | left].
      + rewrite Hsig. vm_compute. reflexivity. }
  assert (Hne : "r1" ≠ "") by discriminate.
  assert (Hc : Chat.connected Chat.demo_member = true)
    by (vm_compute; reflexivity).
  assert (Hw : is_Some (Chat.ws Chat.demo_member))
    by (vm_compute; by eexists).
  destruct (Hroom Chat.demo_member "r1" Hne)
    as (_ & _ & _ & Hwire & _ & _ & _ & Hkeep).
  split; [exact (Hwire Hc Hw)|].
  apply Hkeep. intros room Hg.
  assert (Hr1 : JsMap.get "r1" (Chat.rooms Chat.demo_member)
            = Some {| Chat.r_id := "r1"; Chat.r_name := "General";
                      Chat.r_type := "group";
                      Chat.r_participants := ["u1"; "u2"] |})
    by (vm_compute; reflexivity).
  rewrite Hr1 in Hg. injection Hg as <-. discriminate.
Defined.

End Teardown.

(** ** MediaRoom: the registry of sessions *)

Section MediaInvariants.
Import Media.
Implicit Types (s : MediaRoom) (pc : PeerConnection) (t : Track).

Lemma foldl_alter_length (f : PeerConnection → PeerConnection)
    (entries : list (option string * nat)) : ∀ objs : list PeerConnection,
  length (foldl (λ objs entry, alter f entry.2 objs) objs entries)
    = length objs.
Proof.
  induction entries as [|entry entries IH]; intros objs; simpl; [done|].
  by rewrite IH, length_alter.
Qed.

Lemma registry_consistent_ext s s' :
  peerConnections s' = peerConnections s → length (pcs s') = length (pcs s) →
  registry_consistent s → registry_consistent s'.
Proof. unfold registry_consistent. by intros -> ->. Qed.

Lemma createPeerConnection_consistent (uid : option string) s :
  registry_consistent s → registry_consistent (createPeerConnection uid s).2.
Proof.
  intros (Hk & Hv & Hb). unfold registry_consistent, createPeerConnection.
  simpl. rewrite length_app. simpl.
  assert (Hfresh : length (pcs s) ∉ (peerConnections s).*2).
  { intros Hin. rewrite Forall_forall in Hb. specialize (Hb _ Hin). lia. }
  split; [by apply jsmap_set_NoDup_keys|].
  split; [by apply jsmap_set_NoDup_values|].
  apply Forall_forall. intros r [->|Hin]%jsmap_set_values; [lia|].
  rewrite Forall_forall in Hb. specialize (Hb _ Hin). lia.
Qed.

Lemma signaling_send_registry f s :
  peerConnections (after (signaling_send f s)) = peerConnections s ∧
  pcs (after (signaling_send f s)) = pcs s.
Proof. unfold signaling_send. by repeat case_match. Qed.

Lemma leaveRoom_connections s :
  peerConnections (after (leaveRoom s)) = [] ∧
  pcs (after (leaveRoom s)) = pcs (forEach_pc close s).
Proof.
  unfold leaveRoom, signaling_send. simpl.
  destruct (signaling s) as [[]|]; simpl; try done;
    destruct (localStream s); simpl; by destruct (screenStream s).
Qed.

Lemma new_MediaRoom_consistent : registry_consistent new_MediaRoom.
Proof. unfold registry_consistent. simpl. repeat split; constructor. Qed.

Lemma handleParticipantJoin_consistent p s :
  registry_consistent s → registry_consistent (handleParticipantJoin p s).
Proof.
  intros Hrc. unfold handleParticipantJoin.
  set (s0 := set_participants _ s).
  assert (H0 : registry_consistent s0) by done.
  pose proof (createPeerConnection_consistent (g_userId p) s0 H0) as H1.
  destruct (createPeerConnection (g_userId p) s0) as [r s1]. simpl in *.
  by eapply registry_consistent_ext; [| |exact H1].
Qed.

Lemma demo_room_consistent : registry_consistent demo_room.
Proof. exact new_MediaRoom_consistent. Qed.

Lemma demo_joined_consistent :
  registry_consistent
    (handleParticipantJoin (demo_signal "join" "p1") demo_room).
Proof. apply handleParticipantJoin_consistent, demo_room_consistent. Qed.

Lemma demo_call_consistent : registry_consistent demo_call.
Proof. apply handleParticipantJoin_consistent, demo_joined_consistent. Qed.

(** X10: the registry of sessions stays consistent.  A new room has a
    consistent registry, and every signalling handler, both screen-share
    methods and leaveRoom keep it so, whether they return or throw: each
    participant has at most one registered session, no connection object
    is registered for two participants, and every registered session is a
    connection object that exists. *)
Theorem registry_stays_consistent :
  registry_consistent new_MediaRoom ∧
  ∀ s, registry_consistent s →
    (∀ msg, registry_consistent (handleOffer_begin msg s).2) ∧
    (∀ (r : nat) msg answer,
       registry_consistent (after (handleOffer_answer r msg answer s))) ∧
    (∀ msg, registry_consistent (handleAnswer msg s)) ∧
    (∀ msg, registry_consistent (handleCandidate msg s)) ∧
    (∀ p, registry_consistent (handleParticipantJoin p s)) ∧
    (∀ p, registry_consistent (handleParticipantLeave p s)) ∧
    (∀ media, registry_consistent (after (startScreenShare media s))) ∧
    registry_consistent (stopScreenShare s) ∧
    registry_consistent (after (leaveRoom s)).
Proof.
  split; [exact new_MediaRoom_consistent|].
  intros s Hrc.
  split.
  { intros msg. unfold handleOffer_begin.
    pose proof (createPeerConnection_consistent (g_userId msg) s Hrc) as H1.
    destruct (createPeerConnection (g_userId msg) s) as [r s1]. simpl in *.
    eapply registry_consistent_ext; [| |exact H1]; [done|].
    simpl. apply length_alter. }
  split.
  { intros r msg answer. unfold handleOffer_answer. cbv zeta.
    match goal with
    | |- registry_consistent (after (signaling_send ?f ?s0)) =>
        destruct (signaling_send_registry f s0) as (Hm & Hp)
    end.
    eapply (registry_consistent_ext s); [by rewrite Hm| |exact Hrc].
    rewrite Hp. simpl. apply length_alter. }
  split.
  { intros msg. unfold handleAnswer. case_match; [|done].
    eapply registry_consistent_ext; [| |exact Hrc]; [done|].
    simpl. apply length_alter. }
  split.
  { intros msg. unfold handleCandidate. case_match; [|done].
    eapply registry_consistent_ext; [| |exact Hrc]; [done|].
    simpl. apply length_alter. }
  split.
  { intros p. by apply handleParticipantJoin_consistent. }
  split.
  { intros p. unfold handleParticipantLeave.
    destruct (JsMap.get (g_userId p) (peerConnections s)) as [r|]; [|done].
    destruct Hrc as (Hk & Hv & Hb). unfold registry_consistent. simpl.
    rewrite length_alter.
    pose proof (jsmap_delete_sublist (g_userId p) (peerConnections s)) as Hsub.
    split; [|split].
    + eapply sublist_NoDup; [exact Hk | by apply fmap_sublist].
    + eapply sublist_NoDup; [exact Hv | by apply fmap_sublist].
    + apply Forall_forall. intros x Hx. rewrite Forall_forall in Hb.
      apply Hb. eapply elem_of_sublist; [exact Hx | by apply fmap_sublist]. }
  split.
  { intros media. unfold startScreenShare, screen_share_failed.
    repeat case_match; simpl;
      (eapply registry_consistent_ext; [| |exact Hrc]; [done|]); simpl;
      by rewrite ?foldl_alter_length. }
  split.
  { unfold stopScreenShare.
    repeat case_match; simpl; try done;
      (eapply registry_consistent_ext; [| |exact Hrc]; [done|]); simpl;
      by rewrite ?foldl_alter_length. }
  { destruct (leaveRoom_connections s) as (Hm & _).
    unfold registry_consistent. rewrite Hm. repeat split; constructor. }
Qed.

Lemma registry_stays_consistent_witness :
  registry_consistent demo_call ∧
  registry_consistent (handleParticipantLeave (demo_signal "leave" "p1") demo_call) ∧
  registry_consistent (handleOffer_begin (demo_signal "offer" "p1") demo_call).2.
Proof.
  destruct registry_stays_consistent as (Hnew & Hkeep).
  assert (Hroom : registry_consistent demo_room) by exact Hnew.
  assert (H1 : registry_consistent
                 (handleParticipantJoin (demo_signal "join" "p1") demo_room)).
  { destruct (Hkeep demo_room Hroom) as (_&_&_&_&Hj&_). apply Hj. }
  assert (H2 : registry_consistent demo_call).
  { destruct (Hkeep _ H1) as (_&_&_&_&Hj&_). apply Hj. }
  destruct (Hkeep demo_call H2) as (Ho&_&_&_&_&Hl&_).
  split; [exact H2|]. split; [apply Hl | apply Ho].
Defined.

(** *** Joining and leaving participants *)

Lemma jsmap_get_values {K V} `{!EqDecision K} (k : K) (v : V) m :
  JsMap.get k m = Some v → v ∈ m.*2.
Proof.
  intros Hg%jsmap_get_elem_of. apply list_elem_of_fmap. by exists (k, v).
Qed.

Lemma jsmap_set_forgets_value {K V} `{!EqDecision K} (k : K) (v v0 : V) m :
  NoDup m.*2 → JsMap.get k m = Some v0 → v ≠ v0 →
  v0 ∉ (JsMap.set k v m).*2.
Proof.
  induction m as [|[k1 v1] m IH]; simpl; [done|].
  intros [Hnin Hnd]%NoDup_cons Hg Hne.
  destruct (decide (k = k1)) as [->|Hk]; simpl.
  - injection Hg as ->. apply not_elem_of_cons. by split.
  - apply not_elem_of_cons. split; [|by apply IH].
    intros ->. apply Hnin. by eapply jsmap_get_values.
Qed.

(** X11: a participant who joins and then leaves.  The connection made
    for the join is closed and is no longer registered, the participant is
    no longer listed, and the sessions of all other participants and all
    earlier connection objects are exactly as before the join. *)
Theorem join_then_leave_closes_the_session s p :
  registry_consistent s → NoDup (participants s).*1 →
  JsMap.get (g_userId p)
    (peerConnections (handleParticipantLeave p (handleParticipantJoin p s)))
    = None ∧
  JsMap.get (g_userId p)
    (participants (handleParticipantLeave p (handleParticipantJoin p s)))
    = None ∧
  (∃ pc, pcs (handleParticipantLeave p (handleParticipantJoin p s))
           !! length (pcs s) = Some pc ∧ closed pc = true) ∧
  (∀ r, (r < length (pcs s))%nat →
     pcs (handleParticipantLeave p (handleParticipantJoin p s)) !! r
       = pcs s !! r) ∧
  (∀ uid, uid ≠ g_userId p →
     JsMap.get uid
       (peerConnections (handleParticipantLeave p (handleParticipantJoin p s)))
       = JsMap.get uid (peerConnections s)).
Proof.
  intros (Hk & Hv & Hb) Hpart.
  unfold handleParticipantLeave, handleParticipantJoin, createPeerConnection.
  simpl. rewrite jsmap_get_set_eq. simpl.
  split; [apply jsmap_get_delete_eq; by apply jsmap_set_NoDup_keys|].
  split; [apply jsmap_get_delete_eq; by apply jsmap_set_NoDup_keys|].
  split.
  { eexists. rewrite list_lookup_alter_eq.
    rewrite lookup_app_r, Nat.sub_diag by lia. simpl. by split. }
  split.
  { intros r Hr. rewrite list_lookup_alter_ne by lia.
    by rewrite lookup_app_l. }
  intros uid Hne.
  rewrite jsmap_get_delete_ne by done. by rewrite jsmap_get_set_ne.
Qed.

Lemma join_then_leave_closes_the_session_witness :
  registry_consistent demo_room ∧ NoDup (participants demo_room).*1 ∧
  peerConnections (handleParticipantLeave (demo_signal "leave" "p1")
                     (handleParticipantJoin (demo_signal "join" "p1") demo_room))
    = [] ∧
  closed <$> pcs (handleParticipantLeave (demo_signal "leave" "p1")
                    (handleParticipantJoin (demo_signal "join" "p1") demo_room))
    = [true].
Proof.
  assert (H0 : registry_consistent demo_room) by exact demo_room_consistent.
  assert (H1 : NoDup (participants demo_room).*1) by constructor.
  pose proof (join_then_leave_closes_the_session demo_room
                (demo_signal "join" "p1") H0 H1) as _.
  split; [exact H0|]. split; [exact H1|].
  split; vm_compute; reflexivity.
Defined.

(** X12: a participant's second leave changes nothing.  After
    handleParticipantLeave has run for a participant, running it again for
    the same participant leaves the registry, every connection object, the
    participant list and the frames sent as they are; only the
    notification is shown again. *)
Theorem second_leave_changes_nothing s p :
  registry_consistent s → NoDup (participants s).*1 →
  peerConnections (handleParticipantLeave p (handleParticipantLeave p s))
    = peerConnections (handleParticipantLeave p s) ∧
  pcs (handleParticipantLeave p (handleParticipantLeave p s))
    = pcs (handleParticipantLeave p s) ∧
  participants (handleParticipantLeave p (handleParticipantLeave p s))
    = participants (handleParticipantLeave p s) ∧
  wire (handleParticipantLeave p (handleParticipantLeave p s))
    = wire (handleParticipantLeave p s) ∧
  notifications (handleParticipantLeave p (handleParticipantLeave p s))
    = notifications (handleParticipantLeave p s)
        ++ [ParticipantLeft (g_name p)].
Proof.
  intros (Hk & Hv & Hb) Hpart.
  assert (Hgone : JsMap.get (g_userId p)
            (peerConnections (handleParticipantLeave p s)) = None).
  { unfold handleParticipantLeave.
    destruct (JsMap.get (g_userId p) (peerConnections s)) eqn:Hg; simpl;
      [by apply jsmap_get_delete_eq | done]. }
  assert (Hpgone : JsMap.get (g_userId p)
            (participants (handleParticipantLeave p s)) = None).
  { unfold handleParticipantLeave.
    destruct (JsMap.get (g_userId p) (peerConnections s)); simpl;
      by apply jsmap_get_delete_eq. }
  set (s1 := handleParticipantLeave p s) in *. clearbody s1.
  unfold handleParticipantLeave. rewrite Hgone. simpl.
  by rewrite jsmap_delete_none.
Qed.

Lemma second_leave_changes_nothing_witness :
  registry_consistent demo_call ∧ NoDup (participants demo_call).*1 ∧
  pcs (handleParticipantLeave (demo_signal "leave" "p1")
         (handleParticipantLeave (demo_signal "leave" "p1") demo_call))
    = pcs (handleParticipantLeave (demo_signal "leave" "p1") demo_call) ∧
  closed <$> pcs (handleParticipantLeave (demo_signal "leave" "p1") demo_call)
    = [true; false].
Proof.
  assert (H0 : registry_consistent demo_call) by exact demo_call_consistent.
  assert (H1 : NoDup (participants demo_call).*1).
  { vm_compute. apply NoDup_cons. split.
    - intros Hin. apply list_elem_of_singleton in Hin. discriminate.
    - apply NoDup_singleton. }
  destruct (second_leave_changes_nothing demo_call
              (demo_signal "leave" "p1") H0 H1) as (_ & Hp & _).
  split; [exact H0|]. split; [exact H1|]. split; [exact Hp|].
  vm_compute. reflexivity.
Defined.

(** *** A session replaced by a new offer *)

(** X13: handleOffer never closes the session it replaces.  If the
    participant of an incoming offer already has a registered session,
    the new connection takes its place in the map, while the old
    connection object is left exactly as it was and is no longer
    registered; so leaveRoom, which closes the registered sessions only,
    leaves it as it was too, whether it returns or throws. *)
Theorem replaced_session_is_left_open s msg r0 pc0 :
  registry_consistent s →
  JsMap.get (g_userId msg) (peerConnections s) = Some r0 →
  pcs s !! r0 = Some pc0 →
  JsMap.get (g_userId msg) (peerConnections (handleOffer_begin msg s).2)
    = Some (length (pcs s)) ∧
  (r0 ∉ (peerConnections (handleOffer_begin msg s).2).*2) ∧
  pcs (handleOffer_begin msg s).2 !! r0 = Some pc0 ∧
  pcs (after (leaveRoom (handleOffer_begin msg s).2)) !! r0 = Some pc0.
Proof.
  intros (Hk & Hv & Hb) Hg Hpc.
  assert (Hlt : (r0 < length (pcs s))%nat) by (by eapply lookup_lt_Some).
  assert (Hmap : peerConnections (handleOffer_begin msg s).2
                 = JsMap.set (g_userId msg) (length (pcs s))
                     (peerConnections s)) by done.
  assert (Hobj : pcs (handleOffer_begin msg s).2 !! r0 = Some pc0).
  { unfold handleOffer_begin, createPeerConnection. simpl.
    rewrite list_lookup_alter_ne by lia. by rewrite lookup_app_l. }
  assert (Hnot : r0 ∉ (peerConnections (handleOffer_begin msg s).2).*2).
  { rewrite Hmap. apply jsmap_set_forgets_value; [done..|lia]. }
  set (s1 := (handleOffer_begin msg s).2) in *. clearbody s1.
  split; [rewrite Hmap; apply jsmap_get_set_eq|].
  split; [exact Hnot|]. split; [exact Hobj|].
  destruct (leaveRoom_connections s1) as (_ & ->).
  rewrite forEach_pc_lookup by done. by rewrite decide_False.
Qed.

Lemma replaced_session_is_left_open_witness :
  registry_consistent (handleParticipantJoin (demo_signal "join" "p1") demo_room) ∧
  JsMap.get (Some "p1")
    (peerConnections (handleParticipantJoin (demo_signal "join" "p1") demo_room))
    = Some 0%nat ∧
  pcs (handleParticipantJoin (demo_signal "join" "p1") demo_room) !! 0%nat
    = Some (demo_pc "p1" camera) ∧
  pcs (after (leaveRoom demo_rejoined)) !! 0%nat = Some (demo_pc "p1" camera).
Proof.
  assert (H0 : registry_consistent
                 (handleParticipantJoin (demo_signal "join" "p1") demo_room))
    by exact demo_joined_consistent.
  assert (H1 : JsMap.get (g_userId (demo_signal "offer" "p1"))
    (peerConnections (handleParticipantJoin (demo_signal "join" "p1") demo_room))
    = Some 0%nat) by (vm_compute; reflexivity).
  assert (H2 : pcs (handleParticipantJoin (demo_signal "join" "p1") demo_room)
                 !! 0%nat = Some (demo_pc "p1" camera))
    by (vm_compute; reflexivity).
  destruct (replaced_session_is_left_open _ (demo_signal "offer" "p1") _ _
              H0 H1 H2) as (_ & _ & _ & Hopen).
  split; [exact H0|]. split; [exact H1|]. split; [exact H2|]. exact Hopen.
Defined.

(** *** Sharing the screen and going back *)

Lemma replace_video_round_trip (scr v : Track) (cam : list Track) :
  t_kind scr = video → head (getVideoTracks cam) = Some v →
  replace_video (Some v) (replace_video (Some scr) (Some <$> cam))
    = Some <$> cam.
Proof.
  intros Hscr. unfold getVideoTracks.
  induction cam as [|x cam IH]; [done|]. csimpl.
  rewrite filter_cons.
  destruct (decide (t_kind x = video)) as [Hx|Hx].
  - intros [= ->]. rewrite bool_decide_true by done. simpl.
    by rewrite bool_decide_true.
  - intros Hh. rewrite bool_decide_false by done. simpl.
    rewrite bool_decide_false by done. by rewrite IH.
Qed.

(** X14: sharing the screen and stopping again is a round trip for the
    sessions.  When every registered session sends the tracks of the local
    stream, as createPeerConnection sets it up, and both the local stream
    and the display stream have a video track, then startScreenShare
    followed by stopScreenShare leaves every connection object and the
    registry exactly as they were; the screen stream is cleared, the flag
    is off, and the only lasting change is that the display stream's
    tracks have been stopped. *)
Theorem screen_share_round_trip s stream screenTrack cam videoTrack :
  localStream s = Some cam →
  head (getVideoTracks cam) = Some videoTrack →
  head (getVideoTracks stream) = Some screenTrack →
  (∀ uid r pc, (uid, r) ∈ peerConnections s → pcs s !! r = Some pc →
     senders pc = Some <$> cam) →
  ∃ s1, startScreenShare (Granted stream) s = Returned s1 ∧
    pcs (stopScreenShare s1) = pcs s ∧
    peerConnections (stopScreenShare s1) = peerConnections s ∧
    localStream (stopScreenShare s1) = localStream s ∧
    screenStream (stopScreenShare s1) = None ∧
    isScreenSharing (stopScreenShare s1) = false ∧
    ended (stopScreenShare s1) = ended s ∪ list_to_set (t_id <$> stream) ∧
    notifications (stopScreenShare s1)
      = notifications s ++ [ScreenSharingStarted; ScreenSharingStopped].
Proof.
  intros Hloc Hcam Hscr Hsnd.
  pose proof (head_video_kind _ _ Hcam) as Hkv.
  pose proof (head_video_kind _ _ Hscr) as Hks.
  unfold startScreenShare. cbv zeta. rewrite Hscr.
  eexists. split; [done|].
  unfold stopScreenShare. simpl. rewrite Hloc, Hcam. simpl.
  split; [|by rewrite <-(assoc_L (++))].
  apply list_eq. intros r.
  rewrite foldl_alter_lookup by (intros; by apply replaceVideoTrack_idem).
  rewrite foldl_alter_lookup by (intros; by apply replaceVideoTrack_idem).
  destruct (decide (r ∈ (peerConnections s).*2)) as [Hin|]; [|done].
  destruct (pcs s !! r) as [pc|] eqn:Hpc; [|done]. simpl. f_equal.
  apply list_elem_of_fmap in Hin as ([uid r'] & -> & Hin).
  specialize (Hsnd _ _ _ Hin Hpc).
  unfold replaceVideoTrack, with_senders. simpl. rewrite Hsnd.
  rewrite replace_video_round_trip by done. rewrite <-Hsnd. by destruct pc.
Qed.

Lemma screen_share_round_trip_witness :
  startScreenShare (Granted [screen]) demo_call = Returned demo_sharing ∧
  pcs (stopScreenShare demo_sharing) = pcs demo_call ∧
  (senders <$> pcs demo_sharing)
    = [[Some microphone; Some screen]; [Some microphone; Some screen]].
Proof.
  assert (H0 : localStream demo_call = Some [microphone; camera])
    by (vm_compute; reflexivity).
  assert (H1 : head (getVideoTracks [microphone; camera]) = Some camera)
    by (vm_compute; reflexivity).
  assert (H2 : head (getVideoTracks [screen]) = Some screen)
    by (vm_compute; reflexivity).
  assert (H3 : ∀ (uid : option string) r pc,
            (uid, r) ∈ peerConnections demo_call →
            pcs demo_call !! r = Some pc →
            senders pc = Some <$> [microphone; camera]).
  { intros uid r pc Hin.
    assert (Hr : r = 0%nat ∨ r = 1%nat).
    { assert (Hm : peerConnections demo_call
                   = [(Some "p1", 0%nat); (Some "p2", 1%nat)])
        by (vm_compute; reflexivity).
      rewrite Hm in Hin.
      apply elem_of_cons in Hin as [[= _ ->]|Hin]; [by left|].
      apply list_elem_of_singleton in Hin as [= _ ->]. by right. }
    assert (Ho : pcs demo_call
                 = [demo_pc "p1" camera; demo_pc "p2" camera])
      by (vm_compute; reflexivity).
    rewrite Ho. destruct Hr as [-> | ->]; intros [= <-]; reflexivity. }
  destruct (screen_share_round_trip demo_call [screen] screen
              [microphone; camera] camera H0 H1 H2 H3)
    as (s1 & Hs1 & Hp & _).
  assert (Hd : startScreenShare (Granted [screen]) demo_call
               = Returned demo_sharing) by (vm_compute; reflexivity).
  assert (He : s1 = demo_sharing) by congruence.
  rewrite He in Hp.
  split; [exact Hd|]. split; [exact Hp|]. vm_compute. reflexivity.
Defined.

(** *** Leaving while the signalling socket is still connecting *)

(** X15: leaveRoom while the signalling socket is still connecting.
    The send throws, after every registered session has been closed and
    the registry cleared but before anything else: no track is stopped,
    the call stays marked active, the room id and the participant list
    stay, nothing is sent and no notification is shown. *)
Theorem leaveRoom_throws_while_connecting s :
  signaling s = Some CONNECTING →
  ∃ s', leaveRoom s = Thrown s' ∧
    peerConnections s' = [] ∧
    (∀ uid r pc, (uid, r) ∈ peerConnections s → pcs s !! r = Some pc →
       pcs s' !! r = Some (close pc)) ∧
    ended s' = ended s ∧ isCallActive s' = isCallActive s ∧
    roomId s' = roomId s ∧ participants s' = participants s ∧
    localStream s' = localStream s ∧ screenStream s' = screenStream s ∧
    wire s' = wire s ∧ notifications s' = notifications s.
Proof.
  intros Hsig. unfold leaveRoom, signaling_send. simpl. rewrite Hsig.
  eexists. split; [done|]. simpl. split; [done|].
  split; [|done]. intros uid r pc Hin Hpc.
  rewrite foldl_alter_lookup by apply close_idem.
  rewrite decide_True by (by eapply registered_ref). by rewrite Hpc.
Qed.

Lemma leaveRoom_throws_while_connecting_witness :
  signaling (set_signaling (Some CONNECTING) demo_call) = Some CONNECTING ∧
  (∃ s', leaveRoom (set_signaling (Some CONNECTING) demo_call) = Thrown s' ∧
     closed <$> pcs s' = [true; true] ∧ ended s' = ∅ ∧
     isCallActive s' = isCallActive demo_call).
Proof.
  assert (H0 : signaling (set_signaling (Some CONNECTING) demo_call)
               = Some CONNECTING) by (vm_compute; reflexivity).
  destruct (leaveRoom_throws_while_connecting _ H0)
    as (s' & Hl & _ & _ & He & Ha & _).
  split; [exact H0|]. exists s'. split; [exact Hl|].
  assert (Hs : leaveRoom (set_signaling (Some CONNECTING) demo_call)
     = Thrown (after (leaveRoom (set_signaling (Some CONNECTING) demo_call))))
    by (vm_compute; reflexivity).
  assert (Es : s' = after (leaveRoom (set_signaling (Some CONNECTING) demo_call)))
    by congruence.
  split; [rewrite Es; vm_compute; reflexivity|].
  split; [rewrite He; vm_compute; reflexivity | exact Ha].
Defined.

End MediaInvariants.

(** ** EthiopianPayment *)

Section PaymentFacts.
Import Payment.
Implicit Types (s p ds : JsString) (r : Regex).

Lemma strip_spec l s rest : strip l s = Some rest ↔ s = l ++ rest.
Proof.
  revert s. induction l as [|x l IH]; intros s; simpl.
  - split; [by intros [= ->] | by intros ->].
  - destruct s as [|y s]; [done|].
    destruct (decide (x = y)) as [->|Hne].
    + rewrite IH. split; [by intros -> | by intros [= ->]].
    + split; [done | by intros [= -> _]].
Qed.

Lemma consume_lit l s rest : rest ∈ consume (Lit l) s ↔ s = l ++ rest.
Proof.
  simpl. destruct (strip l s) as [rest'|] eqn:Hs.
  - apply strip_spec in Hs. rewrite list_elem_of_singleton.
    split; [by intros -> | intros Heq; subst; by simplify_list_eq].
  - split; [by intros ?%elem_of_nil|].
    intros Heq%strip_spec. congruence.
Qed.

Lemma consume_times_S n r s :
  consume (Times (S n) r) s = consume r s ≫= consume (Times n r).
Proof. done. Qed.

Lemma consume_times_digit n : ∀ s rest,
  rest ∈ consume (Times n Digit) s ↔
  ∃ ds, s = ds ++ rest ∧ length ds = n ∧ digits ds.
Proof.
  induction n as [|n IH]; intros s rest.
  - simpl. rewrite list_elem_of_singleton. split.
    + intros ->. exists []. repeat split. constructor.
    + intros (ds & -> & Hl & _). by destruct ds.
  - rewrite consume_times_S, list_elem_of_bind. split.
    + intros (mid & Hrest & Hmid). simpl in Hmid.
      destruct s as [|c s]; [by apply elem_of_nil in Hmid|].
      destruct (is_digit c) eqn:Hc; [|by apply elem_of_nil in Hmid].
      apply list_elem_of_singleton in Hmid as ->.
      apply IH in Hrest as (ds & -> & Hl & Hd).
      exists (c :: ds). simpl. repeat split; [by rewrite Hl|].
      by constructor.
    + intros ([|c ds] & -> & Hl & Hd); [done|].
      apply Forall_cons in Hd as [Hc Hd]. injection Hl as Hl.
      exists (ds ++ rest). split.
      * apply IH. by exists ds.
      * simpl. rewrite Hc. by apply list_elem_of_singleton.
Qed.

Lemma test_times_digit n s :
  test (Times n Digit) s = true ↔ length s = n ∧ digits s.
Proof.
  unfold test. rewrite bool_decide_eq_true, consume_times_digit. split.
  - intros (ds & -> & Hl & Hd). by rewrite (right_id_L [] (++)).
  - intros [Hl Hd]. exists s. by rewrite (right_id_L [] (++)).
Qed.

Lemma test_phoneRegex p :
  test phoneRegex p = true ↔
  ∃ prefix n, prefix ∈ [lit "+251"; lit "251"; lit "0"] ∧
    p = prefix ++ n ∧ subscriber_number n.
Proof.
  unfold test, phoneRegex. rewrite bool_decide_eq_true.
  change (consume (Seq ?a ?b) p) with (consume a p ≫= consume b).
  rewrite list_elem_of_bind.
  assert (Hsub : ∀ n, [] ∈ consume (Seq (Lit (lit "9")) (Times 8 Digit)) n
                      ↔ subscriber_number n).
  { intros n.
    change (consume (Seq ?a ?b) n) with (consume a n ≫= consume b).
    rewrite list_elem_of_bind. unfold subscriber_number. split.
    - intros (ds & Hd & ->%consume_lit).
      apply consume_times_digit in Hd as (ds' & -> & Hl & Hd).
      exists ds'. by rewrite (right_id_L [] (++)).
    - intros (ds & -> & Hl & Hd). exists ds. split.
      + apply consume_times_digit. exists ds.
        by rewrite (right_id_L [] (++)).
      + by apply consume_lit. }
  assert (Hpre : ∀ n,
    n ∈ consume (Alt (Lit (lit "+251"))
                   (Alt (Lit (lit "251")) (Lit (lit "0")))) p ↔
    ∃ prefix, prefix ∈ [lit "+251"; lit "251"; lit "0"] ∧ p = prefix ++ n).
  { intros n.
    change (consume (Alt ?a (Alt ?b ?c)) p)
      with (consume a p ++ (consume b p ++ consume c p)).
    rewrite !elem_of_app, !consume_lit. split.
    - intros [H|[H|H]]; eexists; (split; [|exact H]).
      + apply elem_of_cons. by left.
      + apply elem_of_cons. right. apply elem_of_cons. by left.
      + apply elem_of_cons. right. apply elem_of_cons. right.
        by apply list_elem_of_singleton.
    - intros (prefix & Hin & ->).
      apply elem_of_cons in Hin as [->|Hin]; [by left|].
      apply elem_of_cons in Hin as [->|Hin]; [right; by left|].
      apply list_elem_of_singleton in Hin as ->. right; by right. }
  split.
  - intros (n & Hn%Hsub & (prefix & Hin & ->)%Hpre). by exists prefix, n.
  - intros (prefix & n & Hin & -> & Hn). exists n. split; [by apply Hsub|].
    apply Hpre. by exists prefix.
Qed.

(** X17: validateBankDetails returns normally exactly when the account
    number consists of 13 decimal digits and the account name is a
    non-empty string.  A missing or empty account number is reported
    first, whatever the name is; a missing name is reported before a
    malformed number. *)
Theorem validateBankDetails_accepts_13_digits (d : BankDetails) :
  (validateBankDetails d = Returns ↔
     ∃ number name, accountNumber d = Some number ∧
       accountName d = Some name ∧ name ≠ [] ∧
       length number = 13%nat ∧ digits number) ∧
  (falsy (accountNumber d) = true →
     validateBankDetails d = Throws "Account number is required") ∧
  (falsy (accountNumber d) = false → falsy (accountName d) = true →
     validateBankDetails d = Throws "Account name is required").
Proof.
  split; [|split].
  - unfold validateBankDetails.
    destruct d as [[[|c number]|] [[|c' name]|]]; simpl;
      try (split; [done|]; intros (? & ? & ? & ? & ? & ? & ?);
           simplify_eq/=; done).
    destruct (test accountRegex (c :: number)) eqn:Ht; simpl.
    + apply test_times_digit in Ht as [Hl Hd]. split; [|done].
      intros _. by exists (c :: number), (c' :: name).
    + split; [done|]. intros (? & ? & [= <-] & _ & _ & Hl & Hd).
      assert (test accountRegex (c :: number) = true)
        by (by apply test_times_digit).
      congruence.
  - unfold validateBankDetails. by intros ->.
  - unfold validateBankDetails. by intros -> ->.
Qed.

Lemma validateBankDetails_accepts_13_digits_witness :
  falsy (accountNumber {| accountNumber := None;
                          accountName := None |}) = true ∧
  validateBankDetails {| accountNumber := None; accountName := None |}
    = Throws "Account number is required" ∧
  validateBankDetails demo_account = Returns.
Proof.
  assert (H0 : falsy (accountNumber {| accountNumber := None;
                                       accountName := None |}) = true)
    by reflexivity.
  destruct (validateBankDetails_accepts_13_digits
              {| accountNumber := None; accountName := None |})
    as (_ & Hmissing & _).
  split; [exact H0|]. split; [exact (Hmissing H0)|].
  vm_compute. reflexivity.
Defined.

(** X18: validatePhoneNumber returns normally exactly for a subscriber
    number (9 followed by eight digits) behind one of the prefixes +251,
    251 or 0.  So the three spellings of one subscriber number are
    accepted or rejected together, and an accepted number is 13, 12 or 10
    code units long. *)
Theorem validatePhoneNumber_accepts_three_spellings :
  (∀ p, validatePhoneNumber p = Returns ↔
     ∃ prefix n, prefix ∈ [lit "+251"; lit "251"; lit "0"] ∧
       p = prefix ++ n ∧ subscriber_number n) ∧
  (∀ n, subscriber_number n →
     validatePhoneNumber (international n) = Returns ∧
     validatePhoneNumber (international_bare n) = Returns ∧
     validatePhoneNumber (national n) = Returns) ∧
  (∀ n, validatePhoneNumber (national n) = Returns → subscriber_number n) ∧
  (∀ p, validatePhoneNumber p = Returns →
     length p = 13%nat ∨ length p = 12%nat ∨ length p = 10%nat).
Proof.
  assert (Hiff : ∀ p, validatePhoneNumber p = Returns ↔
     ∃ prefix n, prefix ∈ [lit "+251"; lit "251"; lit "0"] ∧
       p = prefix ++ n ∧ subscriber_number n).
  { intros p. rewrite <-test_phoneRegex. unfold validatePhoneNumber.
    by destruct (test phoneRegex p). }
  split; [exact Hiff|]. split; [|split].
  - intros n Hn. repeat split; apply Hiff; eexists _, n;
      (split; [|split; [reflexivity|exact Hn]]).
    + apply elem_of_cons. by left.
    + apply elem_of_cons. right. apply elem_of_cons. by left.
    + apply elem_of_cons. right. apply elem_of_cons. right.
      by apply list_elem_of_singleton.
  - intros n (prefix & n' & Hin & Heq & Hn)%Hiff.
    destruct Hn as (ds & -> & Hl & Hd).
    apply elem_of_cons in Hin as [->|Hin]; [done|].
    apply elem_of_cons in Hin as [->|Hin]; [done|].
    apply list_elem_of_singleton in Hin as ->.
    injection Heq as ->. by exists ds.
  - intros p (prefix & n & Hin & -> & ds & -> & Hl & Hd)%Hiff.
    rewrite !length_app, Hl.
    apply elem_of_cons in Hin as [->|Hin]; [by left|].
    apply elem_of_cons in Hin as [->|Hin]; [right; by left|].
    apply list_elem_of_singleton in Hin as ->. right; by right.
Qed.

Lemma validatePhoneNumber_accepts_three_spellings_witness :
  subscriber_number demo_subscriber ∧
  validatePhoneNumber (lit "+251911234567") = Returns ∧
  validatePhoneNumber (lit "0911234567") = Returns ∧
  validatePhoneNumber (lit "911234567")
    = Throws "Invalid Ethiopian phone number format".
Proof.
  assert (H0 : subscriber_number demo_subscriber).
  { exists (lit "11234567"). split; [reflexivity|]. split; [reflexivity|].
    apply (bool_decide_unpack _). vm_compute. exact I. }
  destruct validatePhoneNumber_accepts_three_spellings as (_ & Hall & _).
  destruct (Hall demo_subscriber H0) as (Hi & _ & Hn).
  split; [exact H0|]. split; [exact Hi|]. split; [exact Hn|].
  vm_compute. reflexivity.
Defined.

Lemma slice_last4 s :
  (4 < length s)%nat → slice (-4) None s = drop (length s - 4) s.
Proof.
  intros Hl. unfold slice, relative. simpl.
  rewrite Z.max_l by lia.
  replace (Z.to_nat (Z.of_nat (length s) + -4)) with (length s - 4)%nat
    by lia.
  apply take_ge. rewrite length_drop. lia.
Qed.

Lemma slice_first3 s : slice 0 (Some 3%Z) s = take 3 s.
Proof.
  unfold slice, relative. simpl.
  rewrite (Z.min_l 0) by lia. rewrite Z.sub_0_r.
  change (drop (Z.to_nat 0) s) with s.
  destruct (decide (3 ≤ length s)%nat).
  - by rewrite Z.min_l by lia.
  - rewrite Z.min_r by lia.
    rewrite Nat2Z.id.
    rewrite (take_ge s (length s)) by lia. by rewrite (take_ge s 3) by lia.
Qed.

(** X19: what the two masks show.  A string of at most four code
    units is returned as it is by both.  For a longer one,
    maskAccountNumber gives eight code units, four stars and the last
    four of the input; maskPhoneNumber gives eleven, the first three of
    the input, four stars and the last four.  So for an input of five to
    seven code units the phone mask hides nothing: the input is the first
    three code units of the mask followed by its end. *)
Theorem masks_show_the_ends :
  (∀ s, (length s ≤ 4)%nat →
     maskAccountNumber s = s ∧ maskPhoneNumber s = s) ∧
  (∀ s, (4 < length s)%nat →
     maskAccountNumber s = lit "****" ++ drop (length s - 4) s ∧
     length (maskAccountNumber s) = 8%nat ∧
     maskPhoneNumber s = take 3 s ++ lit "****" ++ drop (length s - 4) s ∧
     length (maskPhoneNumber s) = 11%nat) ∧
  (∀ s, (4 < length s ≤ 7)%nat →
     s = take 3 (maskPhoneNumber s)
           ++ drop (14 - length s) (maskPhoneNumber s)).
Proof.
  assert (Hlong : ∀ s, (4 < length s)%nat →
     maskAccountNumber s = lit "****" ++ drop (length s - 4) s ∧
     length (maskAccountNumber s) = 8%nat ∧
     maskPhoneNumber s = take 3 s ++ lit "****" ++ drop (length s - 4) s ∧
     length (maskPhoneNumber s) = 11%nat).
  { intros s Hl. unfold maskAccountNumber, maskPhoneNumber. cbv zeta.
    rewrite (proj2 (Nat.leb_gt _ _)) by done.
    rewrite slice_first3, slice_last4 by done.
    repeat split.
    - rewrite length_app, length_drop.
      change (length (lit "****")) with 4%nat. lia.
    - rewrite !length_app, length_take, length_drop.
      change (length (lit "****")) with 4%nat. lia. }
  split; [|split; [exact Hlong|]].
  - intros s Hl. unfold maskAccountNumber, maskPhoneNumber.
    by rewrite (proj2 (Nat.leb_le _ _)) by done.
  - intros s [Hl Hu]. destruct (Hlong s Hl) as (_ & _ & -> & _).
    rewrite take_app_le by (rewrite length_take; lia).
    rewrite take_take, Nat.min_id.
    rewrite drop_app_ge by (rewrite length_take; lia).
    rewrite length_take, Nat.min_l by lia.
    rewrite drop_app_ge
      by (change (length (lit "****")) with 4%nat; lia).
    change (length (lit "****")) with 4%nat.
    rewrite drop_drop.
    replace (length s - 4 + (14 - length s - 3 - 4))%nat with 3%nat by lia.
    by rewrite take_drop.
Qed.

Lemma masks_show_the_ends_witness :
  (4 < length (lit "09112") ≤ 7)%nat ∧
  maskPhoneNumber (lit "09112") = lit "091****9112" ∧
  maskPhoneNumber (lit "0911234567") = lit "091****4567" ∧
  maskAccountNumber (lit "1000123456789") = lit "****6789" ∧
  maskAccountNumber (lit "6789") = lit "6789".
Proof.
  assert (H0 : (4 < length (lit "09112") ≤ 7)%nat) by (vm_compute; lia).
  destruct masks_show_the_ends as (_ & _ & Hall).
  pose proof (Hall (lit "09112") H0) as _.
  split; [exact H0|]. repeat split; vm_compute; reflexivity.
Defined.

End PaymentFacts.
